(** * ObjectStoreLogger: the asynchronous artifact upload pipeline

    A shallow embedding of [composer/loggers/object_store_logger.py]: the
    upload worker ([_upload_worker]), the logger destination that feeds it
    ([ObjectStoreLogger]) and the properties its specification states.

    The Python code is effectful: it touches the local file system, the remote
    container, a shared queue, an event flag and the wall clock.  All of these
    live in one explicit [World] that every operation threads through; Python
    exceptions are the left summand of the result. *)

From Stdlib Require Import ZArith QArith Lia Bool Ascii String.
From Equations Require Import Equations.
From stdpp Require Import gmap strings list.

Open Scope string_scope.
Open Scope list_scope.
Open Scope Z_scope.

(** ** Python strings *)

Module PyStr.

(** [x in s] on strings. *)
Fixpoint contains (x s : string) : bool :=
  String.prefix x s ||
  match s with
  | EmptyString => false
  | String _ s' => contains x s'
  end.

(** [c in chars] for a single character. *)
Fixpoint mem (c : ascii) (chars : string) : bool :=
  match chars with
  | EmptyString => false
  | String a chars' => Ascii.eqb a c || mem c chars'
  end.

(** [s.lstrip(chars)]. *)
Fixpoint lstrip (chars s : string) : string :=
  match s with
  | EmptyString => EmptyString
  | String a s' => if mem a chars then lstrip chars s' else s
  end.

(** [s.startswith(p)], [s.endswith(p)] for a one-character [p]. *)
Definition starts_with_char (c : ascii) (s : string) : bool :=
  match s with
  | String a _ => Ascii.eqb a c
  | EmptyString => false
  end.

Fixpoint ends_with_char (c : ascii) (s : string) : bool :=
  match s with
  | EmptyString => false
  | String a EmptyString => Ascii.eqb a c
  | String _ s' => ends_with_char c s'
  end.

Definition newline : string := String (Ascii.ascii_of_nat 10) EmptyString.

End PyStr.

(** ** [textwrap.dedent] *)

Module Textwrap.

(** CPython's [textwrap.dedent], the implementation on two multi-line
    regular expressions: a line that holds only spaces and tabs is emptied;
    the margin is the longest common prefix of the leading spaces and tabs of
    the other lines; it is cut from every line that starts with it.  Lines
    are what lies between line feeds. *)

Definition blank (c : ascii) : bool := Ascii.eqb c " " || Ascii.eqb c "009".

(** [text.split('\n')]. *)
Fixpoint split_lines (s : string) : list string :=
  match s with
  | EmptyString => [EmptyString]
  | String c s' =>
      if Ascii.eqb c "010" then EmptyString :: split_lines s'
      else match split_lines s' with
           | l :: ls => String c l :: ls
           | [] => [String c EmptyString]
           end
  end.

(** ['\n'.join(lines)]. *)
Fixpoint join_lines (ls : list string) : string :=
  match ls with
  | [] => EmptyString
  | l :: ls' =>
      match ls' with
      | [] => l
      | _ :: _ => l +:+ String "010" (join_lines ls')
      end
  end.

Fixpoint all_blank (s : string) : bool :=
  match s with
  | EmptyString => true
  | String c s' => blank c && all_blank s'
  end.

(** The leading run of spaces and tabs of a line. *)
Fixpoint indent (s : string) : string :=
  match s with
  | EmptyString => EmptyString
  | String c s' => if blank c then String c (indent s') else EmptyString
  end.

Fixpoint common_prefix (a b : string) : string :=
  match a, b with
  | String x a', String y b' =>
      if Ascii.eqb x y then String x (common_prefix a' b') else EmptyString
  | _, _ => EmptyString
  end.

(** [line] without the leading [margin], if it starts with it. *)
Fixpoint cut (margin line : string) : option string :=
  match margin with
  | EmptyString => Some line
  | String a margin' =>
      match line with
      | EmptyString => None
      | String b line' => if Ascii.eqb a b then cut margin' line' else None
      end
  end.

Definition strip_margin (margin line : string) : string :=
  default line (cut margin line).

Definition dedent (text : string) : string :=
  let lines := map (fun l => if all_blank l then EmptyString else l) (split_lines text) in
  match map indent (List.filter (fun l => negb (all_blank l)) lines) with
  | [] => join_lines lines
  | i :: indents => join_lines (map (strip_margin (foldl common_prefix i indents)) lines)
  end.

End Textwrap.

(** ** Exceptions *)

(** The exception classes the module raises, catches or lets through.
    [ObjectDoesNotExistError] is libcloud's subclass of [LibcloudError];
    [ConnectionError] is the one the module imports from
    [requests.exceptions], [ProtocolError] the one of [urllib3];
    [TimeoutError] is Python's built-in class.  [ReadTimeout] is
    [requests.exceptions.ReadTimeout], what [requests] raises when the server
    sends no data in time: a [RequestException], hence an [OSError], but
    neither a built-in [TimeoutError] nor a [ConnectionError]. *)
Inductive exn_class :=
| LibcloudError
| ObjectDoesNotExistError
| ProtocolError
| TimeoutError
| ConnectionError
| ReadTimeout
| OSError
| FileExistsError
| FileNotFoundError
| NotADirectoryError
| IsADirectoryError
| SameFileError
| RuntimeError
| ValueError
| KeyError
| IndexError
| AssertionError.

#[global] Instance exn_class_eq_dec : EqDecision exn_class.
Proof. solve_decision. Defined.

(** An exception object: its class and [str(e)]. *)
Record exn := Exn { exn_type : exn_class; exn_str : string }.

#[global] Instance exn_eq_dec : EqDecision exn.
Proof. solve_decision. Defined.

(** [issubclass c d]. *)
Definition issubclass (c d : exn_class) : bool :=
  bool_decide (c = d) ||
  match c, d with
  | ObjectDoesNotExistError, LibcloudError => true
  | (FileExistsError | FileNotFoundError | NotADirectoryError
     | IsADirectoryError | SameFileError | TimeoutError
     | ConnectionError | ReadTimeout), OSError => true
  | _, _ => false
  end.

Definition isinstance (e : exn) (c : exn_class) : bool :=
  issubclass (exn_type e) c.

(** ** The world the pipeline runs in *)

(** An entry of the upload queue: [(copied_path, object_name, overwrite)]. *)
Definition Job : Type := string * string * bool.

(** What the code does to its environment, in the order it does it. *)
Inductive event :=
| EvPoll (waited : Q)                          (* file_queue.get(block=True, timeout=0.5) *)
| EvGetObjectSize (object_name : string)       (* provider.get_object_size *)
| EvUploadObject (file_path object_name : string)  (* one provider.upload_object attempt *)
| EvUploadViaStream (object_name : string)     (* provider.upload_object_via_stream *)
| EvSleep (seconds : Z)                        (* time.sleep *)
| EvRemove (path : string)                     (* os.remove *)
| EvTaskDone                                   (* file_queue.task_done *)
| EvStart (worker : nat).                      (* worker.start *)

(** A worker thread (or process): where it stands in [_upload_worker].
    The controller sees only whether it is alive. *)
Inductive thread_state :=
| Running                (* at the top of the outer loop, about to call [get] *)
| CaughtEmpty            (* [get] has raised [queue.Empty]; [is_set()] not yet called *)
| Exited                 (* left the loop through [break] *)
| Crashed (e : exn).     (* an exception escaped [_upload_worker] *)

Definition is_alive (t : thread_state) : bool :=
  match t with
  | Running | CaughtEmpty => true
  | Exited | Crashed _ => false
  end.

Record World := mkWorld {
  fs_files : gmap string string;      (* local files: path to contents *)
  fs_dirs : gset string;              (* local directories *)
  container : gmap string string;     (* remote objects: name to contents *)
  oracle : list (option exn);         (* fate of the coming provider requests:
                                         [None] goes through, [Some e] raises [e] *)
  file_queue : list Job;              (* FIFO, head is the next job *)
  unfinished_tasks : nat;             (* the queue's put/task_done counter *)
  is_finished : bool;                 (* the [_finished] event *)
  threads : list thread_state;        (* every worker ever started *)
  trace : list event;                 (* chronological *)
}.

(** ** A state-and-exception monad over the world *)

Definition M (A : Type) : Type := World -> (exn + A) * World.

Definition ret {A} (a : A) : M A := fun w => (inr a, w).
Definition raise {A} (e : exn) : M A := fun w => (inl e, w).
Definition bind {A B} (m : M A) (k : A -> M B) : M B :=
  fun w =>
    match m w with
    | (inr a, w') => k a w'
    | (inl e, w') => (inl e, w')
    end.

Notation "x <- m ;; k" := (bind m (fun x => k))
  (at level 100, m at next level, right associativity).
Notation "m ;;; k" := (bind m (fun _ => k))
  (at level 100, right associativity).

Definition emit (e : event) : M unit :=
  fun w => (inr tt,
            mkWorld (fs_files w) (fs_dirs w) (container w) (oracle w) (file_queue w)
                    (unfinished_tasks w) (is_finished w) (threads w) (trace w ++ [e])).

(** ** The provider, as the worker uses it *)

Record ObjectStoreProviderHparams := {
  provider : string;
  container_name_of : string;
}.

(** The handle [initialize_object] gives: only its identity is read here. *)
Record Provider := {
  provider_name : string;
  container_name : string;
}.

Definition initialize_object (hp : ObjectStoreProviderHparams) : Provider :=
  {| provider_name := provider hp; container_name := container_name_of hp |}.

(** Every request to the store first draws its fate from the oracle; an
    exhausted oracle means the store answers normally from then on. *)
Definition request : M unit :=
  fun w =>
    match oracle w with
    | [] => (inr tt, w)
    | fate :: rest =>
        let w' := mkWorld (fs_files w) (fs_dirs w) (container w) rest (file_queue w)
                          (unfinished_tasks w) (is_finished w) (threads w) (trace w) in
        match fate with
        | None => (inr tt, w')
        | Some e => (inl e, w')
        end
    end.

Definition store_object (object_name data : string) : M unit :=
  fun w => (inr tt,
            mkWorld (fs_files w) (fs_dirs w) (<[object_name := data]> (container w))
                    (oracle w) (file_queue w) (unfinished_tasks w) (is_finished w)
                    (threads w) (trace w)).

(** [provider.get_object_size(object_name)]. *)
Definition get_object_size (object_name : string) : M Z :=
  emit (EvGetObjectSize object_name) ;;;
  request ;;;
  fun w =>
    match container w !! object_name with
    | Some data => (inr (Z.of_nat (String.length data)), w)
    | None => (inl (Exn ObjectDoesNotExistError object_name), w)
    end.

(** [provider.upload_object(file_path=..., object_name=...)]: one attempt. *)
Definition upload_object (file_path object_name : string) : M unit :=
  emit (EvUploadObject file_path object_name) ;;;
  fun w =>
    match fs_files w !! file_path with
    | None => (inl (Exn OSError ("File " +:+ file_path +:+ " does not exist")), w)
    | Some data => (request ;;; store_object object_name data) w
    end.

(** [provider.upload_object_via_stream(obj=..., object_name=...)]. *)
Definition upload_object_via_stream (obj object_name : string) : M unit :=
  emit (EvUploadViaStream object_name) ;;;
  request ;;;
  store_object object_name obj.

(** ** Local effects of the worker *)

Definition sleep (seconds : Z) : M unit := emit (EvSleep seconds).

(** [os.remove(path)]. *)
Definition os_remove (path : string) : M unit :=
  emit (EvRemove path) ;;;
  fun w =>
    match fs_files w !! path with
    | None => (inl (Exn FileNotFoundError path), w)
    | Some _ =>
        (inr tt,
         mkWorld (delete path (fs_files w)) (fs_dirs w) (container w) (oracle w)
                 (file_queue w) (unfinished_tasks w) (is_finished w) (threads w) (trace w))
    end.

(** [file_queue.task_done()]. *)
Definition task_done : M unit :=
  emit EvTaskDone ;;;
  fun w =>
    match unfinished_tasks w with
    | O => (inl (Exn ValueError "task_done() called too many times"), w)
    | S n =>
        (inr tt,
         mkWorld (fs_files w) (fs_dirs w) (container w) (oracle w) (file_queue w) n
                 (is_finished w) (threads w) (trace w))
    end.

(** The timeout of one poll, in seconds. *)
Definition poll_timeout : Q := 1 # 2.

(** [file_queue.get(block=True, timeout=timeout)]: the first job, at once,
    if there is one; else [queue.Empty], for which [None] stands, once
    [timeout] seconds have passed with nothing to take.  A job put during the
    wait is a job put before the call. *)
Definition queue_get_blocking (timeout : Q) : M (option Job) :=
  fun w =>
    match file_queue w with
    | [] => (emit (EvPoll timeout) ;;; ret None) w
    | job :: rest =>
        (emit (EvPoll 0) ;;; ret (Some job))
          (mkWorld (fs_files w) (fs_dirs w) (container w) (oracle w) rest
                   (unfinished_tasks w) (is_finished w) (threads w) (trace w))
    end.

(** The worker's call: [file_queue.get(block=True, timeout=0.5)]. *)
Definition queue_get : M (option Job) := queue_get_blocking poll_timeout.

(** ** [_upload_worker] *)

(** The worker's calls to [log.info] and [log.warn] change nothing the
    properties below speak about and are left out.  The provider handle is
    the one [initialize_object] gives before the loop starts; building it is
    taken to succeed. *)

Definition transient_codes : list string :=
  ["408"; "409"; "425"; "429"; "500"; "503"; "504"].

(** [any(x in str(e) for x in ("408", ..., "504"))]. *)
Definition is_transient_error (e : exn) : bool :=
  existsb (fun x => PyStr.contains x (exn_str e)) transient_codes.

(** [except (LibcloudError, ProtocolError, TimeoutError, ConnectionError)]. *)
Definition caught_by_retry (e : exn) : bool :=
  isinstance e LibcloudError || isinstance e ProtocolError ||
  isinstance e TimeoutError || isinstance e ConnectionError.

(** The errors the handler does not re-raise at once. *)
Definition retryable (e : exn) : bool :=
  caught_by_retry e &&
  (if isinstance e LibcloudError then is_transient_error e else true).

(** The inner [while True]: upload with retries, then remove the staged file
    and acknowledge the job.  [retry_counter] only grows and the loop is left
    once it reaches 4, which is the measure. *)
Equations upload_loop (file_path_to_upload object_name : string)
    (retry_counter : Z) (w : World) : (exn + unit) * World
    by wf (Z.to_nat (4 - retry_counter)) lt :=
  upload_loop file_path_to_upload object_name retry_counter w
    with upload_object file_path_to_upload object_name w := {
    | (inr _, w1) =>
        (os_remove file_path_to_upload ;;; task_done) w1
    | (inl e, w1) with caught_by_retry e := {
      | false => (inl e, w1)
      | true with isinstance e LibcloudError && negb (is_transient_error e) := {
        | true => (inl e, w1)
        | false with Z_lt_dec retry_counter 4 := {
          | left _ =>
              let retry_counter' := retry_counter + 1 in
              let sleep_time := 2 ^ (retry_counter' - 1) in
              upload_loop file_path_to_upload object_name retry_counter'
                          (snd (sleep sleep_time w1))
          | right _ => (inl e, w1) } } } }.
Next Obligation. lia. Qed.

(** The argument of [FileExistsError]: the f-string with its margin of
    twenty spaces on both lines (the backslash after the opening quotes
    swallows the first line break), handed to [textwrap.dedent]. *)
Definition already_exists_text (p : Provider) (object_name : string) : string :=
  Textwrap.dedent
    ("                    " +:+ provider_name p +:+ "://" +:+ container_name p +:+ "/" +:+
     object_name +:+ " already exists," +:+ PyStr.newline +:+
     "                    " +:+ "but allow_overwrite was set to False.").

(** The [if not overwrite:] block. *)
Definition check_overwrite (p : Provider) (object_name : string) (overwrite : bool)
  : M unit :=
  if negb overwrite then
    fun w =>
      match get_object_size object_name w with
      | (inl e, w1) =>
          if isinstance e ObjectDoesNotExistError then (inr tt, w1) else (inl e, w1)
      | (inr _, w1) => (inl (Exn FileExistsError (already_exists_text p object_name)), w1)
      end
  else ret tt.

(** Everything the outer loop body does with a dequeued job. *)
Definition process_job (p : Provider) (job : Job) : M unit :=
  let '(file_path_to_upload, object_name, overwrite) := job in
  check_overwrite p object_name overwrite ;;;
  upload_loop file_path_to_upload object_name 0.

Inductive loop_ctl := Continue | Break.

(** The handler of [queue.Empty]: [break] if [is_finished.is_set()], else
    [continue]. *)
Definition check_finished : M loop_ctl :=
  fun w => if is_finished w then (inr Break, w) else (inr Continue, w).

(** One pass through the body of the outer [while True], as a thread runs it
    when nothing else acts between its [get] and its [is_set()]. *)
Definition worker_iteration (p : Provider) : M loop_ctl :=
  polled <- queue_get ;;
  match polled with
  | None => check_finished
  | Some job => process_job p job ;;; ret Continue
  end.

(** ** Worker threads under a scheduler *)

Definition set_threads (ts : list thread_state) (w : World) : World :=
  mkWorld (fs_files w) (fs_dirs w) (container w) (oracle w) (file_queue w)
          (unfinished_tasks w) (is_finished w) ts (trace w).

Definition set_is_finished (b : bool) (w : World) : World :=
  mkWorld (fs_files w) (fs_dirs w) (container w) (oracle w) (file_queue w)
          (unfinished_tasks w) b (threads w) (trace w).

Definition set_fs (files : gmap string string) (dirs : gset string) (w : World) : World :=
  mkWorld files dirs (container w) (oracle w) (file_queue w)
          (unfinished_tasks w) (is_finished w) (threads w) (trace w).

(** How the processing of one dequeued job ended. *)
Inductive job_fate :=
| Uploaded                          (* uploaded, staged file removed, acknowledged *)
| Fatal (worker : nat) (e : exn).   (* [e] escaped and ended worker [worker] *)

(** Thread [i] takes its next step, if it is alive.  [get] and [is_set()]
    are two operations on two shared objects, with no lock around them, so
    they are two steps: a thread whose [get] timed out stands in
    [CaughtEmpty] until its next turn, and whatever was put into the queue or
    done to the event in between is what it then finds.  A [get] that returns
    a job and the processing of that job are one step.  The step reports the
    job taken, if any, and what became of it. *)
Definition thread_step (p : Provider) (i : nat) (w : World)
  : World * option (Job * job_fate) :=
  match threads w !! i with
  | Some Running =>
      match queue_get w with
      | (inr (Some job), w0) =>
          match process_job p job w0 with
          | (inr _, w') => (w', Some (job, Uploaded))
          | (inl e, w') =>
              (set_threads (<[i := Crashed e]> (threads w')) w', Some (job, Fatal i e))
          end
      | (inr None, w') => (set_threads (<[i := CaughtEmpty]> (threads w')) w', None)
      | (inl e, w') => (set_threads (<[i := Crashed e]> (threads w')) w', None)
      end
  | Some CaughtEmpty =>
      match check_finished w with
      | (inr Break, w') => (set_threads (<[i := Exited]> (threads w')) w', None)
      | (inr Continue, w') => (set_threads (<[i := Running]> (threads w')) w', None)
      | (inl e, w') => (set_threads (<[i := Crashed e]> (threads w')) w', None)
      end
  | Some Exited | Some (Crashed _) | None => (w, None)
  end.

(** The workers run in the order the schedule names them; the reports come
    out in the order the jobs were taken. *)
Fixpoint run_schedule (p : Provider) (sched : list nat) (w : World)
  : World * list (Job * job_fate) :=
  match sched with
  | [] => (w, [])
  | i :: sched' =>
      let '(w1, report) := thread_step p i w in
      let '(w2, reports) := run_schedule p sched' w1 in
      (w2, match report with
           | Some r => r :: reports
           | None => reports
           end)
  end.

Definition worker_is_alive (w : World) (i : nat) : bool :=
  match threads w !! i with
  | Some t => is_alive t
  | None => false
  end.

(** ** Local paths and files *)

Module OsPath.

Definition sep : ascii := "/"%char.

(** [os.path.join(a, b)] (POSIX). *)
Definition join (a b : string) : string :=
  if PyStr.starts_with_char sep b then b
  else if bool_decide (a = "") || PyStr.ends_with_char sep a then a +:+ b
  else a +:+ "/" +:+ b.

(** [s.rstrip('/')]. *)
Fixpoint rstrip_sep (s : string) : string :=
  match s with
  | EmptyString => EmptyString
  | String a s' =>
      match rstrip_sep s' with
      | EmptyString => if Ascii.eqb a sep then EmptyString else String a EmptyString
      | r => String a r
      end
  end.

(** [p[:p.rfind('/') + 1]] and [p[p.rfind('/') + 1:]]. *)
Fixpoint cut (p : string) : string * string :=
  match p with
  | EmptyString => (EmptyString, EmptyString)
  | String a p' =>
      let '(h, t) := cut p' in
      match h with
      | EmptyString =>
          if Ascii.eqb a sep then (String a EmptyString, t) else (EmptyString, String a t)
      | _ => (String a h, t)
      end
  end.

(** [os.path.split(p)]. *)
Definition split (p : string) : string * string :=
  let '(head, tail) := cut p in
  (if bool_decide (rstrip_sep head = "") then head else rstrip_sep head, tail).

Definition dirname (p : string) : string := fst (split p).
Definition basename (p : string) : string := snd (split p).

(** [p] and the chain of its [dirname]s, nearest first. *)
Fixpoint lineage (fuel : nat) (p : string) : list string :=
  match fuel with
  | O => []
  | S fuel' =>
      if bool_decide (p = "") || bool_decide (dirname p = p) then []
      else p :: lineage fuel' (dirname p)
  end.

(** [p] is [d] or lies below it. *)
Definition under (d p : string) : bool :=
  bool_decide (p = d) || String.prefix (d +:+ "/") p.

End OsPath.

(** The file system is modelled on path spellings: no normalisation of
    [//], [.] or [..], no links; a relative path is relative to a current
    directory that exists. *)
Definition is_dir (w : World) (p : string) : bool :=
  bool_decide (p ∈ fs_dirs w) || bool_decide (OsPath.dirname p = p).

Definition is_file (w : World) (p : string) : bool :=
  bool_decide (is_Some (fs_files w !! p)).

(** [os.makedirs(name, exist_ok=True)]: fails on the empty path and when
    [name] or one of its ancestors is a regular file; otherwise [name] and all
    its ancestors are directories afterwards. *)
Definition os_makedirs (name : string) : M unit :=
  fun w =>
    if bool_decide (name = "") then (inl (Exn FileNotFoundError name), w)
    else
      let chain := OsPath.lineage (S (String.length name)) name in
      if is_file w name then (inl (Exn FileExistsError name), w)
      else if existsb (is_file w) chain then (inl (Exn NotADirectoryError name), w)
      else (inr tt, set_fs (fs_files w) (list_to_set chain ∪ fs_dirs w) w).

(** [shutil.copy2(src, dst)]: contents only; a directory as [dst] receives the
    file under its own base name. *)
Definition shutil_copy2 (src dst : string) : M unit :=
  fun w =>
    let dst' := if bool_decide (dst ∈ fs_dirs w)
                then OsPath.join dst (OsPath.basename src) else dst in
    match fs_files w !! src with
    | None =>
        (inl (Exn (if bool_decide (src ∈ fs_dirs w) then IsADirectoryError
                   else FileNotFoundError) src), w)
    | Some data =>
        if bool_decide (src = dst') then (inl (Exn SameFileError src), w)
        else if bool_decide (dst' ∈ fs_dirs w) then (inl (Exn IsADirectoryError dst'), w)
        else if bool_decide (OsPath.dirname dst' = "") || is_dir w (OsPath.dirname dst')
        then (inr tt, set_fs (<[dst' := data]> (fs_files w)) (fs_dirs w) w)
        else (inl (Exn FileNotFoundError dst'), w)
    end.

(** [tempfile.TemporaryDirectory.cleanup()]: the directory and all below it go. *)
Definition tempdir_cleanup (d : string) (w : World) : World :=
  set_fs (filter (fun kv => OsPath.under d kv.1 = false) (fs_files w))
         (filter (fun p => OsPath.under d p = false) (fs_dirs w)) w.

(** [file_queue.put_nowait(job)] on the unbounded queue the logger creates. *)
Definition put_nowait (job : Job) : M unit :=
  fun w => (inr tt,
            mkWorld (fs_files w) (fs_dirs w) (container w) (oracle w)
                    (file_queue w ++ [job]) (S (unfinished_tasks w)) (is_finished w)
                    (threads w) (trace w)).

(** The errors of the local copy: what [os.makedirs] and [shutil.copy2] raise. *)
Definition is_local_io_error (e : exn) : bool := isinstance e OSError.

(** ** Object names *)

(** The keyword arguments [_format_object_name] passes to [str.format]. *)
Record FormatArgs := {
  kw_rank : Z;
  kw_local_rank : Z;
  kw_world_size : Z;
  kw_local_world_size : Z;
  kw_node_rank : Z;
  kw_artifact_name : string;
  kw_run_name : string;
}.

(** What [composer.utils.dist] reports for this process. *)
Record Dist := {
  get_global_rank : Z;
  get_local_rank : Z;
  get_world_size : Z;
  get_local_world_size : Z;
  get_node_rank : Z;
}.

Module PlainFormat.

(** [str.format] on templates whose replacement fields are plain keyword
    names, with the [{{] and [}}] escapes.  Conversions, format specs and
    attribute or index lookups are outside this fragment (such a field is
    treated as an unknown name).  It serves to run the model on concrete
    templates; the theorems below hold for any formatter. *)

Definition is_digit (c : ascii) : bool :=
  let n := Ascii.nat_of_ascii c in (48 <=? n)%nat && (n <=? 57)%nat.

Fixpoint all_digits (s : string) : bool :=
  match s with
  | EmptyString => true
  | String c s' => is_digit c && all_digits s'
  end.

Definition field (args : FormatArgs) (name : string) : exn + string :=
  if bool_decide (name = "rank") then inr (pretty.pretty (kw_rank args))
  else if bool_decide (name = "local_rank") then inr (pretty.pretty (kw_local_rank args))
  else if bool_decide (name = "world_size") then inr (pretty.pretty (kw_world_size args))
  else if bool_decide (name = "local_world_size")
  then inr (pretty.pretty (kw_local_world_size args))
  else if bool_decide (name = "node_rank") then inr (pretty.pretty (kw_node_rank args))
  else if bool_decide (name = "artifact_name") then inr (kw_artifact_name args)
  else if bool_decide (name = "run_name") then inr (kw_run_name args)
  else if all_digits name
  then inl (Exn IndexError "Replacement index out of range for positional args tuple")
  else inl (Exn KeyError name).

Definition prepend (s : string) (r : exn + string) : exn + string :=
  match r with
  | inl e => inl e
  | inr t => inr (s +:+ t)
  end.

(** [open] is the name of the replacement field being read, if any. *)
Fixpoint go (args : FormatArgs) (open : option string) (s : string) : exn + string :=
  match s with
  | EmptyString =>
      match open with
      | None => inr EmptyString
      | Some _ => inl (Exn ValueError "expected '}' before end of string")
      end
  | String c s' =>
      match open with
      | None =>
          if Ascii.eqb c "{" then
            match s' with
            | String c' s'' =>
                if Ascii.eqb c' "{" then prepend "{" (go args None s'')
                else go args (Some EmptyString) s'
            | EmptyString => go args (Some EmptyString) s'
            end
          else if Ascii.eqb c "}" then
            match s' with
            | String c' s'' =>
                if Ascii.eqb c' "}" then prepend "}" (go args None s'')
                else inl (Exn ValueError "Single '}' encountered in format string")
            | EmptyString =>
                inl (Exn ValueError "Single '}' encountered in format string")
            end
          else prepend (String c EmptyString) (go args None s')
      | Some name =>
          if Ascii.eqb c "}" then
            match field args name with
            | inl e => inl e
            | inr v => prepend v (go args None s')
            end
          else go args (Some (name +:+ String c EmptyString)) s'
      end
  end.

Definition format (template : string) (args : FormatArgs) : exn + string :=
  go args None template.

End PlainFormat.

(** ** [ObjectStoreLogger] *)

Section Logger.

(** [composer.core.state.State] and [LogLevel] are only handed to the
    filter. *)
Context {State LogLevel : Type}.

(** Python's [str.format] with keyword arguments. *)
Variable str_format : string -> FormatArgs -> exn + string.

Variable dist : Dist.

Record ObjectStoreLogger := mkLogger {
  _object_store_provider_hparams : ObjectStoreProviderHparams;
  _should_log_artifact : State -> LogLevel -> string -> bool;
  object_name_format : string;
  _run_name : option string;
  _tempdir : option string;          (* the owned temporary directory, if any *)
  _upload_staging_folder : string;
  _num_concurrent_uploads : Z;
  _finished : option unit;           (* [None] until [init]; the flag is in the world *)
  _workers : list nat;               (* indices into [threads] *)
}.

(** [_always_log]. *)
Definition _always_log (state : State) (log_level : LogLevel) (artifact_name : string)
  : bool := true.

(** [__init__], given the name [tempfile.TemporaryDirectory()] would pick.
    The queue, the event class and the thread class it chooses are the
    world's; the temporary directory itself comes into being with the first
    [os.makedirs]. *)
Definition __init__ (object_store_provider_hparams : ObjectStoreProviderHparams)
    (should_log_artifact : option (State -> LogLevel -> string -> bool))
    (object_name_format : string) (num_concurrent_uploads : Z)
    (upload_staging_folder : option string) (fresh_tempdir : string)
  : exn + ObjectStoreLogger :=
  if (num_concurrent_uploads <? 1)%Z then
    inl (Exn ValueError
             "num_concurrent_uploads must be >= 1. Blocking uploads are not supported.")
  else
    inr (mkLogger object_store_provider_hparams
                  (default _always_log should_log_artifact)
                  object_name_format
                  None
                  (match upload_staging_folder with
                   | None => Some fresh_tempdir
                   | Some _ => None
                   end)
                  (default fresh_tempdir upload_staging_folder)
                  num_concurrent_uploads
                  None
                  []).

(** [_format_object_name]. *)
Definition _format_object_name (self : ObjectStoreLogger) (artifact_name : string)
  : exn + string :=
  match _run_name self with
  | None =>
      inl (Exn RuntimeError
               "The run name is not set. It should have been set on Event.INIT.")
  | Some run_name =>
      match str_format (object_name_format self)
              {| kw_rank := get_global_rank dist;
                 kw_local_rank := get_local_rank dist;
                 kw_world_size := get_world_size dist;
                 kw_local_world_size := get_local_world_size dist;
                 kw_node_rank := get_node_rank dist;
                 kw_artifact_name := artifact_name;
                 kw_run_name := run_name |} with
      | inl e => inl e
      | inr key_name => inr (PyStr.lstrip "/" key_name)
      end
  end.

(** [get_uri_for_artifact]. *)
Definition get_uri_for_artifact (self : ObjectStoreLogger) (artifact_name : string)
  : exn + string :=
  match _format_object_name self artifact_name with
  | inl e => inl e
  | inr obj_name =>
      let provider_name := provider (_object_store_provider_hparams self) in
      let container := container_name_of (_object_store_provider_hparams self) in
      let provider_prefix := provider_name +:+ "://" +:+ container +:+ "/" in
      inr (provider_prefix +:+ PyStr.lstrip "/" obj_name)
  end.

(** [_validate_credentials]. *)
Definition _validate_credentials
    (object_store_provider_hparams : ObjectStoreProviderHparams)
    (object_name_to_test : string) : M unit :=
  upload_object_via_stream "credentials_validated_successfully" object_name_to_test.

Definition set_workers (ws : list nat) (self : ObjectStoreLogger) : ObjectStoreLogger :=
  mkLogger (_object_store_provider_hparams self) (_should_log_artifact self)
           (object_name_format self) (_run_name self) (_tempdir self)
           (_upload_staging_folder self) (_num_concurrent_uploads self)
           (_finished self) ws.

(** The [for _ in range(...)] of [init]: create a worker, start it, keep
    its handle. *)
Fixpoint start_workers (n : nat) (self : ObjectStoreLogger) (w : World)
  : ObjectStoreLogger * World :=
  match n with
  | O => (self, w)
  | S n' =>
      let worker := length (threads w) in
      let w1 := snd (emit (EvStart worker) (set_threads (threads w ++ [Running]) w)) in
      start_workers n' (set_workers (_workers self ++ [worker]) self) w1
  end.

(** [init].  The logger object is mutated in place, so it is returned also
    when an exception leaves the method. *)
Definition init (self : ObjectStoreLogger) (logger_run_name : string) (w : World)
  : (exn + unit) * ObjectStoreLogger * World :=
  match _finished self with
  | Some _ =>
      (inl (Exn RuntimeError "The ObjectStoreLogger is already initialized."), self, w)
  | None =>
      let self1 :=
        mkLogger (_object_store_provider_hparams self) (_should_log_artifact self)
                 (object_name_format self) (Some logger_run_name) (_tempdir self)
                 (_upload_staging_folder self) (_num_concurrent_uploads self)
                 (Some tt) (_workers self) in
      let w1 := set_is_finished false w in
      match _format_object_name self1 ".credentials_validated_successfully" with
      | inl e => (inl e, self1, w1)
      | inr object_name_to_test =>
          match _validate_credentials (_object_store_provider_hparams self1)
                                      object_name_to_test w1 with
          | (inl e, w2) => (inl e, self1, w2)
          | (inr _, w2) =>
              if negb (length (_workers self1) =? 0)%nat then
                (inl (Exn AssertionError
                          "workers should be empty if self._finished was None"),
                 self1, w2)
              else
                let '(self2, w3) :=
                  start_workers (Z.to_nat (_num_concurrent_uploads self1)) self1 w2 in
                (inr tt, self2, w3)
          end
      end
  end.

(** [_check_workers]. *)
Definition _check_workers (self : ObjectStoreLogger) : M unit :=
  fun w =>
    if forallb (worker_is_alive w) (_workers self) then (inr tt, w)
    else (inl (Exn RuntimeError "Upload worker crashed. Please check the logs."), w).

Definition batch_end (self : ObjectStoreLogger) : M unit := _check_workers self.
Definition epoch_end (self : ObjectStoreLogger) : M unit := _check_workers self.

(** [log_file_artifact], given the string [str(uuid.uuid4())] draws. *)
Definition log_file_artifact (self : ObjectStoreLogger) (state : State)
    (log_level : LogLevel) (artifact_name file_path : string) (overwrite : bool)
    (uuid4 : string) : M unit :=
  if negb (_should_log_artifact self state log_level artifact_name) then ret tt
  else
    let copied_path := OsPath.join (_upload_staging_folder self) uuid4 in
    let copied_path_dirname := OsPath.dirname copied_path in
    os_makedirs copied_path_dirname ;;;
    shutil_copy2 file_path copied_path ;;;
    match _format_object_name self artifact_name with
    | inl e => raise e
    | inr object_name => put_nowait (copied_path, object_name, overwrite)
    end.

(** [post_close].  While the caller waits in [join], the workers run as
    [sched] orders them; [None] means the joins have not all returned after
    that much of the run. *)
Definition post_close (self : ObjectStoreLogger) (sched : list nat) (w : World)
  : option (ObjectStoreLogger * World) :=
  let w1 := match _finished self with
            | Some _ => set_is_finished true w
            | None => w
            end in
  let w2 := fst (run_schedule
                   (initialize_object (_object_store_provider_hparams self)) sched w1) in
  if forallb (fun i => negb (worker_is_alive w2 i)) (_workers self) then
    let w3 := match _tempdir self with
              | Some d => tempdir_cleanup d w2
              | None => w2
              end in
    Some (set_workers [] self, w3)
  else None.

(** ** The logger in use *)



End Logger.

(** ** Reading traces *)

(** The events a run added to the trace of the world it started from. *)
Definition events_since (w w' : World) : list event :=
  drop (length (trace w)) (trace w').

Definition is_attempt (ev : event) : bool :=
  match ev with
  | EvUploadObject _ _ => true
  | _ => false
  end.

(** Number of [upload_object] calls in a trace. *)
Fixpoint count_attempts (t : list event) : nat :=
  match t with
  | [] => 0
  | ev :: t' => (if is_attempt ev then 1 else 0) + count_attempts t'
  end.

(** The arguments of the [time.sleep] calls in a trace, in order. *)
Fixpoint sleeps (t : list event) : list Z :=
  match t with
  | [] => []
  | EvSleep s :: t' => s :: sleeps t'
  | _ :: t' => sleeps t'
  end.

(** The waiting times of the polls in a trace, in order. *)
Fixpoint polls (t : list event) : list Q :=
  match t with
  | [] => []
  | EvPoll q :: t' => q :: polls t'
  | _ :: t' => polls t'
  end.

(** [n + 1] attempts [a], the retry after the failure at counter [k + j]
    preceded by a sleep of [2 ^ (k + j)] seconds. *)
Fixpoint retry_pattern (a : event) (k : Z) (n : nat) : list event :=
  match n with
  | O => [a]
  | S n' => a :: EvSleep (2 ^ k) :: retry_pattern a (k + 1) n'
  end.

(** The world right after an [upload_object] call that the store refused:
    the call is on the trace and its fate is consumed. *)
Definition after_failed_attempt (file_path object_name : string) (w : World) : World :=
  mkWorld (fs_files w) (fs_dirs w) (container w) (tl (oracle w)) (file_queue w)
          (unfinished_tasks w) (is_finished w) (threads w)
          (trace w ++ [EvUploadObject file_path object_name]).

(** The paths handed to [os.remove] in a trace, in order. *)
Fixpoint removals (t : list event) : list string :=
  match t with
  | [] => []
  | EvRemove path :: t' => path :: removals t'
  | _ :: t' => removals t'
  end.

(** ** The specification's reading of "transient" *)

(** In the specification's words a provider error carries the status code of
    the failed response and is transient when that code is in the designated
    set.  [raised] is the exception the driver raises for it, the only thing
    the worker gets to see. *)
Record ProviderFailure := {
  status_code : Z;
  raised : exn;
}.

Definition designated_transient_set : list Z := [408; 409; 425; 429; 500; 503; 504].

Definition spec_transient (f : ProviderFailure) : bool :=
  existsb (Z.eqb (status_code f)) designated_transient_set.

(** ** Scenarios *)

Module Scenario.

Definition s3 : Provider := {| provider_name := "s3"; container_name := "bkt" |}.

(** A 400 answer as libcloud's S3 driver words it; the driver's address
    happens to contain the digits 500. *)
Definition bad_request : ProviderFailure :=
  {| status_code := 400;
     raised := Exn LibcloudError
       "<LibcloudError in <libcloud.storage.drivers.s3.S3StorageDriver object at 0x7f3c50041eb0> 'Unexpected status code, status_code=400'>" |}.

(** A 404 answer whose text holds none of the listed codes. *)
Definition not_found : exn :=
  Exn LibcloudError "<LibcloudError in <S3StorageDriver> 'Unexpected status code, status_code=404'>".

(** One staged file, one worker, and the given fates and queue. *)
Definition staged (fates : list (option exn)) (queue : list Job) : World :=
  mkWorld {["/stage/u1" := "data"]} ∅ ∅ fates queue (length queue) false [Running] [].

Definition dist0 : Dist :=
  {| get_global_rank := 0; get_local_rank := 0; get_world_size := 1;
     get_local_world_size := 1; get_node_rank := 0 |}.

Definition hparams : ObjectStoreProviderHparams :=
  {| provider := "s3"; container_name_of := "bkt" |}.

(** The logger as [__init__] leaves it: explicit staging folder, one worker,
    state and log level reduced to [unit]. *)
Definition fresh_logger : @ObjectStoreLogger unit unit :=
  mkLogger hparams _always_log "/{run_name}/{artifact_name}" None None "/stage" 1 None [].

(** The same logger after [init] for the run "run1". *)
Definition started_logger : @ObjectStoreLogger unit unit :=
  mkLogger hparams _always_log "/{run_name}/{artifact_name}" (Some "run1") None "/stage" 1
           (Some tt) [0%nat].

(** A world with one artifact to log and nothing else. *)
Definition with_artifact : World :=
  mkWorld {["/out/a.txt" := "AAA"]} ∅ ∅ [] [] 0 false [] [].

Definition job_a : Job := ("/stage/u1", "run1/a.txt", false).
Definition job_b : Job := ("/stage/u2", "run1/b.txt", true).

(** Two staged jobs behind the one worker of [started_logger]; the object of
    the first is already in the container and may not be overwritten. *)
Definition two_jobs : World :=
  mkWorld (<["/stage/u1" := "AAA"]> {["/stage/u2" := "BBB"]}) {["/stage"]}
          {["run1/a.txt" := "old"]} [] [job_a; job_b] 2 false [Running] [].

(** What the worker raises on [job_a]. *)
Definition a_exists : exn :=
  Exn FileExistsError
      ("s3://bkt/run1/a.txt already exists," +:+ PyStr.newline +:+
       "but allow_overwrite was set to False.").

End Scenario.

(** Seconds slept in a trace. *)
Definition total_sleep (t : list event) : Z := foldr Z.add 0 (sleeps t).

(** The reports of jobs that went through, and of jobs that ended a worker. *)
Definition is_uploaded (r : Job * job_fate) : bool :=
  match snd r with
  | Uploaded => true
  | Fatal _ _ => false
  end.

Fixpoint count_uploaded (reports : list (Job * job_fate)) : nat :=
  match reports with
  | [] => 0
  | r :: reports' => (if is_uploaded r then 1 else 0) + count_uploaded reports'
  end.

(** The parts of a job. *)
Definition job_path (j : Job) : string := j.1.1.
Definition job_object (j : Job) : string := j.1.2.
Definition job_overwrite (j : Job) : bool := j.2.

(** Nothing stands in the way of the queued jobs: the store refuses no
    request, every staged file is there, a job that may not overwrite finds no
    object of its name, no two jobs share a staged file or an object name, and
    every queued job is counted as unacknowledged. *)
Definition all_clear (w : World) : Prop :=
  oracle w = [] ∧
  Forall (fun j => is_Some (fs_files w !! job_path j) ∧
                   (job_overwrite j = true ∨ container w !! job_object j = None))
         (file_queue w) ∧
  NoDup (map job_path (file_queue w)) ∧
  NoDup (map job_object (file_queue w)) ∧
  (length (file_queue w) ≤ unfinished_tasks w)%nat.

(* ===================================================================== *)
(** * Properties                                                          *)
(* ===================================================================== *)


(** ** The retry loop *)

(** The loop, one turn unrolled. *)
Lemma upload_loop_eq fp on rc w :
  upload_loop fp on rc w =
  match upload_object fp on w with
  | (inr _, w1) => (os_remove fp ;;; task_done) w1
  | (inl e, w1) =>
      if caught_by_retry e then
        if isinstance e LibcloudError && negb (is_transient_error e) then (inl e, w1)
        else if Z_lt_dec rc 4
             then upload_loop fp on (rc + 1) (snd (sleep (2 ^ (rc + 1 - 1)) w1))
             else (inl e, w1)
      else (inl e, w1)
  end.
Proof.
  rewrite upload_loop_equation_1.
  destruct (upload_object fp on w) as [[e|[]] w1]; simpl; [|reflexivity].
  destruct (caught_by_retry e); simpl; [|reflexivity].
  destruct (isinstance e LibcloudError && negb (is_transient_error e)); simpl; [reflexivity|].
  destruct (Z_lt_dec rc 4); reflexivity.
Qed.

(** What one [upload_object] call does to the world. *)
Lemma upload_object_cases fp on w :
  (fs_files w !! fp = None ∧
   upload_object fp on w =
     (inl (Exn OSError ("File " +:+ fp +:+ " does not exist")),
      snd (emit (EvUploadObject fp on) w))) ∨
  (∃ data, fs_files w !! fp = Some data ∧
     ((∃ e rest, oracle w = Some e :: rest ∧
         upload_object fp on w = (inl e, after_failed_attempt fp on w)) ∨
      ((oracle w = [] ∨ ∃ rest, oracle w = None :: rest) ∧
         upload_object fp on w =
           (inr tt,
            mkWorld (fs_files w) (fs_dirs w) (<[on := data]> (container w))
                    (tl (oracle w)) (file_queue w) (unfinished_tasks w)
                    (is_finished w) (threads w)
                    (trace w ++ [EvUploadObject fp on]))))).
Proof.
  unfold upload_object, bind, emit, request, store_object, after_failed_attempt; simpl.
  destruct (fs_files w !! fp) as [data|] eqn:Hf; [right; exists data; split; [done|] | left; done].
  destruct (oracle w) as [|[e|] rest] eqn:Ho; simpl.
  - right. split; [by left|done].
  - left. by exists e, rest.
  - right. split; [right; by exists rest|done].
Qed.
(** Every run of the loop from counter [rc]: the attempts and sleeps it leaves
    on the trace, what it leaves untouched, and how it can end. *)
Lemma upload_loop_run fp on : ∀ (n : nat) rc w,
  0 ≤ rc → (Z.to_nat (4 - rc) ≤ n)%nat →
  ∃ k tail, (k ≤ Z.to_nat (4 - rc))%nat ∧
    trace (snd (upload_loop fp on rc w)) =
      trace w ++ retry_pattern (EvUploadObject fp on) rc k ++ tail ∧
    fs_dirs (snd (upload_loop fp on rc w)) = fs_dirs w ∧
    file_queue (snd (upload_loop fp on rc w)) = file_queue w ∧
    is_finished (snd (upload_loop fp on rc w)) = is_finished w ∧
    threads (snd (upload_loop fp on rc w)) = threads w ∧
    match fst (upload_loop fp on rc w) with
    | inr _ =>
        tail = [EvRemove fp; EvTaskDone] ∧
        ∃ data, fs_files w !! fp = Some data ∧
          container (snd (upload_loop fp on rc w)) = <[on := data]> (container w) ∧
          fs_files (snd (upload_loop fp on rc w)) = delete fp (fs_files w) ∧
          S (unfinished_tasks (snd (upload_loop fp on rc w))) = unfinished_tasks w
    | inl e =>
        (tail = [] ∧
         fs_files (snd (upload_loop fp on rc w)) = fs_files w ∧
         container (snd (upload_loop fp on rc w)) = container w ∧
         unfinished_tasks (snd (upload_loop fp on rc w)) = unfinished_tasks w) ∨
        (tail = [EvRemove fp; EvTaskDone] ∧ unfinished_tasks w = 0%nat ∧
         exn_type e = ValueError ∧
         ∃ data, fs_files w !! fp = Some data ∧
           container (snd (upload_loop fp on rc w)) = <[on := data]> (container w) ∧
           fs_files (snd (upload_loop fp on rc w)) = delete fp (fs_files w))
    end.
Proof.
  assert (Hstop : ∀ rc w e w1,
    trace w1 = trace w ++ [EvUploadObject fp on] → fs_dirs w1 = fs_dirs w →
    file_queue w1 = file_queue w → is_finished w1 = is_finished w →
    threads w1 = threads w → fs_files w1 = fs_files w → container w1 = container w →
    unfinished_tasks w1 = unfinished_tasks w →
    ∃ k tail, (k ≤ Z.to_nat (4 - rc))%nat ∧
      trace (snd (@inl exn unit e, w1)) =
        trace w ++ retry_pattern (EvUploadObject fp on) rc k ++ tail ∧
      fs_dirs (snd (@inl exn unit e, w1)) = fs_dirs w ∧
      file_queue (snd (@inl exn unit e, w1)) = file_queue w ∧
      is_finished (snd (@inl exn unit e, w1)) = is_finished w ∧
      threads (snd (@inl exn unit e, w1)) = threads w ∧
      ((tail = [] ∧ fs_files (snd (@inl exn unit e, w1)) = fs_files w ∧
        container (snd (@inl exn unit e, w1)) = container w ∧
        unfinished_tasks (snd (@inl exn unit e, w1)) = unfinished_tasks w) ∨
       (tail = [EvRemove fp; EvTaskDone] ∧ unfinished_tasks w = 0%nat ∧
        exn_type e = ValueError ∧
        ∃ data, fs_files w !! fp = Some data ∧
          container (snd (@inl exn unit e, w1)) = <[on := data]> (container w) ∧
          fs_files (snd (@inl exn unit e, w1)) = delete fp (fs_files w)))).
  { intros rc w e w1 Ht Hd Hq Hfi Hth Hfs Hc Hu.
    exists 0%nat, []. simpl. rewrite ?app_nil_r.
    split; [lia|]. do 5 (split; [assumption|]). left. repeat split; assumption. }
  induction n as [|n IH]; intros rc w Hrc Hn; rewrite upload_loop_eq.
  all: destruct (upload_object_cases fp on w)
    as [[Hf ->]|(data & Hf & [(e & rest & Ho & ->)|[Ho ->]])].
  all: try (apply Hstop; reflexivity).
  all: try (unfold os_remove, task_done, bind, emit; simpl; rewrite Hf; simpl;
            exists 0%nat, [EvRemove fp; EvTaskDone];
            destruct (unfinished_tasks w) as [|u] eqn:Hu; simpl;
            rewrite <- ?app_assoc; simpl;
            (split; [lia|]); do 5 (split; [reflexivity|]);
            [ right; do 3 (split; [reflexivity|]);
              exists data; repeat split; assumption || reflexivity
            | split; [reflexivity|]; exists data; repeat split; assumption || reflexivity ]).
  - destruct (caught_by_retry e); [|apply Hstop; reflexivity].
    destruct (isinstance e LibcloudError && negb (is_transient_error e));
      [apply Hstop; reflexivity|].
    destruct (Z_lt_dec rc 4); [lia|]. apply Hstop; reflexivity.
  - destruct (caught_by_retry e); [|apply Hstop; reflexivity].
    destruct (isinstance e LibcloudError && negb (is_transient_error e));
      [apply Hstop; reflexivity|].
    destruct (Z_lt_dec rc 4) as [Hlt|Hge]; [|apply Hstop; reflexivity].
    set (w1 := snd (sleep (2 ^ (rc + 1 - 1)) (after_failed_attempt fp on w))).
    destruct (IH (rc + 1) w1 ltac:(lia) ltac:(lia))
      as (k & tail & Hk & Htr & Hd & Hq & Hfin & Hth & Hres).
    exists (S k), tail.
    split; [lia|].
    split.
    { rewrite Htr. unfold w1; simpl. replace (rc + 1 - 1) with rc by lia.
      rewrite <- !app_assoc. reflexivity. }
    do 4 (split; [assumption|]).
    destruct (fst (upload_loop fp on (rc + 1) w1)); exact Hres.
Qed.

(** ** Reading the trace of a run *)

Lemma events_since_app w w' l :
  trace w' = trace w ++ l → events_since w w' = l.
Proof.
  unfold events_since. intros ->. by rewrite drop_app_length.
Qed.

Lemma count_attempts_app t1 t2 :
  count_attempts (t1 ++ t2) = (count_attempts t1 + count_attempts t2)%nat.
Proof. induction t1 as [|ev t1 IH]; simpl; [done|]. rewrite IH. lia. Qed.

Lemma sleeps_app t1 t2 : sleeps (t1 ++ t2) = sleeps t1 ++ sleeps t2.
Proof.
  induction t1 as [|ev t1 IH]; simpl; [done|].
  destruct ev; simpl; rewrite ?IH; done.
Qed.

Lemma polls_app t1 t2 : polls (t1 ++ t2) = polls t1 ++ polls t2.
Proof.
  induction t1 as [|ev t1 IH]; simpl; [done|].
  destruct ev; simpl; rewrite ?IH; done.
Qed.

Lemma removals_app t1 t2 : removals (t1 ++ t2) = removals t1 ++ removals t2.
Proof.
  induction t1 as [|ev t1 IH]; simpl; [done|].
  destruct ev; simpl; rewrite ?IH; done.
Qed.

Lemma retry_pattern_counts fp on : ∀ n k,
  count_attempts (retry_pattern (EvUploadObject fp on) k n) = S n ∧
  sleeps (retry_pattern (EvUploadObject fp on) k n) =
    map (λ j : nat, 2 ^ (k + Z.of_nat j)) (seq 0 n) ∧
  polls (retry_pattern (EvUploadObject fp on) k n) = [] ∧
  removals (retry_pattern (EvUploadObject fp on) k n) = [].
Proof.
  induction n as [|n IH]; intros k; simpl.
  - done.
  - destruct (IH (k + 1)) as (Hc & Hs & Hp & Hr).
    rewrite Hc, Hs, Hp, Hr. repeat split; try done.
    f_equal; [f_equal; lia|].
    rewrite <- seq_shift, map_map. apply map_ext. intros j. f_equal. lia.
Qed.

(** What [get_object_size] does to the world. *)
Lemma get_object_size_frame on w :
  trace (snd (get_object_size on w)) = trace w ++ [EvGetObjectSize on] ∧
  fs_files (snd (get_object_size on w)) = fs_files w ∧
  fs_dirs (snd (get_object_size on w)) = fs_dirs w ∧
  container (snd (get_object_size on w)) = container w ∧
  file_queue (snd (get_object_size on w)) = file_queue w ∧
  unfinished_tasks (snd (get_object_size on w)) = unfinished_tasks w ∧
  is_finished (snd (get_object_size on w)) = is_finished w ∧
  threads (snd (get_object_size on w)) = threads w.
Proof.
  unfold get_object_size, bind, emit, request; simpl.
  destruct (oracle w) as [|[e|] rest]; simpl;
    try destruct (container w !! on); simpl; repeat split; reflexivity.
Qed.


(** ** [process_job], piece by piece *)

Lemma check_overwrite_frame p on ov w :
  trace (snd (check_overwrite p on ov w)) =
    trace w ++ (if ov then [] else [EvGetObjectSize on]) ∧
  fs_files (snd (check_overwrite p on ov w)) = fs_files w ∧
  fs_dirs (snd (check_overwrite p on ov w)) = fs_dirs w ∧
  container (snd (check_overwrite p on ov w)) = container w ∧
  file_queue (snd (check_overwrite p on ov w)) = file_queue w ∧
  unfinished_tasks (snd (check_overwrite p on ov w)) = unfinished_tasks w ∧
  is_finished (snd (check_overwrite p on ov w)) = is_finished w ∧
  threads (snd (check_overwrite p on ov w)) = threads w.
Proof.
  destruct ov; unfold check_overwrite; simpl.
  - rewrite app_nil_r. repeat split; reflexivity.
  - pose proof (get_object_size_frame on w) as Hq.
    destruct (get_object_size on w) as [[e|size] w1]; simpl in *;
      [destruct (isinstance e ObjectDoesNotExistError)|]; simpl; exact Hq.
Qed.

Lemma process_job_eq p fp on ov w :
  process_job p (fp, on, ov) w =
  match check_overwrite p on ov w with
  | (inr _, w1) => upload_loop fp on 0 w1
  | (inl e, w1) => (inl e, w1)
  end.
Proof. reflexivity. Qed.

Lemma upload_object_refused fp on w data e rest :
  fs_files w !! fp = Some data → oracle w = Some e :: rest →
  upload_object fp on w = (inl e, after_failed_attempt fp on w).
Proof.
  intros Hf Ho.
  unfold upload_object, bind, emit, request, store_object, after_failed_attempt; simpl.
  rewrite Hf, Ho. reflexivity.
Qed.

Lemma retryable_inv e :
  retryable e = true →
  caught_by_retry e = true ∧
  isinstance e LibcloudError && negb (is_transient_error e) = false.
Proof.
  unfold retryable. intros [Hc Ht]%andb_prop. split; [exact Hc|].
  destruct (isinstance e LibcloudError); simpl; [by rewrite Ht|done].
Qed.

(** A refused attempt with retries left: sleep, then try again. *)
Lemma upload_loop_retry fp on rc w data e rest :
  rc < 4 → fs_files w !! fp = Some data → oracle w = Some e :: rest →
  retryable e = true →
  upload_loop fp on rc w =
  upload_loop fp on (rc + 1)
              (snd (sleep (2 ^ (rc + 1 - 1)) (after_failed_attempt fp on w))).
Proof.
  intros Hrc Hf Ho [Hc Ht]%retryable_inv.
  rewrite upload_loop_eq, (upload_object_refused _ _ _ _ _ _ Hf Ho), Hc, Ht.
  destruct (Z_lt_dec rc 4); [reflexivity|lia].
Qed.

(** A refused attempt with no retry left: the error leaves the loop. *)
Lemma upload_loop_exhausted fp on rc w data e rest :
  4 ≤ rc → fs_files w !! fp = Some data → oracle w = Some e :: rest →
  upload_loop fp on rc w = (inl e, after_failed_attempt fp on w).
Proof.
  intros Hrc Hf Ho.
  rewrite upload_loop_eq, (upload_object_refused _ _ _ _ _ _ Hf Ho).
  destruct (caught_by_retry e); [|reflexivity].
  destruct (isinstance e LibcloudError && negb (is_transient_error e)); [reflexivity|].
  destruct (Z_lt_dec rc 4); [lia|reflexivity].
Qed.

(** The world in which the next attempt is made. *)
Lemma retry_world_facts fp on s w :
  fs_files (snd (sleep s (after_failed_attempt fp on w))) = fs_files w ∧
  oracle (snd (sleep s (after_failed_attempt fp on w))) = tl (oracle w) ∧
  trace (snd (sleep s (after_failed_attempt fp on w))) =
    trace w ++ [EvUploadObject fp on; EvSleep s].
Proof. simpl. rewrite <- app_assoc. repeat split; reflexivity. Qed.

(** The events one job adds: the size query if any, then the retry pattern,
    then the clean-up if the upload went through. *)
Lemma process_job_events p fp on ov w :
  ∃ pre body,
    events_since w (snd (process_job p (fp, on, ov) w)) = pre ++ body ∧
    pre = (if ov then [] else [EvGetObjectSize on]) ∧
    (body = [] ∨
     ∃ k tail, (k ≤ 4)%nat ∧
       body = retry_pattern (EvUploadObject fp on) 0 k ++ tail ∧
       (tail = [] ∨ tail = [EvRemove fp; EvTaskDone])).
Proof.
  rewrite process_job_eq.
  destruct (check_overwrite_frame p on ov w) as (Ht & _).
  destruct (check_overwrite p on ov w) as [[e|[]] w1]; simpl in Ht.
  - exists (if ov then [] else [EvGetObjectSize on]), []. simpl.
    rewrite app_nil_r. split; [by apply events_since_app|]. split; [done|by left].
  - destruct (upload_loop_run fp on 4 0 w1 ltac:(lia) ltac:(lia))
      as (k & tail & Hk & Htr & _ & _ & _ & _ & Hres).
    exists (if ov then [] else [EvGetObjectSize on]),
           (retry_pattern (EvUploadObject fp on) 0 k ++ tail).
    split; [apply events_since_app; rewrite Htr, Ht, <- app_assoc; reflexivity|].
    split; [done|]. right. exists k, tail. split; [exact Hk|]. split; [done|].
    destruct (fst (upload_loop fp on 0 w1)).
    + destruct Hres as [(-> & _)|(-> & _)]; auto.
    + destruct Hres as (-> & _); auto.
Qed.

(** Which errors the loop retries, class by class. *)
Lemma retryable_iff e :
  retryable e = true ↔
  isinstance e TimeoutError = true ∨ isinstance e ConnectionError = true ∨
  isinstance e ProtocolError = true ∨
  (isinstance e LibcloudError = true ∧ is_transient_error e = true).
Proof.
  unfold retryable, caught_by_retry, isinstance.
  destruct e as [c s]. simpl exn_type.
  destruct (is_transient_error (Exn c s)); destruct c; vm_compute; intuition discriminate.
Qed.

(** An error the loop does not retry leaves it at once, whatever the
    counter. *)
Lemma upload_loop_not_retried fp on rc w data e rest :
  fs_files w !! fp = Some data → oracle w = Some e :: rest →
  retryable e = false →
  upload_loop fp on rc w = (inl e, after_failed_attempt fp on w).
Proof.
  intros Hf Ho Hr.
  rewrite upload_loop_eq, (upload_object_refused _ _ _ _ _ _ Hf Ho).
  unfold retryable in Hr.
  destruct (caught_by_retry e); [|reflexivity]. simpl in Hr.
  destruct (isinstance e LibcloudError); simpl.
  - by rewrite Hr.
  - discriminate.
Qed.

(** C1, as stated, fails: a read that times out inside [requests] raises
    [requests.exceptions.ReadTimeout], a network timeout that is none of the
    classes in the [except] clause.  The worker does not sleep and does not
    retry: the one attempt is the whole trace, and the success that waited
    behind the failure is never asked for. *)
Lemma read_timeout_is_not_retried :
  let e := Exn ReadTimeout
               "HTTPSConnectionPool(host='s3.amazonaws.com', port=443): Read timed out. (read timeout=10)" in
  let w := Scenario.staged [Some e; None] [] in
  isinstance e TimeoutError = false ∧ isinstance e ConnectionError = false ∧
  retryable e = false ∧
  upload_loop "/stage/u1" "run/a.txt" 0 w =
    (inl e, after_failed_attempt "/stage/u1" "run/a.txt" w) ∧
  events_since w (snd (upload_loop "/stage/u1" "run/a.txt" 0 w)) =
    [EvUploadObject "/stage/u1" "run/a.txt"] ∧
  sleeps (events_since w (snd (upload_loop "/stage/u1" "run/a.txt" 0 w))) = [] ∧
  oracle (snd (upload_loop "/stage/u1" "run/a.txt" 0 w)) = [None].
Proof. repeat split; vm_compute; reflexivity. Qed.

(** C1, amended.  The errors the loop retries are exactly the instances of
    the built-in [TimeoutError], of [requests]' [ConnectionError], of
    [urllib3]'s [ProtocolError], and the [LibcloudError]s classified
    transient.  Such a failure with [retry_counter < 4] makes the worker sleep
    [2 ^ (k - 1)] seconds before retry [k] and try again; the failure at
    [retry_counter = 4], the fifth in a row, is raised with no sleep and no
    further attempt.  On the trace the attempts and the sleeps 1, 2, 4, 8
    alternate.  Any other error is raised at the first failure.  So a job's
    upload is attempted at most five times. *)
Theorem upload_retries_bounded_with_backoff :
  (∀ e, retryable e = true ↔
        isinstance e TimeoutError = true ∨ isinstance e ConnectionError = true ∨
        isinstance e ProtocolError = true ∨
        (isinstance e LibcloudError = true ∧ is_transient_error e = true)) ∧
  (∀ s, retryable (Exn TimeoutError s) = true ∧
        retryable (Exn ConnectionError s) = true ∧
        retryable (Exn ProtocolError s) = true ∧
        (retryable (Exn LibcloudError s) = true ↔
         ∃ x, x ∈ ["408"; "409"; "425"; "429"; "500"; "503"; "504"] ∧
              PyStr.contains x s = true)) ∧
  (∀ fp on rc w data e rest,
     0 ≤ rc < 4 → fs_files w !! fp = Some data → oracle w = Some e :: rest →
     retryable e = true →
     upload_loop fp on rc w =
     upload_loop fp on (rc + 1)
                 (snd (sleep (2 ^ (rc + 1 - 1)) (after_failed_attempt fp on w)))) ∧
  (∀ fp on w data e rest,
     fs_files w !! fp = Some data → oracle w = Some e :: rest →
     retryable e = true →
     upload_loop fp on 4 w = (inl e, after_failed_attempt fp on w)) ∧
  (∀ fp on rc w data e rest,
     fs_files w !! fp = Some data → oracle w = Some e :: rest →
     retryable e = false →
     upload_loop fp on rc w = (inl e, after_failed_attempt fp on w)) ∧
  (∀ fp on w data e1 e2 e3 e4 e5 rest,
     fs_files w !! fp = Some data →
     oracle w = [Some e1; Some e2; Some e3; Some e4; Some e5] ++ rest →
     retryable e1 = true → retryable e2 = true → retryable e3 = true →
     retryable e4 = true → retryable e5 = true →
     fst (upload_loop fp on 0 w) = inl e5 ∧
     events_since w (snd (upload_loop fp on 0 w)) =
       [EvUploadObject fp on; EvSleep 1; EvUploadObject fp on; EvSleep 2;
        EvUploadObject fp on; EvSleep 4; EvUploadObject fp on; EvSleep 8;
        EvUploadObject fp on] ∧
     oracle (snd (upload_loop fp on 0 w)) = rest ∧
     fs_files (snd (upload_loop fp on 0 w)) = fs_files w) ∧
  (∀ p fp on ov w,
     (count_attempts (events_since w (snd (process_job p (fp, on, ov) w))) ≤ 5)%nat ∧
     sleeps (events_since w (snd (process_job p (fp, on, ov) w)))
       `prefix_of` [1; 2; 4; 8] ∧
     (count_attempts (events_since w (snd (process_job p (fp, on, ov) w))) =
        S (length (sleeps (events_since w (snd (process_job p (fp, on, ov) w))))) ∨
      count_attempts (events_since w (snd (process_job p (fp, on, ov) w))) = 0%nat)).
Proof.
  split; [exact retryable_iff|]. split; [|split; [|split; [|split; [|split]]]].
  - intros s. do 3 (split; [reflexivity|]).
    change (retryable (Exn LibcloudError s))
      with (existsb (fun x => PyStr.contains x s) transient_codes).
    rewrite existsb_exists. unfold transient_codes. split.
    + intros (x & Hin & Hx). exists x. split; [by apply list_elem_of_In|exact Hx].
    + intros (x & Hin & Hx). exists x. split; [by apply list_elem_of_In|exact Hx].
  - intros fp on rc w data e rest [_ Hrc]. by apply upload_loop_retry.
  - intros fp on w data e rest Hf Ho _. by eapply upload_loop_exhausted.
  - intros fp on rc w data e rest. by apply upload_loop_not_retried.
  - intros fp on w data e1 e2 e3 e4 e5 rest Hf Ho H1 H2 H3 H4 H5.
    rewrite (upload_loop_retry fp on 0 w data e1 _ ltac:(lia) Hf Ho H1).
    destruct (retry_world_facts fp on (2 ^ (0 + 1 - 1)) w) as (F1 & O1 & T1).
    set (w1 := snd (sleep _ (after_failed_attempt fp on w))) in *. clearbody w1.
    rewrite Ho in O1; simpl in O1. rewrite <- F1 in Hf.
    rewrite (upload_loop_retry fp on (0 + 1) w1 data e2 _ ltac:(lia) Hf O1 H2).
    destruct (retry_world_facts fp on (2 ^ (0 + 1 + 1 - 1)) w1) as (F2 & O2 & T2).
    set (w2 := snd (sleep _ (after_failed_attempt fp on w1))) in *. clearbody w2.
    rewrite O1 in O2; simpl in O2. rewrite <- F2 in Hf.
    rewrite (upload_loop_retry fp on (0 + 1 + 1) w2 data e3 _ ltac:(lia) Hf O2 H3).
    destruct (retry_world_facts fp on (2 ^ (0 + 1 + 1 + 1 - 1)) w2) as (F3 & O3 & T3).
    set (w3 := snd (sleep _ (after_failed_attempt fp on w2))) in *. clearbody w3.
    rewrite O2 in O3; simpl in O3. rewrite <- F3 in Hf.
    rewrite (upload_loop_retry fp on (0 + 1 + 1 + 1) w3 data e4 _ ltac:(lia) Hf O3 H4).
    destruct (retry_world_facts fp on (2 ^ (0 + 1 + 1 + 1 + 1 - 1)) w3) as (F4 & O4 & T4).
    set (w4 := snd (sleep _ (after_failed_attempt fp on w3))) in *. clearbody w4.
    rewrite O3 in O4; simpl in O4. rewrite <- F4 in Hf.
    rewrite (upload_loop_exhausted fp on (0 + 1 + 1 + 1 + 1) w4 data e5 rest
               ltac:(lia) Hf O4).
    split; [reflexivity|]. split; [|split].
    + apply events_since_app. simpl. rewrite T4, T3, T2, T1.
      rewrite <- !app_assoc. reflexivity.
    + simpl. rewrite O4. reflexivity.
    + simpl. congruence.
  - intros p fp on ov w.
    destruct (process_job_events p fp on ov w) as (pre & body & -> & -> & Hbody).
    rewrite count_attempts_app, sleeps_app.
    assert (Hpre : count_attempts (if ov then [] else [EvGetObjectSize on]) = 0%nat ∧
                   sleeps (if ov then [] else [EvGetObjectSize on]) = [])
      by (destruct ov; done).
    destruct Hpre as [-> ->]. simpl.
    destruct Hbody as [->|(k & tail & Hk & -> & Htail)].
    + simpl. split; [lia|]. split; [apply prefix_nil|by right].
    + rewrite count_attempts_app, sleeps_app.
      destruct (retry_pattern_counts fp on k 0) as (-> & -> & _ & _).
      assert (Ht : count_attempts tail = 0%nat ∧ sleeps tail = [])
        by (destruct Htail as [->| ->]; done).
      destruct Ht as [-> ->]. rewrite app_nil_r, length_map, length_seq.
      split; [lia|]. split; [|left; lia].
      do 5 (destruct k as [|k]; [simpl; by eexists|]). lia.
Qed.

(** ** Classification of provider errors *)

(** C2.  The claim asks for the status code; the code, whose comment says it
    checks the error code, searches the text of the error for the digits.
    The failure below has status 400, outside the designated set, and the
    worker retries it (one sleep, a second attempt, which goes through)
    because the text of the error, in the driver's address, contains "500". *)
Lemma nontransient_status_retried :
  isinstance (raised Scenario.bad_request) LibcloudError = true ∧
  spec_transient Scenario.bad_request = false ∧
  upload_object "/stage/u1" "run/a.txt"
      (Scenario.staged [Some (raised Scenario.bad_request)] []) =
    (inl (raised Scenario.bad_request),
     after_failed_attempt "/stage/u1" "run/a.txt"
       (Scenario.staged [Some (raised Scenario.bad_request)] [])) ∧
  events_since (Scenario.staged [Some (raised Scenario.bad_request)] [])
    (snd (upload_loop "/stage/u1" "run/a.txt" 0
            (Scenario.staged [Some (raised Scenario.bad_request)] []))) =
    [EvUploadObject "/stage/u1" "run/a.txt"; EvSleep 1;
     EvUploadObject "/stage/u1" "run/a.txt"; EvRemove "/stage/u1"; EvTaskDone].
Proof. repeat split; vm_compute; reflexivity. Qed.

(** What the loop does get right: a [LibcloudError] whose text [str(e)]
    contains none of the strings "408", "409", "425", "429", "500", "503",
    "504" is raised at once, whatever the retry counter: the attempt that
    failed is the last event, no sleep follows, nothing else changes. *)
Theorem nontransient_provider_error_is_fatal fp on rc w data e rest :
  fs_files w !! fp = Some data → oracle w = Some e :: rest →
  isinstance e LibcloudError = true →
  (∀ x, x ∈ transient_codes → PyStr.contains x (exn_str e) = false) →
  upload_loop fp on rc w = (inl e, after_failed_attempt fp on w) ∧
  events_since w (snd (upload_loop fp on rc w)) = [EvUploadObject fp on] ∧
  fs_files (snd (upload_loop fp on rc w)) = fs_files w ∧
  container (snd (upload_loop fp on rc w)) = container w.
Proof.
  intros Hf Ho Hi Hx.
  assert (Ht : is_transient_error e = false).
  { unfold is_transient_error. apply not_true_is_false.
    intros (x & Hin & Hc)%existsb_exists.
    apply list_elem_of_In in Hin. rewrite (Hx x Hin) in Hc. discriminate. }
  assert (Heq : upload_loop fp on rc w = (inl e, after_failed_attempt fp on w)).
  { rewrite upload_loop_eq, (upload_object_refused _ _ _ _ _ _ Hf Ho).
    unfold caught_by_retry. rewrite Hi, Ht. reflexivity. }
  rewrite Heq. split; [reflexivity|]. split; [|split; reflexivity].
  by apply events_since_app.
Qed.

(** The theorem on a 404 that arrives at [retry_counter = 2] with a success
    waiting behind it: raised all the same. *)
Lemma nontransient_provider_error_is_fatal_witness :
  upload_loop "/stage/u1" "run/a.txt" 2
      (Scenario.staged [Some Scenario.not_found; None] []) =
    (inl Scenario.not_found,
     after_failed_attempt "/stage/u1" "run/a.txt"
       (Scenario.staged [Some Scenario.not_found; None] [])) ∧
  events_since (Scenario.staged [Some Scenario.not_found; None] [])
    (snd (upload_loop "/stage/u1" "run/a.txt" 2
            (Scenario.staged [Some Scenario.not_found; None] []))) =
    [EvUploadObject "/stage/u1" "run/a.txt"] ∧
  fs_files (snd (upload_loop "/stage/u1" "run/a.txt" 2
                   (Scenario.staged [Some Scenario.not_found; None] []))) =
    fs_files (Scenario.staged [Some Scenario.not_found; None] []) ∧
  container (snd (upload_loop "/stage/u1" "run/a.txt" 2
                    (Scenario.staged [Some Scenario.not_found; None] []))) =
    container (Scenario.staged [Some Scenario.not_found; None] []).
Proof.
  apply (nontransient_provider_error_is_fatal "/stage/u1" "run/a.txt" 2
           (Scenario.staged [Some Scenario.not_found; None] [])
           "data" Scenario.not_found [None]).
  - vm_compute; reflexivity.
  - reflexivity.
  - reflexivity.
  - intros x Hx. unfold transient_codes in Hx.
    repeat (apply elem_of_cons in Hx as [->|Hx]; [vm_compute; reflexivity|]).
    by apply elem_of_nil in Hx.
Defined.

(** ** The existence check *)

Lemma string_app_cons (c : ascii) (a b : string) :
  String c a +:+ b = String c (a +:+ b).
Proof. reflexivity. Qed.

Lemma string_length_app (a b : string) :
  String.length (a +:+ b) = (String.length a + String.length b)%nat.
Proof.
  induction a as [|c a IH]; [done|].
  rewrite string_app_cons. simpl. by rewrite IH.
Qed.

Lemma string_app_nil_r (a : string) : a +:+ "" = a.
Proof.
  induction a as [|c a IH]; [done|]. rewrite string_app_cons. by rewrite IH.
Qed.

Lemma string_app_assoc (a b c : string) : (a +:+ b) +:+ c = a +:+ (b +:+ c).
Proof.
  induction a as [|x a IH]; [done|]. rewrite !string_app_cons. by rewrite IH.
Qed.

(** *** The text of [FileExistsError] *)


Lemma split_lines_cons s : ∃ l ls, Textwrap.split_lines s = l :: ls.
Proof.
  destruct s as [|c s]; simpl; [eauto|].
  destruct (Ascii.eqb c "010"); [eauto|].
  destruct (Textwrap.split_lines s); eauto.
Qed.










(** ** Clean-up *)

Lemma queue_get_cons job rest w :
  file_queue w = job :: rest →
  ∃ w0, queue_get w = (inr (Some job), w0) ∧
    trace w0 = trace w ++ [EvPoll 0] ∧ file_queue w0 = rest ∧
    fs_files w0 = fs_files w ∧ fs_dirs w0 = fs_dirs w ∧ container w0 = container w ∧
    oracle w0 = oracle w ∧ unfinished_tasks w0 = unfinished_tasks w ∧
    is_finished w0 = is_finished w ∧ threads w0 = threads w.
Proof.
  intros Hq. unfold queue_get, queue_get_blocking. rewrite Hq. unfold bind, emit, ret; simpl.
  eexists. split; [reflexivity|]. simpl. repeat split; reflexivity.
Qed.

Lemma queue_get_nil w :
  file_queue w = [] →
  queue_get w = (inr None, snd (emit (EvPoll poll_timeout) w)).
Proof. intros Hq. unfold queue_get, queue_get_blocking. rewrite Hq. reflexivity. Qed.

Lemma worker_iteration_cons p job rest w :
  file_queue w = job :: rest →
  ∃ w0, queue_get w = (inr (Some job), w0) ∧
    worker_iteration p w =
      match process_job p job w0 with
      | (inr _, w1) => (inr Continue, w1)
      | (inl e, w1) => (inl e, w1)
      end.
Proof.
  intros Hq. destruct (queue_get_cons job rest w Hq) as (w0 & Hg & _).
  exists w0. split; [exact Hg|].
  unfold worker_iteration, check_finished, bind. rewrite Hg. unfold ret. 
  destruct (process_job p job w0) as [[e|[]] w1]; reflexivity.
Qed.

(** What the processing of one job does to the world, by its outcome. *)
Lemma process_job_run p fp on ov w :
  ∃ new, trace (snd (process_job p (fp, on, ov) w)) = trace w ++ new ∧
    polls new = [] ∧
    fs_dirs (snd (process_job p (fp, on, ov) w)) = fs_dirs w ∧
    file_queue (snd (process_job p (fp, on, ov) w)) = file_queue w ∧
    is_finished (snd (process_job p (fp, on, ov) w)) = is_finished w ∧
    threads (snd (process_job p (fp, on, ov) w)) = threads w ∧
    match fst (process_job p (fp, on, ov) w) with
    | inr _ =>
        (∃ pre, new = pre ++ [EvRemove fp; EvTaskDone] ∧ removals pre = []) ∧
        ∃ data, fs_files w !! fp = Some data ∧
          container (snd (process_job p (fp, on, ov) w)) = <[on := data]> (container w) ∧
          fs_files (snd (process_job p (fp, on, ov) w)) = delete fp (fs_files w) ∧
          S (unfinished_tasks (snd (process_job p (fp, on, ov) w))) = unfinished_tasks w
    | inl e =>
        (removals new = [] ∧
         fs_files (snd (process_job p (fp, on, ov) w)) = fs_files w ∧
         container (snd (process_job p (fp, on, ov) w)) = container w ∧
         unfinished_tasks (snd (process_job p (fp, on, ov) w)) = unfinished_tasks w) ∨
        (unfinished_tasks w = 0%nat ∧ exn_type e = ValueError ∧
         ∃ data, fs_files w !! fp = Some data ∧
           container (snd (process_job p (fp, on, ov) w)) = <[on := data]> (container w) ∧
           fs_files (snd (process_job p (fp, on, ov) w)) = delete fp (fs_files w))
    end.
Proof.
  rewrite process_job_eq.
  destruct (check_overwrite_frame p on ov w)
    as (Ht & Hf & Hd & Hc & Hq & Hu & Hfi & Hth).
  assert (Hpre : polls (if ov then [] else [EvGetObjectSize on]) = [] ∧
                 removals (if ov then [] else [EvGetObjectSize on]) = [])
    by (destruct ov; done).
  destruct Hpre as [Hpp Hpr].
  destruct (check_overwrite p on ov w) as [[e|[]] w1]; simpl in *.
  - eexists. split; [exact Ht|]. repeat split; try assumption. left. done.
  - destruct (upload_loop_run fp on 4 0 w1 ltac:(lia) ltac:(lia))
      as (k & tail & Hk & Htr & Hd' & Hq' & Hfi' & Hth' & Hres).
    destruct (retry_pattern_counts fp on k 0) as (_ & _ & Hrp & Hrr).
    exists ((if ov then [] else [EvGetObjectSize on]) ++
            retry_pattern (EvUploadObject fp on) 0 k ++ tail).
    split; [rewrite Htr, Ht, <- app_assoc; reflexivity|].
    rewrite Hd', Hq', Hfi', Hth'.
    destruct (fst (upload_loop fp on 0 w1)) as [e|[]].
    + destruct Hres as [(-> & Hf' & Hc' & Hu')|(-> & Hu0 & He & data & Hfd & Hc' & Hf')].
      * rewrite !polls_app, !removals_app, Hpp, Hpr, Hrp, Hrr, app_nil_r.
        repeat split; try assumption. left. repeat split; congruence.
      * rewrite !polls_app, Hpp, Hrp. repeat split; try assumption.
        right. split; [congruence|]. split; [exact He|].
        exists data. repeat split; congruence.
    + destruct Hres as (-> & data & Hfd & Hc' & Hf' & Hu').
      rewrite !polls_app, Hpp, Hrp. repeat split; try assumption.
      * exists ((if ov then [] else [EvGetObjectSize on]) ++
                retry_pattern (EvUploadObject fp on) 0 k).
        rewrite <- app_assoc. split; [reflexivity|].
        rewrite removals_app, Hpr, Hrr. reflexivity.
      * exists data. repeat split; congruence.
Qed.

(** The queue never holds more entries than there are unacknowledged tasks:
    [put_nowait] raises both numbers, a pass of the loop body takes one entry
    and acknowledges at most one task. *)
Lemma queue_counter_invariant p job w :
  (length (file_queue w) ≤ unfinished_tasks w)%nat →
  (length (file_queue (snd (put_nowait job w))) ≤
     unfinished_tasks (snd (put_nowait job w)))%nat ∧
  (length (file_queue (snd (worker_iteration p w))) ≤
     unfinished_tasks (snd (worker_iteration p w)))%nat.
Proof.
  intros Hinv. split.
  - simpl. rewrite length_app. simpl. lia.
  - destruct (file_queue w) as [|[[fp on] ov] rest] eqn:Hq.
    + unfold worker_iteration, check_finished, bind. rewrite (queue_get_nil w Hq). simpl.
      destruct (is_finished w); simpl; rewrite Hq; simpl; lia.
    + destruct (queue_get_cons _ _ _ Hq)
        as (w0 & Hg & _ & Hq0 & _ & _ & _ & _ & Hu0 & _).
      destruct (worker_iteration_cons p _ _ _ Hq) as (w0' & Hg' & ->).
      rewrite Hg in Hg'. injection Hg' as <-.
      destruct (process_job_run p fp on ov w0) as (new & _ & _ & _ & Hqq & _ & _ & Hres).
      simpl in Hinv.
      destruct (process_job p (fp, on, ov) w0) as [[e|[]] w1]; simpl in *.
      * destruct Hres as [(_ & _ & _ & Hu)|(Hu & _)]; [|lia].
        rewrite Hqq, Hq0, Hu, Hu0. lia.
      * destruct Hres as (_ & data & _ & _ & _ & Hu).
        rewrite Hqq, Hq0. lia.
Qed.

(** C4. A job was taken from the queue (which, as [put] and [task_done]
    keep it, has no more entries than unacknowledged tasks).  If the pass
    through the loop body returns, the upload went through: the object holds
    the staged contents, the staged file is gone, [os.remove] and
    [task_done] are the last two events and the worker is back at polling.
    If an exception leaves the body, the local files are exactly what they
    were, no [os.remove] was called and the job is not acknowledged. *)
Theorem staged_file_removed_only_on_success p fp on ov rest w :
  file_queue w = (fp, on, ov) :: rest →
  (length (file_queue w) ≤ unfinished_tasks w)%nat →
  file_queue (snd (worker_iteration p w)) = rest ∧
  match fst (worker_iteration p w) with
  | inr ctl =>
      ctl = Continue ∧
      (∃ data, fs_files w !! fp = Some data ∧
               container (snd (worker_iteration p w)) !! on = Some data) ∧
      fs_files (snd (worker_iteration p w)) = delete fp (fs_files w) ∧
      fs_files (snd (worker_iteration p w)) !! fp = None ∧
      S (unfinished_tasks (snd (worker_iteration p w))) = unfinished_tasks w ∧
      ∃ pre, events_since w (snd (worker_iteration p w)) =
               pre ++ [EvRemove fp; EvTaskDone] ∧ removals pre = []
  | inl e =>
      fs_files (snd (worker_iteration p w)) = fs_files w ∧
      container (snd (worker_iteration p w)) = container w ∧
      unfinished_tasks (snd (worker_iteration p w)) = unfinished_tasks w ∧
      removals (events_since w (snd (worker_iteration p w))) = []
  end.
Proof.
  intros Hq Hlen.
  destruct (queue_get_cons _ _ _ Hq)
    as (w0 & Hg & Ht0 & Hq0 & Hf0 & Hd0 & Hc0 & Ho0 & Hu0 & Hfi0 & Hth0).
  destruct (worker_iteration_cons p _ _ _ Hq) as (w0' & Hg' & ->).
  rewrite Hg in Hg'. injection Hg' as <-.
  destruct (process_job_run p fp on ov w0)
    as (new & Htr & Hpl & Hd & Hqq & Hfi & Hth & Hres).
  rewrite Hq in Hlen; simpl in Hlen.
  destruct (process_job p (fp, on, ov) w0) as [[e|[]] w1]; simpl in *.
  - split; [congruence|].
    destruct Hres as [(Hr & Hf & Hc & Hu)|(Hu & _)]; [|lia].
    repeat split; try congruence.
    rewrite (events_since_app w w1 ([EvPoll 0] ++ new))
      by (rewrite Htr, Ht0, <- app_assoc; reflexivity).
    rewrite removals_app, Hr. reflexivity.
  - split; [congruence|].
    destruct Hres as ((pre & -> & Hpre) & data & Hfd & Hc & Hf & Hu).
    split; [reflexivity|]. split; [|split; [|split; [|split]]].
    + exists data. split; [congruence|]. rewrite Hc. apply lookup_insert_eq.
    + congruence.
    + rewrite Hf. apply lookup_delete_eq.
    + congruence.
    + exists ([EvPoll 0] ++ pre). split.
      * apply events_since_app. rewrite Htr, Ht0, <- !app_assoc. reflexivity.
      * rewrite removals_app, Hpre. reflexivity.
Qed.

(** The theorem on a job whose first attempt times out and whose second goes
    through. *)
Lemma staged_file_removed_only_on_success_witness :
  let w := Scenario.staged [Some (Exn TimeoutError "timed out"); None]
                           [("/stage/u1", "run/a.txt", true)] in
  fst (worker_iteration Scenario.s3 w) = inr Continue ∧
  container (snd (worker_iteration Scenario.s3 w)) !! "run/a.txt" = Some "data" ∧
  fs_files (snd (worker_iteration Scenario.s3 w)) !! "/stage/u1" = None ∧
  unfinished_tasks (snd (worker_iteration Scenario.s3 w)) = 0%nat.
Proof.
  intros w.
  pose proof (staged_file_removed_only_on_success Scenario.s3
                "/stage/u1" "run/a.txt" true [] w eq_refl ltac:(vm_compute; lia))
    as [_ H].
  assert (Hr : fst (worker_iteration Scenario.s3 w) = inr Continue)
    by (vm_compute; reflexivity).
  rewrite Hr in H.
  destruct H as (_ & (data & Hd & Hc) & _ & Hgone & Hu & _).
  assert (data = "data") as -> by (vm_compute in Hd; congruence).
  split; [exact Hr|]. split; [exact Hc|]. split; [exact Hgone|].
  assert (Hw : unfinished_tasks w = 1%nat) by reflexivity.
  rewrite Hw in Hu. congruence.
Defined.

(** ** Polling and leaving the loop *)

Lemma worker_iteration_frame p w :
  threads (snd (worker_iteration p w)) = threads w ∧
  is_finished (snd (worker_iteration p w)) = is_finished w ∧
  file_queue (snd (worker_iteration p w)) = tl (file_queue w) ∧
  ∃ q new, trace (snd (worker_iteration p w)) = trace w ++ EvPoll q :: new ∧
           polls new = [] ∧
           q = (if bool_decide (file_queue w = []) then poll_timeout else 0%Q).
Proof.
  destruct (file_queue w) as [|[[fp on] ov] rest] eqn:Hq.
  - unfold worker_iteration, check_finished, bind. rewrite (queue_get_nil w Hq). simpl.
    destruct (is_finished w); simpl; rewrite Hq;
      (do 3 (split; [reflexivity|])); exists poll_timeout, []; done.
  - destruct (queue_get_cons _ _ _ Hq)
      as (w0 & Hg & Ht0 & Hq0 & _ & _ & _ & _ & _ & Hfi0 & Hth0).
    destruct (worker_iteration_cons p _ _ _ Hq) as (w0' & Hg' & ->).
    rewrite Hg in Hg'. injection Hg' as <-.
    destruct (process_job_run p fp on ov w0)
      as (new & Htr & Hpl & _ & Hqq & Hfi & Hth & _).
    destruct (process_job p (fp, on, ov) w0) as [[e|[]] w1]; simpl in *.
    all: split; [congruence|]; split; [congruence|]; split; [congruence|].
    all: exists 0%Q, new; split; [rewrite Htr, Ht0, <- app_assoc; reflexivity|done].
Qed.

Lemma worker_iteration_break p w :
  fst (worker_iteration p w) = inr Break ↔ file_queue w = [] ∧ is_finished w = true.
Proof.
  destruct (file_queue w) as [|job rest] eqn:Hq.
  - unfold worker_iteration, check_finished, bind. rewrite (queue_get_nil w Hq). simpl.
    destruct (is_finished w); simpl; split; try done; intros [_ ?]; done.
  - destruct (worker_iteration_cons p _ _ _ Hq) as (w0 & _ & ->).
    destruct (process_job p job w0) as [[e|[]] w1]; simpl; split; try done;
      intros [? _]; done.
Qed.


(** ** Strings *)

Lemma lstrip_no_leading chars s c :
  PyStr.mem c chars = true → PyStr.starts_with_char c (PyStr.lstrip chars s) = false.
Proof.
  intros Hc. induction s as [|a s IH]; simpl; [done|].
  destruct (PyStr.mem a chars) eqn:Ha; [exact IH|]. simpl.
  destruct (Ascii.eqb_spec a c) as [->|]; congruence.
Qed.

Lemma lstrip_idempotent chars s :
  PyStr.lstrip chars (PyStr.lstrip chars s) = PyStr.lstrip chars s.
Proof.
  induction s as [|a s IH]; simpl; [done|].
  destruct (PyStr.mem a chars) eqn:Ha; [exact IH|]. simpl. by rewrite Ha.
Qed.

(** ** Paths and local files *)

Lemma cut_app p : (OsPath.cut p).1 +:+ (OsPath.cut p).2 = p.
Proof.
  induction p as [|a p IH]; simpl; [done|].
  destruct (OsPath.cut p) as [h t]; simpl in *.
  destruct h as [|b h]; simpl in *.
  - change ("" +:+ t) with t in IH. subst p.
    destruct (Ascii.eqb a OsPath.sep); reflexivity.
  - rewrite <- IH. reflexivity.
Qed.

Lemma rstrip_sep_prefix s : ∃ r, OsPath.rstrip_sep s +:+ r = s.
Proof.
  induction s as [|a s [r IH]]; simpl; [by exists ""|].
  destruct (OsPath.rstrip_sep s) as [|b t] eqn:Hs; simpl in *.
  - destruct (Ascii.eqb a OsPath.sep); simpl.
    + by exists (String a s).
    + exists r. rewrite string_app_cons. by rewrite IH.
  - exists r. rewrite string_app_cons. by rewrite IH.
Qed.

(** [dirname p] is a prefix of [p]. *)
Lemma dirname_prefix p : ∃ r, OsPath.dirname p +:+ r = p.
Proof.
  unfold OsPath.dirname, OsPath.split.
  pose proof (cut_app p) as Hc.
  destruct (OsPath.cut p) as [h t]; simpl in *.
  case_bool_decide.
  - by exists t.
  - destruct (rstrip_sep_prefix h) as [r Hr].
    exists (r +:+ t). by rewrite <- string_app_assoc, Hr.
Qed.

Lemma dirname_length p :
  (String.length (OsPath.dirname p) ≤ String.length p)%nat.
Proof.
  destruct (dirname_prefix p) as [r Hr].
  rewrite <- Hr at 2. rewrite string_length_app. lia.
Qed.

Lemma lineage_length : ∀ fuel d x,
  x ∈ OsPath.lineage fuel d → (String.length x ≤ String.length d)%nat.
Proof.
  induction fuel as [|fuel IH]; intros d x; simpl; [by intros ?%elem_of_nil|].
  destruct (bool_decide (d = "") || bool_decide (OsPath.dirname d = d));
    [by intros ?%elem_of_nil|].
  intros [->|Hx]%elem_of_cons; [lia|].
  apply IH in Hx. pose proof (dirname_length d). lia.
Qed.

(** A path is never among the ancestors that [makedirs] creates for its
    own [dirname]. *)
Lemma not_in_own_lineage fuel p : p ∉ OsPath.lineage fuel (OsPath.dirname p).
Proof.
  intros Hin.
  assert (Heq : OsPath.dirname p = p).
  { pose proof (lineage_length _ _ _ Hin) as Hlen.
    destruct (dirname_prefix p) as [r Hr].
    assert (Hl : String.length (OsPath.dirname p +:+ r) = String.length p)
      by (by rewrite Hr).
    rewrite string_length_app in Hl.
    destruct r as [|c r]; [by rewrite string_app_nil_r in Hr|simpl in Hl; lia]. }
  destruct fuel as [|fuel]; simpl in Hin; [by apply elem_of_nil in Hin|].
  rewrite Heq in Hin. rewrite (bool_decide_eq_true_2 (OsPath.dirname p = p) Heq) in Hin.
  rewrite orb_true_r in Hin. by apply elem_of_nil in Hin.
Qed.

Lemma lineage_head fuel d :
  d ≠ "" → OsPath.dirname d ≠ d → d ∈ OsPath.lineage (S fuel) d.
Proof.
  intros H1 H2. simpl.
  rewrite (bool_decide_eq_false_2 _ H1), (bool_decide_eq_false_2 _ H2). simpl.
  apply elem_of_cons. by left.
Qed.

(** What [os.makedirs] does when it returns, and what it raises. *)
Lemma os_makedirs_cases name w :
  (∃ e, os_makedirs name w = (inl e, w) ∧ is_local_io_error e = true) ∨
  (name ≠ "" ∧
   os_makedirs name w =
     (inr tt,
      set_fs (fs_files w)
             (list_to_set (OsPath.lineage (S (String.length name)) name) ∪ fs_dirs w) w)).
Proof.
  unfold os_makedirs. case_bool_decide as Hn; [left; eexists; done|].
  destruct (is_file w name); [left; eexists; done|].
  destruct (existsb _ _); [left; eexists; done|].
  right. done.
Qed.

(** What [shutil.copy2] does when it returns, and what it raises. *)
Lemma shutil_copy2_cases src dst w :
  (∃ e, shutil_copy2 src dst w = (inl e, w) ∧ is_local_io_error e = true) ∨
  (∃ data, fs_files w !! src = Some data ∧
     shutil_copy2 src dst w =
       (inr tt,
        set_fs (<[(if bool_decide (dst ∈ fs_dirs w)
                   then OsPath.join dst (OsPath.basename src) else dst) := data]>
                  (fs_files w)) (fs_dirs w) w)).
Proof.
  unfold shutil_copy2.
  destruct (fs_files w !! src) as [data|];
    [|left; eexists; split; [reflexivity|]; by case_bool_decide].
  set (dst' := if bool_decide (dst ∈ fs_dirs w) then _ else dst).
  destruct (bool_decide (src = dst')); [left; eexists; done|].
  destruct (bool_decide (dst' ∈ fs_dirs w)); [left; eexists; done|].
  destruct (_ || _); [|left; eexists; done].
  right. exists data. done.
Qed.

(** ** Workers under a schedule *)

(** Split a conjunction without introducing anything. *)
Ltac splits := repeat match goal with |- _ ∧ _ => split end.

(** One pass of the loop body: how it ends, and what it does to the files and
    the container. *)
Lemma worker_iteration_outcome p w :
  (∀ x, fs_files w !! x = None → fs_files (snd (worker_iteration p w)) !! x = None) ∧
  (∀ n, is_Some (container w !! n) →
        is_Some (container (snd (worker_iteration p w)) !! n)) ∧
  match file_queue w with
  | [] =>
      fst (worker_iteration p w) = inr (if is_finished w then Break else Continue)
  | (fp, on, ov) :: _ =>
      match fst (worker_iteration p w) with
      | inr ctl =>
          ctl = Continue ∧
          fs_files (snd (worker_iteration p w)) !! fp = None ∧
          is_Some (container (snd (worker_iteration p w)) !! on)
      | inl _ => True
      end
  end.
Proof.
  destruct (file_queue w) as [|[[fp on] ov] rest] eqn:Hq.
  - unfold worker_iteration, check_finished, bind. rewrite (queue_get_nil w Hq). simpl.
    destruct (is_finished w); simpl; repeat split; auto.
  - destruct (queue_get_cons _ _ _ Hq)
      as (w0 & Hg & _ & _ & Hf0 & _ & Hc0 & _).
    destruct (worker_iteration_cons p _ _ _ Hq) as (w0' & Hg' & ->).
    rewrite Hg in Hg'. injection Hg' as <-.
    destruct (process_job_run p fp on ov w0) as (new & _ & _ & _ & _ & _ & _ & Hres).
    destruct (process_job p (fp, on, ov) w0) as [[e|[]] w1]; simpl in *.
    + assert (Hmono :
        (∀ x, fs_files w0 !! x = None → delete fp (fs_files w0) !! x = None) ∧
        (∀ n data, is_Some (container w0 !! n) →
                   is_Some (<[on := data]> (container w0) !! n))).
      { split.
        - intros x Hx. destruct (decide (fp = x)) as [->|Hne];
            [apply lookup_delete_eq|by rewrite lookup_delete_ne].
        - intros n data Hn. destruct (decide (on = n)) as [->|Hne];
            [rewrite lookup_insert_eq; eauto|by rewrite lookup_insert_ne]. }
      destruct Hmono as [Hm1 Hm2].
      destruct Hres as [(_ & Hf & Hc & _)|(_ & _ & data & Hfd & Hc & Hf)];
        rewrite Hf, Hc, <- Hf0, <- Hc0; split; [|split| |split]; auto.
    + destruct Hres as (_ & data & Hfd & Hc & Hf & _).
      rewrite Hf, Hc, <- Hf0, <- Hc0.
      split; [|split; [|split; [|split]]].
      * intros x Hx. destruct (decide (fp = x)) as [->|Hne];
          [apply lookup_delete_eq|by rewrite lookup_delete_ne].
      * intros n Hn. destruct (decide (on = n)) as [->|Hne];
          [rewrite lookup_insert_eq; eauto|by rewrite lookup_insert_ne].
      * reflexivity.
      * apply lookup_delete_eq.
      * rewrite lookup_insert_eq; eauto.
Qed.

(** A step of a thread, case by case; the step that takes a job is the
    pass [worker_iteration] describes. *)
Lemma thread_step_eq p i w :
  thread_step p i w =
  match threads w !! i with
  | Some Running =>
      match file_queue w with
      | [] =>
          (set_threads (<[i := CaughtEmpty]> (threads w))
                       (snd (emit (EvPoll poll_timeout) w)), None)
      | job :: _ =>
          match worker_iteration p w with
          | (inr _, w') => (w', Some (job, Uploaded))
          | (inl e, w') =>
              (set_threads (<[i := Crashed e]> (threads w')) w', Some (job, Fatal i e))
          end
      end
  | Some CaughtEmpty =>
      (set_threads (<[i := if is_finished w then Exited else Running]> (threads w)) w,
       None)
  | Some Exited | Some (Crashed _) | None => (w, None)
  end.
Proof.
  unfold thread_step.
  destruct (threads w !! i) as [[| | |e0]|]; try reflexivity.
  - destruct (file_queue w) as [|job rest] eqn:Hq.
    + rewrite (queue_get_nil w Hq). reflexivity.
    + destruct (queue_get_cons _ _ _ Hq) as (w0 & Hg & _).
      destruct (worker_iteration_cons p _ _ _ Hq) as (w0' & Hg' & ->).
      rewrite Hg in Hg'. injection Hg' as <-. rewrite Hg.
      destruct (process_job p job w0) as [[e|[]] w1]; reflexivity.
  - unfold check_finished. destruct (is_finished w); reflexivity.
Qed.

Lemma thread_step_spec p i w :
  file_queue w =
    match snd (thread_step p i w) with
    | Some (job, _) => [job]
    | None => []
    end ++ file_queue (fst (thread_step p i w)) ∧
  is_finished (fst (thread_step p i w)) = is_finished w ∧
  length (threads (fst (thread_step p i w))) = length (threads w) ∧
  (∀ j, j ≠ i → threads (fst (thread_step p i w)) !! j = threads w !! j) ∧
  (worker_is_alive w i = false → thread_step p i w = (w, None)) ∧
  (threads w !! i = Some Running →
     match file_queue w with
     | [] =>
         snd (thread_step p i w) = None ∧
         threads (fst (thread_step p i w)) !! i = Some CaughtEmpty
     | job :: _ =>
         (snd (thread_step p i w) = Some (job, Uploaded) ∧
          threads (fst (thread_step p i w)) !! i = Some Running) ∨
         (∃ e, snd (thread_step p i w) = Some (job, Fatal i e) ∧
               threads (fst (thread_step p i w)) !! i = Some (Crashed e))
     end) ∧
  (∀ x, fs_files w !! x = None → fs_files (fst (thread_step p i w)) !! x = None) ∧
  (∀ n, is_Some (container w !! n) →
        is_Some (container (fst (thread_step p i w)) !! n)) ∧
  (∀ fp on ov, snd (thread_step p i w) = Some ((fp, on, ov), Uploaded) →
     fs_files (fst (thread_step p i w)) !! fp = None ∧
     is_Some (container (fst (thread_step p i w)) !! on)) ∧
  (threads w !! i = Some CaughtEmpty →
     snd (thread_step p i w) = None ∧
     file_queue (fst (thread_step p i w)) = file_queue w ∧
     threads (fst (thread_step p i w)) !! i =
       Some (if is_finished w then Exited else Running)).
Proof.
  rewrite thread_step_eq. unfold worker_is_alive.
  destruct (threads w !! i) as [[| | |e0]|] eqn:Hi;
    try (simpl; splits; auto; intros; congruence).
  - (* at the top of the loop *)
    assert (Hlt : (i < length (threads w))%nat) by (eapply lookup_lt_Some; eauto).
    destruct (worker_iteration_frame p w) as (Hth & Hfi & Hq & _).
    destruct (worker_iteration_outcome p w) as (Hfs & Hco & Hout).
    destruct (file_queue w) as [|[[fp on] ov] rest] eqn:Hq0.
    + simpl. rewrite Hq0, length_insert. splits; auto; try done.
      * intros j Hj. by rewrite list_lookup_insert_ne.
      * intros _. split; [reflexivity|]. by rewrite list_lookup_insert_eq.
    + destruct (worker_iteration p w) as [[e|ctl] w1] eqn:Hw; simpl in *.
      * rewrite Hth, length_insert, Hq. splits; auto; try done.
        -- intros j Hj. by rewrite list_lookup_insert_ne.
        -- intros _. right. exists e. split; [reflexivity|].
           by rewrite list_lookup_insert_eq.
      * rewrite Hth, Hq. destruct Hout as (_ & Hgone & Hobj).
        splits; auto; try done.
        intros ? ? ? [= <- <- <-]. split; [exact Hgone|exact Hobj].
  - (* between the timed-out [get] and [is_set()] *)
    assert (Hlt : (i < length (threads w))%nat) by (eapply lookup_lt_Some; eauto).
    simpl. rewrite length_insert. splits; auto; try done.
    + intros j Hj. by rewrite list_lookup_insert_ne.
    + intros _. splits; auto. by rewrite list_lookup_insert_eq.
Qed.

Lemma run_schedule_cons p i sched w :
  run_schedule p (i :: sched) w =
  (fst (run_schedule p sched (fst (thread_step p i w))),
   match snd (thread_step p i w) with
   | Some r => r :: snd (run_schedule p sched (fst (thread_step p i w)))
   | None => snd (run_schedule p sched (fst (thread_step p i w)))
   end).
Proof.
  simpl. destruct (thread_step p i w) as [w1 rep]. simpl.
  destruct (run_schedule p sched w1) as [w2 reps]. reflexivity.
Qed.

(** A thread that is not alive stays as it is. *)
Lemma thread_step_stable p i w j t :
  is_alive t = false → threads w !! j = Some t →
  threads (fst (thread_step p i w)) !! j = Some t.
Proof.
  intros Ht Hj.
  destruct (thread_step_spec p i w) as (_ & _ & _ & Hoth & Hidle & _).
  destruct (decide (j = i)) as [->|Hne]; [|by rewrite Hoth].
  rewrite Hidle; [exact Hj|]. unfold worker_is_alive. by rewrite Hj.
Qed.

(** ** Leaving the loop *)

(** The loop after [length es] refused attempts that it retries, when the
    store then accepts. *)
Lemma upload_loop_recovers fp on data : ∀ (es : list exn) rc w rest,
  0 ≤ rc → rc + Z.of_nat (length es) ≤ 4 →
  fs_files w !! fp = Some data →
  oracle w = map Some es ++ rest →
  (rest = [] ∨ ∃ rest', rest = None :: rest') →
  Forall (λ e, retryable e = true) es →
  fst (upload_loop fp on rc w) =
    match unfinished_tasks w with
    | O => inl (Exn ValueError "task_done() called too many times")
    | S _ => inr tt
    end ∧
  trace (snd (upload_loop fp on rc w)) =
    trace w ++ retry_pattern (EvUploadObject fp on) rc (length es) ++
    [EvRemove fp; EvTaskDone] ∧
  container (snd (upload_loop fp on rc w)) = <[on := data]> (container w) ∧
  fs_files (snd (upload_loop fp on rc w)) = delete fp (fs_files w) ∧
  oracle (snd (upload_loop fp on rc w)) = tl rest ∧
  unfinished_tasks (snd (upload_loop fp on rc w)) = pred (unfinished_tasks w).
Proof.
  induction es as [|e es IH]; intros rc w rest Hrc Hlen Hf Ho Hrest Hall.
  - simpl in Ho. rewrite upload_loop_eq.
    unfold upload_object, bind, emit, request, store_object. simpl. rewrite Hf.
    assert (Hreq : ∃ o, oracle w = o ∧ (o = [] ∨ ∃ rest', o = None :: rest'))
      by (exists rest; by rewrite Ho).
    destruct Hreq as (o & Ho' & Hcase). rewrite Ho' in *. subst rest.
    unfold os_remove, task_done, bind, emit.
    destruct Hcase as [-> |[rest' ->]]; simpl; rewrite Hf; simpl;
      destruct (unfinished_tasks w); simpl; rewrite <- ?app_assoc; simpl;
      splits; reflexivity.
  - simpl in Ho, Hlen. apply Forall_cons in Hall as [He Hall].
    rewrite (upload_loop_retry fp on rc w data e _ ltac:(lia) Hf Ho He).
    destruct (retry_world_facts fp on (2 ^ (rc + 1 - 1)) w) as (F1 & O1 & T1).
    set (w1 := snd (sleep _ (after_failed_attempt fp on w))) in *.
    assert (Hu : unfinished_tasks w1 = unfinished_tasks w) by reflexivity.
    assert (Hc : container w1 = container w) by reflexivity.
    clearbody w1. rewrite Ho in O1; simpl in O1.
    destruct (IH (rc + 1) w1 rest ltac:(lia) ltac:(lia) ltac:(congruence) O1 Hrest Hall)
      as (Hr & Ht & Hco & Hfs & Hor & Hun).
    rewrite Hr, Ht, Hco, Hfs, Hor, Hun, Hu, Hc, F1, T1.
    splits; try reflexivity.
    cbn [length retry_pattern]. replace (rc + 1 - 1) with rc by lia.
    rewrite <- !app_assoc. reflexivity.
Qed.

(** A job that meets no obstacle goes through. *)
Lemma process_job_all_clear p fp on ov w data :
  oracle w = [] →
  fs_files w !! fp = Some data →
  ov = true ∨ container w !! on = None →
  (0 < unfinished_tasks w)%nat →
  fst (process_job p (fp, on, ov) w) = inr tt ∧
  container (snd (process_job p (fp, on, ov) w)) = <[on := data]> (container w) ∧
  fs_files (snd (process_job p (fp, on, ov) w)) = delete fp (fs_files w) ∧
  oracle (snd (process_job p (fp, on, ov) w)) = [] ∧
  S (unfinished_tasks (snd (process_job p (fp, on, ov) w))) = unfinished_tasks w.
Proof.
  intros Ho Hf Hov Hu. rewrite process_job_eq.
  destruct (check_overwrite_frame p on ov w) as (_ & Hf1 & _ & Hc1 & _ & Hu1 & _).
  assert (Hchk : fst (check_overwrite p on ov w) = inr tt ∧
                 oracle (snd (check_overwrite p on ov w)) = []).
  { unfold check_overwrite. destruct ov; simpl; [done|].
    destruct Hov as [?|Hc]; [done|].
    unfold get_object_size, bind, emit, request. simpl. rewrite Ho. simpl.
    rewrite Hc. simpl. done. }
  destruct Hchk as [Hr Ho1].
  destruct (check_overwrite p on ov w) as [[e|[]] w1]; simpl in *; [discriminate|].
  destruct (upload_loop_recovers fp on data [] 0 w1 [] ltac:(lia) ltac:(simpl; lia)
              ltac:(congruence) Ho1 ltac:(by left) ltac:(constructor))
    as (Hres & _ & Hco & Hfs & Hor & Hun).
  rewrite Hres, Hco, Hfs, Hor, Hun, Hu1, Hc1, Hf1.
  destruct (unfinished_tasks w); [lia|]. done.
Qed.

(** C5, as stated, fails.  The dequeue of the worker of [two_jobs] returns
    the first job; its object exists and may not be overwritten, so the worker
    does not continue its loop: it ends with the [FileExistsError], while the
    second job remains in the queue. *)
Lemma fatal_job_ends_worker_with_job_queued :
  threads Scenario.two_jobs !! 0%nat = Some Running ∧
  fst (queue_get Scenario.two_jobs) = inr (Some Scenario.job_a) ∧
  snd (thread_step Scenario.s3 0 Scenario.two_jobs) =
    Some (Scenario.job_a, Fatal 0 Scenario.a_exists) ∧
  threads (fst (thread_step Scenario.s3 0 Scenario.two_jobs)) !! 0%nat =
    Some (Crashed Scenario.a_exists) ∧
  file_queue (fst (thread_step Scenario.s3 0 Scenario.two_jobs)) = [Scenario.job_b].
Proof. repeat split; vm_compute; reflexivity. Qed.

(** C5, amended.  A step makes a worker [Exited] only from the handler of
    [queue.Empty], and only if it then finds the event set; the handler is
    entered only by a [get] that timed out on an empty queue, after waiting
    the timeout.  From the handler with the event unset, the worker is back at
    the top of its loop.  A [get] that returns a job hands it to the
    processing, whatever the event says: if that returns, the worker is back
    at the top of its loop with the job reported as uploaded; if it raises,
    the worker ends with that exception.  A job that meets no obstacle does
    return.  No step polls more than once, and no poll waits longer than the
    timeout. *)
Theorem worker_exits_only_when_drained (p : Provider) (i : nat) (w : World) :
  (threads w !! i ≠ Some Exited →
   threads (fst (thread_step p i w)) !! i = Some Exited →
   threads w !! i = Some CaughtEmpty ∧ is_finished w = true) ∧
  (threads w !! i ≠ Some CaughtEmpty →
   threads (fst (thread_step p i w)) !! i = Some CaughtEmpty →
   threads w !! i = Some Running ∧ file_queue w = [] ∧
   events_since w (fst (thread_step p i w)) = [EvPoll poll_timeout]) ∧
  (threads w !! i = Some CaughtEmpty →
   thread_step p i w =
     (set_threads (<[i := if is_finished w then Exited else Running]> (threads w)) w,
      None)) ∧
  (threads w !! i = Some Running → file_queue w = [] →
   thread_step p i w =
     (set_threads (<[i := CaughtEmpty]> (threads w))
                  (snd (emit (EvPoll poll_timeout) w)), None)) ∧
  (threads w !! i = Some Running →
   ∀ job rest, file_queue w = job :: rest →
   ∃ w0, queue_get w = (inr (Some job), w0) ∧
     file_queue w0 = rest ∧ is_finished w0 = is_finished w ∧
     match process_job p job w0 with
     | (inr _, w') =>
         thread_step p i w = (w', Some (job, Uploaded)) ∧
         threads w' !! i = Some Running ∧ file_queue w' = rest
     | (inl e, w') =>
         thread_step p i w =
           (set_threads (<[i := Crashed e]> (threads w')) w', Some (job, Fatal i e)) ∧
         file_queue w' = rest
     end) ∧
  (threads w !! i = Some Running →
   ∀ fp on ov rest data,
     file_queue w = (fp, on, ov) :: rest → oracle w = [] →
     fs_files w !! fp = Some data → ov = true ∨ container w !! on = None →
     (0 < unfinished_tasks w)%nat →
     snd (thread_step p i w) = Some ((fp, on, ov), Uploaded) ∧
     threads (fst (thread_step p i w)) !! i = Some Running ∧
     file_queue (fst (thread_step p i w)) = rest) ∧
  (∀ q, q ∈ polls (events_since w (fst (thread_step p i w))) →
        (q <= poll_timeout)%Q) ∧
  (length (polls (events_since w (fst (thread_step p i w)))) ≤ 1)%nat.
Proof.
  assert (Hjob : threads w !! i = Some Running →
    ∀ job rest, file_queue w = job :: rest →
    ∃ w0, queue_get w = (inr (Some job), w0) ∧
      file_queue w0 = rest ∧ is_finished w0 = is_finished w ∧
      oracle w0 = oracle w ∧ fs_files w0 = fs_files w ∧ container w0 = container w ∧
      unfinished_tasks w0 = unfinished_tasks w ∧
      match process_job p job w0 with
      | (inr _, w') =>
          thread_step p i w = (w', Some (job, Uploaded)) ∧
          threads w' !! i = Some Running ∧ file_queue w' = rest
      | (inl e, w') =>
          thread_step p i w =
            (set_threads (<[i := Crashed e]> (threads w')) w', Some (job, Fatal i e)) ∧
          file_queue w' = rest
      end).
  { intros Hi [[fp on] ov] rest Hq.
    destruct (queue_get_cons _ _ _ Hq)
      as (w0 & Hg & _ & Hq0 & Hf0 & _ & Hc0 & Ho0 & Hu0 & Hfi0 & Hth0).
    exists w0. do 7 (split; [done|]).
    destruct (process_job_run p fp on ov w0) as (new & _ & _ & _ & Hq1 & _ & Hth1 & _).
    unfold thread_step. rewrite Hi, Hg.
    destruct (process_job p (fp, on, ov) w0) as [[e|[]] w1]; simpl in *.
    - split; [reflexivity|congruence].
    - split; [reflexivity|]. split; congruence. }
  destruct (thread_step_spec p i w)
    as (_ & _ & _ & _ & Hidle & Hrun & _ & _ & _ & Hchk).
  splits.
  - intros Hne Hex.
    destruct (threads w !! i) as [[| | |e0]|] eqn:Hi.
    + specialize (Hrun eq_refl). destruct (file_queue w) as [|job rest].
      * destruct Hrun as [_ Hs]. congruence.
      * destruct Hrun as [[_ Hs]|(e & _ & Hs)]; congruence.
    + destruct (Hchk eq_refl) as (_ & _ & Hs). rewrite Hs in Hex.
      split; [reflexivity|]. by destruct (is_finished w).
    + done.
    + rewrite Hidle in Hex by (unfold worker_is_alive; by rewrite Hi).
      simpl in Hex. congruence.
    + rewrite Hidle in Hex by (unfold worker_is_alive; by rewrite Hi).
      simpl in Hex. congruence.
  - intros Hne Hce. rewrite thread_step_eq in *.
    destruct (threads w !! i) as [[| | |e0]|] eqn:Hi; simpl in Hce; try congruence.
    + assert (Hlt : (i < length (threads w))%nat) by (eapply lookup_lt_Some; eauto).
      destruct (file_queue w) as [|job rest] eqn:Hq.
      * splits; auto. by apply events_since_app.
      * destruct (worker_iteration_frame p w) as (Hth & _).
        destruct (worker_iteration p w) as [[e|ctl] w1]; simpl in *.
        -- rewrite Hth, list_lookup_insert_eq in Hce by done. discriminate.
        -- congruence.
  - intros Hi. rewrite thread_step_eq, Hi. reflexivity.
  - intros Hi Hq. rewrite thread_step_eq, Hi, Hq. reflexivity.
  - intros Hi job rest Hq.
    destruct (Hjob Hi job rest Hq) as (w0 & Hg & Hq0 & Hfi0 & _ & _ & _ & _ & Hm).
    exists w0. splits; auto.
  - intros Hi fp on ov rest data Hq Ho Hf Hov Hu.
    destruct (Hjob Hi _ rest Hq) as (w0 & Hg & Hq0 & Hfi0 & Ho0 & Hf0 & Hc0 & Hu0 & Hm).
    destruct (process_job_all_clear p fp on ov w0 data ltac:(congruence)
                ltac:(congruence) ltac:(rewrite Hc0; exact Hov) ltac:(lia)) as (Hr & _).
    destruct (process_job p (fp, on, ov) w0) as [[e|[]] w1]; simpl in *; [discriminate|].
    destruct Hm as (-> & Hs & Hq1). done.
  - assert (Hp : ∃ new, events_since w (fst (thread_step p i w)) = new ∧
                        (polls new = [] ∨ polls new = [0%Q] ∨ polls new = [poll_timeout])).
    { rewrite thread_step_eq.
      destruct (threads w !! i) as [[| | |e0]|];
        try (eexists; split; [reflexivity|]; left;
             unfold events_since; simpl; by rewrite drop_all).
      destruct (worker_iteration_frame p w) as (_ & _ & _ & q & new & Htr & Hpl & Hqv).
      destruct (file_queue w) as [|job rest].
      - eexists; split; [reflexivity|]. right; right.
        erewrite events_since_app; [|reflexivity]. reflexivity.
      - rewrite bool_decide_eq_false_2 in Hqv by done. subst q.
        eexists; split; [reflexivity|]. right; left.
        destruct (worker_iteration p w) as [[e|ctl] w1]; simpl in *;
          (erewrite events_since_app; [|exact Htr]); simpl; by rewrite Hpl. }
    destruct Hp as (new & -> & [-> |[-> | ->]]); intros q Hq.
    + by apply elem_of_nil in Hq.
    + apply list_elem_of_singleton in Hq as ->. done.
    + apply list_elem_of_singleton in Hq as ->. apply Qle_refl.
  - rewrite thread_step_eq.
    destruct (threads w !! i) as [[| | |e0]|];
      try (unfold events_since; simpl; rewrite drop_all; simpl; lia).
    destruct (worker_iteration_frame p w) as (_ & _ & _ & q & new & Htr & Hpl & Hqv).
    destruct (file_queue w) as [|job rest].
    + erewrite events_since_app; [|reflexivity]. simpl. lia.
    + destruct (worker_iteration p w) as [[e|ctl] w1]; simpl in *;
        (erewrite events_since_app; [|exact Htr]); simpl; rewrite Hpl; simpl; lia.
Qed.

(** When nothing acts in between, the step that times out and the step that
    looks at the event are together the pass [worker_iteration] describes. *)
Lemma empty_pass_in_two_steps p i w :
  threads w !! i = Some Running → file_queue w = [] →
  let w1 := fst (thread_step p i w) in
  let w2 := fst (thread_step p i w1) in
  trace w2 = trace (snd (worker_iteration p w)) ∧
  threads w2 !! i =
    Some (match fst (worker_iteration p w) with
          | inr Break => Exited
          | inr Continue => Running
          | inl e => Crashed e
          end).
Proof.
  intros Hi Hq w1 w2. subst w1 w2.
  assert (Hlt : (i < length (threads w))%nat) by (eapply lookup_lt_Some; eauto).
  rewrite (thread_step_eq p i w), Hi, Hq. simpl fst.
  rewrite thread_step_eq. simpl threads.
  rewrite list_lookup_insert_eq by done. simpl.
  rewrite list_insert_insert_eq, list_lookup_insert_eq by done.
  unfold worker_iteration, check_finished, bind. rewrite (queue_get_nil w Hq). simpl.
  destruct (is_finished w); done.
Qed.

(** A whole run: every job that was in the queue is either reported, in the
    order it was taken, or still in the queue; a reported upload is in the
    container and its staged file is gone; a reported failure is the crash of
    the reporting thread; and a thread that stood at the top of its loop and
    has exited leaves an empty queue, since nothing is put while only the
    workers run. *)
Lemma run_schedule_spec p : ∀ sched w,
  file_queue w =
    map fst (snd (run_schedule p sched w)) ++ file_queue (fst (run_schedule p sched w)) ∧
  is_finished (fst (run_schedule p sched w)) = is_finished w ∧
  length (threads (fst (run_schedule p sched w))) = length (threads w) ∧
  (∀ x, fs_files w !! x = None → fs_files (fst (run_schedule p sched w)) !! x = None) ∧
  (∀ n, is_Some (container w !! n) →
        is_Some (container (fst (run_schedule p sched w)) !! n)) ∧
  (∀ j t, is_alive t = false → threads w !! j = Some t →
          threads (fst (run_schedule p sched w)) !! j = Some t) ∧
  (∀ fp on ov, ((fp, on, ov), Uploaded) ∈ snd (run_schedule p sched w) →
     fs_files (fst (run_schedule p sched w)) !! fp = None ∧
     is_Some (container (fst (run_schedule p sched w)) !! on)) ∧
  (∀ job i e, (job, Fatal i e) ∈ snd (run_schedule p sched w) →
     threads (fst (run_schedule p sched w)) !! i = Some (Crashed e)) ∧
  (∀ i, threads w !! i = Some Running →
     threads (fst (run_schedule p sched w)) !! i = Some Exited →
     file_queue (fst (run_schedule p sched w)) = []).
Proof.
  induction sched as [|i sched IH]; intros w.
  - simpl. splits; auto.
    + intros fp on ov Hin. by apply elem_of_nil in Hin.
    + intros job i e Hin. by apply elem_of_nil in Hin.
    + intros i Hi Hx. congruence.
  - rewrite run_schedule_cons. simpl fst. simpl snd.
    destruct (thread_step_spec p i w)
      as (Hq & Hfi & Hlen & Hoth & Hidle & Hrun & Hfs & Hco & Hup & Hchk).
    set (w1 := fst (thread_step p i w)) in *.
    set (rep := snd (thread_step p i w)) in *.
    destruct (IH w1) as (Hq' & Hfi' & Hlen' & Hfs' & Hco' & Hst' & Hup' & Hfat' & Hex').
    set (w2 := fst (run_schedule p sched w1)) in *.
    set (reps := snd (run_schedule p sched w1)) in *.
    splits.
    + rewrite Hq, Hq'. destruct rep as [[job fate]|]; simpl; reflexivity.
    + congruence.
    + congruence.
    + auto.
    + auto.
    + intros j t Ht Hj. apply Hst'; [exact Ht|].
      by apply thread_step_stable.
    + intros fp on ov Hin.
      assert (Hcase : rep = Some ((fp, on, ov), Uploaded) ∨
                      ((fp, on, ov), Uploaded) ∈ reps).
      { destruct rep as [r|]; [|by right].
        apply elem_of_cons in Hin as [<-|Hin]; [by left|by right]. }
      destruct Hcase as [Hrep|Hin']; [|exact (Hup' fp on ov Hin')].
      destruct (Hup fp on ov Hrep) as [Hgone Hobj]. split; auto.
    + intros job j e Hin.
      assert (Hcase : rep = Some (job, Fatal j e) ∨ (job, Fatal j e) ∈ reps).
      { destruct rep as [r|]; [|by right].
        apply elem_of_cons in Hin as [<-|Hin]; [by left|by right]. }
      destruct Hcase as [Hrep|Hin']; [|exact (Hfat' job j e Hin')].
      apply Hst'; [done|].
      destruct (threads w !! i) as [[| | |e0]|] eqn:Hi;
        try (unfold rep in Hrep;
             rewrite Hidle in Hrep by (unfold worker_is_alive; by rewrite Hi);
             discriminate).
      * specialize (Hrun eq_refl).
        destruct (file_queue w) as [|job0 rest].
        -- destruct Hrun as [Hn _]. fold rep in Hn. congruence.
        -- fold rep w1 in Hrun.
           destruct Hrun as [[Hr _]|(e1 & Hr & Hc)]; rewrite Hr in Hrep; [discriminate|].
           injection Hrep as -> -> ->. exact Hc.
      * destruct (Hchk eq_refl) as (Hn & _). fold rep in Hn. congruence.
    + intros j Hj Hexit.
      destruct (decide (j = i)) as [->|Hne].
      * specialize (Hrun Hj). fold rep w1 in Hrun.
        destruct (file_queue w) as [|job0 rest] eqn:Hq0.
        -- (* the poll found the queue empty, and nothing refills it here *)
           destruct Hrun as [Hn Hs]. rewrite Hn in Hq. simpl in Hq.
           rewrite <- Hq in Hq'. symmetry in Hq'.
           by apply app_eq_nil in Hq' as [_ ?].
        -- destruct Hrun as [[_ Hs]|(e1 & _ & Hs)].
           ++ exact (Hex' i Hs Hexit).
           ++ rewrite (Hst' i (Crashed e1)) in Hexit by done. discriminate.
      * apply (Hex' j); [|exact Hexit]. unfold w1. by rewrite Hoth.
Qed.






Section LoggerProperties.

Context {State LogLevel : Type}.
Variable str_format : string -> FormatArgs -> exn + string.
Variable dist : Dist.

Abbreviation Logger := (@ObjectStoreLogger State LogLevel).

(** ** Health check *)

(** C8. [batch_end] and [epoch_end] are [_check_workers].  It returns and
    leaves the world alone exactly when every worker is alive; if a worker has
    crashed it raises the [RuntimeError] that says so, whatever exception
    ended the worker. *)
Theorem check_workers_raises_iff_worker_dead (self : Logger) (w : World) :
  batch_end self = _check_workers self ∧
  epoch_end self = _check_workers self ∧
  ((∀ i, i ∈ _workers self → worker_is_alive w i = true) →
     _check_workers self w = (inr tt, w)) ∧
  (∀ i e, i ∈ _workers self → threads w !! i = Some (Crashed e) →
     _check_workers self w =
       (inl (Exn RuntimeError "Upload worker crashed. Please check the logs."), w)) ∧
  (fst (_check_workers self w) = inr tt ↔
     ∀ i, i ∈ _workers self → worker_is_alive w i = true).
Proof.
  split; [reflexivity|]. split; [reflexivity|].
  unfold _check_workers.
  assert (Hall : forallb (worker_is_alive w) (_workers self) = true ↔
                 ∀ i, i ∈ _workers self → worker_is_alive w i = true).
  { rewrite forallb_forall. split; intros H i Hi; apply H; by apply list_elem_of_In. }
  split; [|split].
  - intros H. by rewrite (proj2 Hall H).
  - intros i e Hi Hc.
    assert (Hf : forallb (worker_is_alive w) (_workers self) = false).
    { apply not_true_is_false. intros Hf. pose proof (proj1 Hall Hf i Hi) as Ha.
      unfold worker_is_alive in Ha. rewrite Hc in Ha. discriminate. }
    by rewrite Hf.
  - rewrite <- Hall.
    destruct (forallb (worker_is_alive w) (_workers self)); simpl; split; done.
Qed.

(** ** Object names and URIs *)

(** C9. [get_uri_for_artifact] takes no world and returns none: it reads the
    logger and computes a string.  Once the run name is set and the format
    renders the name to [key_name], the result is
    [provider://container/] followed by [key_name] without its leading
    slashes. *)
Theorem get_uri_for_artifact_is_prefix_and_stripped_name
    (self : Logger) (artifact_name run_name key_name : string) :
  _run_name self = Some run_name →
  str_format (object_name_format self)
             {| kw_rank := get_global_rank dist;
                kw_local_rank := get_local_rank dist;
                kw_world_size := get_world_size dist;
                kw_local_world_size := get_local_world_size dist;
                kw_node_rank := get_node_rank dist;
                kw_artifact_name := artifact_name;
                kw_run_name := run_name |} = inr key_name →
  _format_object_name str_format dist self artifact_name =
    inr (PyStr.lstrip "/" key_name) ∧
  get_uri_for_artifact str_format dist self artifact_name =
    inr ((provider (_object_store_provider_hparams self) +:+ "://" +:+
          container_name_of (_object_store_provider_hparams self) +:+ "/") +:+
         PyStr.lstrip "/" key_name) ∧
  PyStr.starts_with_char "/" (PyStr.lstrip "/" key_name) = false.
Proof.
  intros Hr Hk.
  assert (Hf : _format_object_name str_format dist self artifact_name =
               inr (PyStr.lstrip "/" key_name)).
  { unfold _format_object_name. rewrite Hr, Hk. reflexivity. }
  split; [exact Hf|]. split.
  - unfold get_uri_for_artifact. rewrite Hf, lstrip_idempotent. reflexivity.
  - by apply lstrip_no_leading.
Qed.

(** ** Initialisation *)

Lemma start_workers_spec : ∀ (n : nat) (self : Logger) (w : World),
  _workers (fst (start_workers n self w)) =
    _workers self ++ seq (length (threads w)) n ∧
  threads (snd (start_workers n self w)) = threads w ++ repeat Running n ∧
  trace (snd (start_workers n self w)) =
    trace w ++ map EvStart (seq (length (threads w)) n) ∧
  container (snd (start_workers n self w)) = container w ∧
  fs_files (snd (start_workers n self w)) = fs_files w ∧
  file_queue (snd (start_workers n self w)) = file_queue w ∧
  is_finished (snd (start_workers n self w)) = is_finished w ∧
  _run_name (fst (start_workers n self w)) = _run_name self ∧
  _finished (fst (start_workers n self w)) = _finished self.
Proof.
  induction n as [|n IH]; intros self w; simpl.
  - rewrite !app_nil_r. repeat split; reflexivity.
  - match goal with |- context [start_workers n ?s ?v] =>
      destruct (IH s v) as (Hw & Hth & Htr & Hc & Hf & Hq & Hfi & Hr & Hfin)
    end.
    rewrite Hw, Hth, Htr, Hc, Hf, Hq, Hfi, Hr, Hfin. simpl.
    rewrite length_app, <- !app_assoc. simpl.
    replace (length (threads w) + 1)%nat with (S (length (threads w))) by lia.
    repeat split; reflexivity.
Qed.

Lemma upload_object_via_stream_cases obj name w :
  (∃ e rest, oracle w = Some e :: rest ∧
     fst (upload_object_via_stream obj name w) = inl e ∧
     container (snd (upload_object_via_stream obj name w)) = container w) ∨
  ((oracle w = [] ∨ ∃ rest, oracle w = None :: rest) ∧
     fst (upload_object_via_stream obj name w) = inr tt ∧
     container (snd (upload_object_via_stream obj name w)) =
       <[name := obj]> (container w)).
Proof.
  unfold upload_object_via_stream, bind, emit, request, store_object; simpl.
  destruct (oracle w) as [|[e|] rest]; simpl.
  - right. split; [by left|done].
  - left. exists e, rest. done.
  - right. split; [right; by exists rest|done].
Qed.

Lemma upload_object_via_stream_frame obj name w :
  trace (snd (upload_object_via_stream obj name w)) =
    trace w ++ [EvUploadViaStream name] ∧
  threads (snd (upload_object_via_stream obj name w)) = threads w ∧
  fs_files (snd (upload_object_via_stream obj name w)) = fs_files w ∧
  file_queue (snd (upload_object_via_stream obj name w)) = file_queue w ∧
  is_finished (snd (upload_object_via_stream obj name w)) = is_finished w.
Proof.
  unfold upload_object_via_stream, bind, emit, request, store_object; simpl.
  destruct (oracle w) as [|[e|] rest]; simpl; repeat split; reflexivity.
Qed.

(** C10. A call of [init] that returns has, before starting any worker,
    uploaded the object named by the format of
    [".credentials_validated_successfully"]: that upload is the first event,
    the worker starts follow it, and the object is in the container with the
    validation contents.  If the provider refuses that upload, the error
    leaves [init] and no worker has been started. *)
Theorem init_uploads_validation_object_first
    (self : Logger) (logger_run_name : string) (w : World) :
  let args := {| kw_rank := get_global_rank dist;
                 kw_local_rank := get_local_rank dist;
                 kw_world_size := get_world_size dist;
                 kw_local_world_size := get_local_world_size dist;
                 kw_node_rank := get_node_rank dist;
                 kw_artifact_name := ".credentials_validated_successfully";
                 kw_run_name := logger_run_name |} in
  let n := Z.to_nat (_num_concurrent_uploads self) in
  (∀ self' w', init str_format dist self logger_run_name w = (inr tt, self', w') →
     ∃ key_name, str_format (object_name_format self) args = inr key_name ∧
       (oracle w = [] ∨ ∃ rest, oracle w = None :: rest) ∧
       events_since w w' =
         EvUploadViaStream (PyStr.lstrip "/" key_name) ::
         map EvStart (seq (length (threads w)) n) ∧
       container w' =
         <[PyStr.lstrip "/" key_name := "credentials_validated_successfully"]>
           (container w) ∧
       container w' !! PyStr.lstrip "/" key_name =
         Some "credentials_validated_successfully" ∧
       _workers self' = seq (length (threads w)) n ∧
       threads w' = threads w ++ repeat Running n ∧
       _run_name self' = Some logger_run_name) ∧
  (∀ key_name e rest,
     _finished self = None →
     str_format (object_name_format self) args = inr key_name →
     oracle w = Some e :: rest →
     ∃ self' w', init str_format dist self logger_run_name w = (inl e, self', w') ∧
       events_since w w' = [EvUploadViaStream (PyStr.lstrip "/" key_name)] ∧
       _workers self' = _workers self ∧
       threads w' = threads w ∧
       container w' = container w).
Proof.
  intros args n. split.
  - intros self' w'. unfold init.
    destruct (_finished self); [discriminate|].
    unfold _format_object_name; cbn [_run_name object_name_format].
    fold args.
    destruct (str_format (object_name_format self) args) as [e|key_name]; [discriminate|].
    unfold _validate_credentials. cbn [_object_store_provider_hparams].
    set (name := PyStr.lstrip "/" key_name).
    set (w1 := set_is_finished false w).
    destruct (upload_object_via_stream_frame "credentials_validated_successfully" name w1)
      as (Htr & Hth & _).
    destruct (upload_object_via_stream_cases "credentials_validated_successfully" name w1)
      as [(e & rest & Ho & Hr & Hc)|(Ho & Hr & Hc)];
      destruct (upload_object_via_stream "credentials_validated_successfully" name w1)
        as [[e'|[]] w2]; simpl in Hr, Hc, Htr, Hth; try discriminate.
    cbn [_workers _num_concurrent_uploads].
    destruct (length (_workers self) =? 0)%nat eqn:Hlen; simpl; [|discriminate].
    apply Nat.eqb_eq, nil_length_inv in Hlen.
    match goal with |- context [start_workers ?k ?s w2] =>
      destruct (start_workers_spec k s w2)
        as (Hw & Hth' & Htr' & Hc' & _ & _ & _ & Hrn & _);
      destruct (start_workers k s w2) as [self2 w3]
    end.
    simpl in *. intros [= <- <-].
    exists key_name. split; [reflexivity|]. split; [exact Ho|].
    split; [|split; [|split; [|split; [|split]]]].
    + apply events_since_app. rewrite Htr', Htr, Hth. simpl.
      rewrite <- app_assoc. reflexivity.
    + rewrite Hc', Hc. reflexivity.
    + rewrite Hc', Hc. apply lookup_insert_eq.
    + rewrite Hw, Hlen, Hth. reflexivity.
    + rewrite Hth', Hth. reflexivity.
    + exact Hrn.
  - intros key_name e rest Hfin Hk Ho. unfold init. rewrite Hfin.
    unfold _format_object_name; cbn [_run_name object_name_format].
    fold args. rewrite Hk.
    unfold _validate_credentials. cbn [_object_store_provider_hparams].
    set (name := PyStr.lstrip "/" key_name).
    set (w1 := set_is_finished false w).
    destruct (upload_object_via_stream_frame "credentials_validated_successfully" name w1)
      as (Htr & Hth & _).
    destruct (upload_object_via_stream_cases "credentials_validated_successfully" name w1)
      as [(e0 & rest0 & Ho0 & Hr & Hc)|([Ho0|[rest0 Ho0]] & _)];
      [|simpl in Ho0; congruence..].
    simpl in Ho0. rewrite Ho in Ho0. injection Ho0 as <- <-.
    destruct (upload_object_via_stream "credentials_validated_successfully" name w1)
      as [[e'|[]] w2]; simpl in Hr, Hc, Htr, Hth; [|discriminate].
    injection Hr as ->.
    eexists _, _. split; [reflexivity|]. simpl.
    split; [by apply events_since_app|]. done.
Qed.

(** ** Submitting an artifact *)

(** C7, as stated, fails: on a logger whose run name is not set yet (before
    [init]) the call copies the artifact and then leaves with the
    [RuntimeError] of [_format_object_name], which is no local-copy I/O error;
    nothing is enqueued. *)
Lemma submit_before_init_raises :
  let r := log_file_artifact PlainFormat.format Scenario.dist0 Scenario.fresh_logger
             tt tt "a.txt" "/out/a.txt" true "u1" Scenario.with_artifact in
  fst r = inl (Exn RuntimeError
                   "The run name is not set. It should have been set on Event.INIT.") ∧
  is_local_io_error
    (Exn RuntimeError
         "The run name is not set. It should have been set on Event.INIT.") = false ∧
  fs_files (snd r) !! "/stage/u1" = Some "AAA" ∧
  file_queue (snd r) = [].
Proof. repeat split; vm_compute; reflexivity. Qed.

(** C7, amended.  A call that passes the filter, and whose drawn name is not
    that of an existing directory, makes no provider request and waits for
    nothing.  When it returns, the artifact's contents are at
    [join(staging, uuid4)], the parent of that path is a directory, and the
    job [(copied_path, object_name, overwrite)] is at the end of the queue.
    When it raises, nothing is enqueued, and the exception is either a
    local-copy I/O error, or the one [_format_object_name] raises (the run
    name is not set, or the format fails) after the copy has been made.  It
    returns whenever the directories can be made, the artifact exists and is
    not the staged path itself, and the object name formats. *)
Theorem log_file_artifact_copies_then_enqueues
    (self : Logger) (state : State) (log_level : LogLevel)
    (artifact_name file_path : string) (overwrite : bool) (uuid4 : string)
    (w : World) :
  _should_log_artifact self state log_level artifact_name = true →
  OsPath.join (_upload_staging_folder self) uuid4 ∉ fs_dirs w →
  let copied_path := OsPath.join (_upload_staging_folder self) uuid4 in
  let r := log_file_artifact str_format dist self state log_level artifact_name
                             file_path overwrite uuid4 w in
  trace (snd r) = trace w ∧ oracle (snd r) = oracle w ∧
  container (snd r) = container w ∧
  match fst r with
  | inr _ =>
      ∃ data object_name,
        fs_files w !! file_path = Some data ∧
        _format_object_name str_format dist self artifact_name = inr object_name ∧
        fs_files (snd r) = <[copied_path := data]> (fs_files w) ∧
        is_dir (snd r) (OsPath.dirname copied_path) = true ∧
        fs_dirs w ⊆ fs_dirs (snd r) ∧
        file_queue (snd r) = file_queue w ++ [(copied_path, object_name, overwrite)] ∧
        unfinished_tasks (snd r) = S (unfinished_tasks w)
  | inl e =>
      file_queue (snd r) = file_queue w ∧
      ((is_local_io_error e = true ∧ fs_files (snd r) = fs_files w) ∨
       (_format_object_name str_format dist self artifact_name = inl e ∧
        ∃ data, fs_files w !! file_path = Some data ∧
                fs_files (snd r) = <[copied_path := data]> (fs_files w)))
  end ∧
  (∀ data object_name,
     fst (os_makedirs (OsPath.dirname copied_path) w) = inr tt →
     fs_files w !! file_path = Some data → file_path ≠ copied_path →
     _format_object_name str_format dist self artifact_name = inr object_name →
     fst r = inr tt).
Proof.
  intros Hlog Hfresh copied_path r. subst r.
  unfold log_file_artifact. rewrite Hlog. cbn [negb]. fold copied_path.
  unfold bind. cbv beta iota.
  set (d := OsPath.dirname copied_path).
  destruct (os_makedirs_cases d w) as [(e & Hm & He)|(Hd & Hm)]; rewrite Hm.
  { simpl. repeat split; try reflexivity.
    - left. done.
    - intros ? ? [=]. }
  set (w1 := set_fs _ _ w).
  assert (Hnd : copied_path ∉ fs_dirs w1).
  { unfold w1; cbn [fs_dirs set_fs]. intros [Hin|Hin]%elem_of_union; [|done].
    apply elem_of_list_to_set in Hin.
    exact (not_in_own_lineage (S (String.length d)) copied_path Hin). }
  assert (Hisd : is_dir w1 d = true).
  { unfold is_dir. destruct (decide (OsPath.dirname d = d)) as [Heq|Hne].
    - rewrite (bool_decide_eq_true_2 _ Heq). apply orb_true_r.
    - rewrite bool_decide_eq_true_2; [done|]. unfold w1; cbn [fs_dirs set_fs].
      apply elem_of_union_l, elem_of_list_to_set. by apply lineage_head. }
  destruct (shutil_copy2_cases file_path copied_path w1)
    as [(e & Hc & He)|(data & Hsrc & Hc)].
  { rewrite Hc. simpl. repeat split; try reflexivity.
    - left. done.
    - intros data object_name _ Hsrc Hne _. exfalso.
      revert Hc. unfold shutil_copy2.
      rewrite (bool_decide_eq_false_2 _ Hnd).
      change (fs_files w1) with (fs_files w). rewrite Hsrc.
      rewrite (bool_decide_eq_false_2 _ Hne).
      fold d. rewrite Hisd, orb_true_r.
      rewrite (bool_decide_eq_false_2 _ Hnd). discriminate. }
  rewrite Hc. rewrite (bool_decide_eq_false_2 _ Hnd).
  change (fs_files w1) with (fs_files w) in *.
  destruct (_format_object_name str_format dist self artifact_name)
    as [e|object_name] eqn:Hfmt; simpl.
  - repeat split; try reflexivity.
    + right. split; [reflexivity|]. exists data. done.
    + intros ? ? _ _ _ [=].
  - repeat split; try reflexivity.
    exists data, object_name. repeat split; try done; try exact Hisd.
    apply union_subseteq_r.
Qed.

(** ** Shutdown *)


End LoggerProperties.

(** ** The theorems at work *)

(** The theorem on the started logger, whose format begins with a slash. *)
Lemma get_uri_for_artifact_is_prefix_and_stripped_name_witness :
  get_uri_for_artifact PlainFormat.format Scenario.dist0 Scenario.started_logger "a.txt" =
    inr "s3://bkt/run1/a.txt" ∧
  _format_object_name PlainFormat.format Scenario.dist0 Scenario.started_logger "a.txt" =
    inr "run1/a.txt".
Proof.
  pose proof (get_uri_for_artifact_is_prefix_and_stripped_name
                PlainFormat.format Scenario.dist0 Scenario.started_logger
                "a.txt" "run1" "/run1/a.txt" eq_refl ltac:(vm_compute; reflexivity))
    as (Hname & Huri & _).
  split; [exact Huri|exact Hname].
Defined.

(** The theorem on the started logger and a world that holds the artifact. *)
Lemma log_file_artifact_copies_then_enqueues_witness :
  let r := log_file_artifact PlainFormat.format Scenario.dist0 Scenario.started_logger
             tt tt "a.txt" "/out/a.txt" true "u1" Scenario.with_artifact in
  fst r = inr tt ∧
  fs_files (snd r) !! "/stage/u1" = Some "AAA" ∧
  file_queue (snd r) = [("/stage/u1", "run1/a.txt", true)].
Proof.
  intros r.
  assert (Hfresh : OsPath.join "/stage" "u1" ∉ fs_dirs Scenario.with_artifact)
    by (simpl; apply not_elem_of_empty).
  pose proof (log_file_artifact_copies_then_enqueues
                PlainFormat.format Scenario.dist0 Scenario.started_logger
                tt tt "a.txt" "/out/a.txt" true "u1" Scenario.with_artifact
                eq_refl Hfresh) as (_ & _ & _ & Hcase & Hsucc).
  fold r in Hcase, Hsucc.
  assert (Hok : fst r = inr tt).
  { apply (Hsucc "AAA" "run1/a.txt").
    - vm_compute; reflexivity.
    - vm_compute; reflexivity.
    - discriminate.
    - vm_compute; reflexivity. }
  rewrite Hok in Hcase.
  destruct Hcase as (data & object_name & Hsrc & Hfmt & Hfs & _ & _ & Hq & _).
  assert (data = "AAA") as -> by (vm_compute in Hsrc; congruence).
  assert (object_name = "run1/a.txt") as -> by (vm_compute in Hfmt; congruence).
  split; [exact Hok|]. split.
  - rewrite Hfs. apply lookup_insert_eq.
  - exact Hq.
Defined.


(** ** Runs on concrete worlds *)

Module Examples.

(** Three failures the loop retries, then success: four attempts, sleeps of
    1, 2 and 4 seconds, then the clean-up. *)
Example three_failures_then_success :
  let w := Scenario.staged [Some (Exn TimeoutError "timed out");
                            Some (Exn ConnectionError "connection reset");
                            Some (Exn LibcloudError "status_code=503"); None]
                           [("/stage/u1", "run/a.txt", true)] in
  fst (worker_iteration Scenario.s3 w) = inr Continue ∧
  events_since w (snd (worker_iteration Scenario.s3 w)) =
    [EvPoll 0;
     EvUploadObject "/stage/u1" "run/a.txt"; EvSleep 1;
     EvUploadObject "/stage/u1" "run/a.txt"; EvSleep 2;
     EvUploadObject "/stage/u1" "run/a.txt"; EvSleep 4;
     EvUploadObject "/stage/u1" "run/a.txt";
     EvRemove "/stage/u1"; EvTaskDone].
Proof. split; vm_compute; reflexivity. Qed.

(** Five timeouts in a row: the fifth is raised, the sixth fate stays
    unused, the staged file is still there. *)
Example five_timeouts_crash :
  let w := Scenario.staged (repeat (Some (Exn TimeoutError "timed out")) 6)
                           [("/stage/u1", "run/a.txt", true)] in
  fst (worker_iteration Scenario.s3 w) = inl (Exn TimeoutError "timed out") ∧
  count_attempts (events_since w (snd (worker_iteration Scenario.s3 w))) = 5%nat ∧
  sleeps (events_since w (snd (worker_iteration Scenario.s3 w))) = [1; 2; 4; 8] ∧
  length (oracle (snd (worker_iteration Scenario.s3 w))) = 1%nat ∧
  fs_files (snd (worker_iteration Scenario.s3 w)) !! "/stage/u1" = Some "data".
Proof. repeat split; vm_compute; reflexivity. Qed.

(** An error outside the [except] clause is not retried either. *)
Example uncaught_error_crashes_at_once :
  let w := Scenario.staged [Some (Exn ValueError "bad argument"); None]
                           [("/stage/u1", "run/a.txt", true)] in
  fst (worker_iteration Scenario.s3 w) = inl (Exn ValueError "bad argument") ∧
  count_attempts (events_since w (snd (worker_iteration Scenario.s3 w))) = 1%nat.
Proof. split; vm_compute; reflexivity. Qed.

(** The existence check at work: the first job of [two_jobs] is refused
    without an upload attempt. *)
Example existing_object_refused :
  fst (process_job Scenario.s3 Scenario.job_a Scenario.two_jobs) =
    inl Scenario.a_exists ∧
  events_since Scenario.two_jobs
    (snd (process_job Scenario.s3 Scenario.job_a Scenario.two_jobs)) =
    [EvGetObjectSize "run1/a.txt"].
Proof. split; vm_compute; reflexivity. Qed.

(** An idle worker: a poll that times out, a look at the event, and again,
    until the event is set; then it leaves. *)
Example idle_worker_polls_then_exits :
  let w := Scenario.staged [] [] in
  threads (fst (run_schedule Scenario.s3 [0%nat] w)) = [CaughtEmpty] ∧
  fst (run_schedule Scenario.s3 [0%nat; 0%nat; 0%nat; 0%nat] w) =
    mkWorld (fs_files w) ∅ ∅ [] [] 0 false [Running]
            [EvPoll poll_timeout; EvPoll poll_timeout] ∧
  threads (fst (run_schedule Scenario.s3 [0%nat; 0%nat] (set_is_finished true w))) =
    [Exited].
Proof. repeat split; vm_compute; reflexivity. Qed.

(** [init] on the fresh logger: the validation object is uploaded, then the
    one worker is started. *)
Example init_then_one_worker :
  let r := init PlainFormat.format Scenario.dist0 Scenario.fresh_logger "run1"
                Scenario.with_artifact in
  fst (fst r) = inr tt ∧
  trace (snd r) =
    [EvUploadViaStream "run1/.credentials_validated_successfully"; EvStart 0] ∧
  container (snd r) !! "run1/.credentials_validated_successfully" =
    Some "credentials_validated_successfully" ∧
  _workers (snd (fst r)) = [0%nat] ∧ threads (snd r) = [Running].
Proof. repeat split; vm_compute; reflexivity. Qed.

(** The drain that [post_close] waits for, when nothing goes wrong: both
    jobs uploaded, both staged files gone, the worker exited. *)
Example healthy_drain :
  let w := mkWorld (<["/stage/u1" := "AAA"]> {["/stage/u2" := "BBB"]}) {["/stage"]} ∅ []
                   [Scenario.job_a; Scenario.job_b] 2 false [Running] [] in
  option_map
    (λ r : ObjectStoreLogger * World,
       (file_queue (snd r), threads (snd r), unfinished_tasks (snd r),
        map_to_list (fs_files (snd r)),
        container (snd r) !! "run1/a.txt", container (snd r) !! "run1/b.txt"))
    (post_close Scenario.started_logger [0%nat; 0%nat; 0%nat; 0%nat] w) =
  Some ([], [Exited], 0%nat, [], Some "AAA", Some "BBB").
Proof. vm_compute; reflexivity. Qed.

(** After the crash on the first of the two jobs the next health check
    raises; before it, the check passes. *)
Example crash_surfaces_at_next_check :
  fst (batch_end Scenario.started_logger Scenario.two_jobs) = inr tt ∧
  fst (epoch_end Scenario.started_logger
         (fst (thread_step Scenario.s3 0 Scenario.two_jobs))) =
    inl (Exn RuntimeError "Upload worker crashed. Please check the logs.").
Proof. split; vm_compute; reflexivity. Qed.

(** The race between a worker's [get] and its [is_set()]: the poll of the
    idle worker times out; a job is put and the event is set; the worker then
    finds the event set and leaves, with the job in the queue. *)
Example stale_poll_then_exit_leaves_job :
  let job := ("/stage/u1", "run/a.txt", true) in
  let w1 := fst (thread_step Scenario.s3 0 (Scenario.staged [] [])) in
  let w2 := set_is_finished true (snd (put_nowait job w1)) in
  let w3 := fst (thread_step Scenario.s3 0 w2) in
  threads w1 = [CaughtEmpty] ∧
  threads w3 = [Exited] ∧ file_queue w3 = [job] ∧
  fs_files w3 !! "/stage/u1" = Some "data" ∧ container w3 !! "run/a.txt" = None.
Proof. repeat split; vm_compute; reflexivity. Qed.

(** A line feed in the object name breaks the common margin, and
    [textwrap.dedent] leaves the twenty spaces where they are. *)
Example line_feed_in_name_keeps_margin :
  already_exists_text Scenario.s3 ("a" +:+ PyStr.newline +:+ "b") =
    "                    s3://bkt/a" +:+ PyStr.newline +:+
    "b already exists," +:+ PyStr.newline +:+
    "                    but allow_overwrite was set to False.".
Proof. vm_compute; reflexivity. Qed.

End Examples.

(* ===================================================================== *)
(** * Further properties of the worker                                    *)
(* ===================================================================== *)

(** A pass of the loop body that took the job [(fp, on, ov)] touches no
    other local file and no other object, creates no file, and leaves the
    directories, the shutdown event and the threads as they were; the queue
    loses exactly the job taken.  An empty poll changes nothing but the
    trace. *)
Lemma worker_iteration_footprint (p : Provider) (w : World) :
  fs_dirs (snd (worker_iteration p w)) = fs_dirs w ∧
  is_finished (snd (worker_iteration p w)) = is_finished w ∧
  threads (snd (worker_iteration p w)) = threads w ∧
  file_queue (snd (worker_iteration p w)) = tl (file_queue w) ∧
  match file_queue w with
  | [] =>
      fs_files (snd (worker_iteration p w)) = fs_files w ∧
      container (snd (worker_iteration p w)) = container w ∧
      oracle (snd (worker_iteration p w)) = oracle w ∧
      unfinished_tasks (snd (worker_iteration p w)) = unfinished_tasks w
  | (fp, on, ov) :: _ =>
      (∀ x, x ≠ fp → fs_files (snd (worker_iteration p w)) !! x = fs_files w !! x) ∧
      (fs_files (snd (worker_iteration p w)) !! fp = None ∨
       fs_files (snd (worker_iteration p w)) !! fp = fs_files w !! fp) ∧
      (∀ n, n ≠ on → container (snd (worker_iteration p w)) !! n = container w !! n)
  end.
Proof.
  destruct (worker_iteration_frame p w) as (Hth & Hfi & Hq & _).
  destruct (file_queue w) as [|[[fp on] ov] rest] eqn:Hq0.
  - unfold worker_iteration, check_finished, bind in *. rewrite (queue_get_nil w Hq0) in *. simpl in *.
    destruct (is_finished w); simpl in *; splits; auto.
  - destruct (queue_get_cons _ _ _ Hq0)
      as (w0 & Hg & _ & _ & Hf0 & Hd0 & Hc0 & _).
    destruct (worker_iteration_cons p _ _ _ Hq0) as (w0' & Hg' & Hw).
    rewrite Hg in Hg'. injection Hg' as <-.
    rewrite Hw in *.
    destruct (process_job_run p fp on ov w0) as (new & _ & _ & Hd & _ & _ & _ & Hres).
    assert (Hcases :
      (fs_files (snd (process_job p (fp, on, ov) w0)) = fs_files w0 ∨
       fs_files (snd (process_job p (fp, on, ov) w0)) = delete fp (fs_files w0)) ∧
      (container (snd (process_job p (fp, on, ov) w0)) = container w0 ∨
       ∃ data, container (snd (process_job p (fp, on, ov) w0)) =
                 <[on := data]> (container w0))).
    { destruct (fst (process_job p (fp, on, ov) w0)) as [e|[]].
      - destruct Hres as [(_ & Hf & Hc & _)|(_ & _ & data & _ & Hc & Hf)]; eauto.
      - destruct Hres as (_ & data & _ & Hc & Hf & _); eauto. }
    destruct Hcases as [Hf Hc].
    assert (Hsnd : ∀ (r : (exn + unit) * World),
              snd (match r with
                   | (inr _, w1) => (inr Continue, w1)
                   | (inl e, w1) => (@inl exn loop_ctl e, w1)
                   end) = snd r)
      by (intros [[?|[]] ?]; reflexivity).
    rewrite Hsnd in *. splits; auto; try congruence.
    + intros x Hx. destruct Hf as [-> | ->]; [by rewrite Hf0|].
      rewrite lookup_delete_ne by done. by rewrite Hf0.
    + destruct Hf as [-> | ->]; [right; by rewrite Hf0|left; apply lookup_delete_eq].
    + intros n Hn. destruct Hc as [-> |[data ->]]; [by rewrite Hc0|].
      rewrite lookup_insert_ne by done. by rewrite Hc0.
Qed.


Lemma thread_step_footprint p i w :
  fs_dirs (fst (thread_step p i w)) = fs_dirs w ∧
  (∀ x, (∀ j fate, snd (thread_step p i w) = Some (j, fate) → x ≠ job_path j) →
        fs_files (fst (thread_step p i w)) !! x = fs_files w !! x) ∧
  (∀ x, fs_files (fst (thread_step p i w)) !! x = None ∨
        fs_files (fst (thread_step p i w)) !! x = fs_files w !! x) ∧
  (∀ n, (∀ j fate, snd (thread_step p i w) = Some (j, fate) → n ≠ job_object j) →
        container (fst (thread_step p i w)) !! n = container w !! n) ∧
  ∃ new, trace (fst (thread_step p i w)) = trace w ++ new.
Proof.
  destruct (worker_iteration_footprint p w) as (Hd & _ & _ & _ & Hfoot).
  destruct (worker_iteration_frame p w) as (_ & _ & _ & q & new & Htr & _).
  rewrite thread_step_eq.
  destruct (threads w !! i) as [[| | |e0]|];
    try (simpl; splits; auto; exists []; by rewrite app_nil_r).
  destruct (file_queue w) as [|[[fp on] ov] rest].
  - simpl. splits; auto. by eexists.
  - destruct Hfoot as (Hf & Hf' & Hc).
    destruct (worker_iteration p w) as [[e|ctl] w1]; simpl in *; splits; eauto.
    + intros x Hx. apply Hf. exact (Hx _ _ eq_refl).
    + intros x. destruct (decide (x = fp)) as [-> |Hx]; [|right; by apply Hf].
      destruct Hf' as [Hf'|Hf']; auto.
    + intros n Hn. apply Hc. exact (Hn _ _ eq_refl).
    + intros x Hx. apply Hf. exact (Hx _ _ eq_refl).
    + intros x. destruct (decide (x = fp)) as [-> |Hx]; [|right; by apply Hf].
      destruct Hf' as [Hf'|Hf']; auto.
    + intros n Hn. apply Hc. exact (Hn _ _ eq_refl).
Qed.

Lemma run_schedule_footprint p : ∀ sched w,
  fs_dirs (fst (run_schedule p sched w)) = fs_dirs w ∧
  (∀ x, x ∉ map job_path (map fst (snd (run_schedule p sched w))) →
        fs_files (fst (run_schedule p sched w)) !! x = fs_files w !! x) ∧
  (∀ x, fs_files (fst (run_schedule p sched w)) !! x = None ∨
        fs_files (fst (run_schedule p sched w)) !! x = fs_files w !! x) ∧
  (∀ n, n ∉ map job_object (map fst (snd (run_schedule p sched w))) →
        container (fst (run_schedule p sched w)) !! n = container w !! n) ∧
  ∃ new, trace (fst (run_schedule p sched w)) = trace w ++ new.
Proof.
  induction sched as [|i sched IH]; intros w.
  - simpl. splits; auto. exists []. by rewrite app_nil_r.
  - rewrite run_schedule_cons. simpl fst. simpl snd.
    destruct (thread_step_footprint p i w) as (Hd & Hf & Hf' & Hc & new1 & Ht).
    destruct (IH (fst (thread_step p i w))) as (Hd2 & Hf2 & Hf2' & Hc2 & new2 & Ht2).
    splits.
    + congruence.
    + intros x Hx. rewrite Hf2, Hf; [reflexivity| |].
      * intros j fate Hrep Hxj. apply Hx. rewrite Hrep. simpl.
        apply elem_of_cons. by left.
      * intros Hin. apply Hx.
        destruct (snd (thread_step p i w)) as [[j fate]|]; simpl; [|exact Hin].
        apply elem_of_cons. by right.
    + intros x. destruct (Hf2' x) as [H2|H2]; [by left|].
      destruct (Hf' x) as [H1|H1]; [left|right]; congruence.
    + intros n Hn. rewrite Hc2, Hc; [reflexivity| |].
      * intros j fate Hrep Hnj. apply Hn. rewrite Hrep. simpl.
        apply elem_of_cons. by left.
      * intros Hin. apply Hn.
        destruct (snd (thread_step p i w)) as [[j fate]|]; simpl; [|exact Hin].
        apply elem_of_cons. by right.
    + exists (new1 ++ new2). by rewrite Ht2, Ht, app_assoc.
Qed.

(** X1. However the workers are scheduled and whatever the store does, a run
    touches only what belongs to the jobs it took: a local file that is not
    the staged file of such a job keeps its contents, no file is created or
    rewritten, an object whose name is not that of such a job is left alone,
    directories and the shutdown event are untouched and the trace only
    grows. *)
Theorem run_touches_only_jobs_taken (p : Provider) (sched : list nat) (w : World) :
  fs_dirs (fst (run_schedule p sched w)) = fs_dirs w ∧
  is_finished (fst (run_schedule p sched w)) = is_finished w ∧
  (∀ x, x ∉ map job_path (map fst (snd (run_schedule p sched w))) →
        fs_files (fst (run_schedule p sched w)) !! x = fs_files w !! x) ∧
  (∀ x, fs_files (fst (run_schedule p sched w)) !! x = None ∨
        fs_files (fst (run_schedule p sched w)) !! x = fs_files w !! x) ∧
  (∀ n, n ∉ map job_object (map fst (snd (run_schedule p sched w))) →
        container (fst (run_schedule p sched w)) !! n = container w !! n) ∧
  (∃ new, trace (fst (run_schedule p sched w)) = trace w ++ new).
Proof.
  destruct (run_schedule_footprint p sched w) as (Hd & Hf & Hf' & Hc & Ht).
  destruct (run_schedule_spec p sched w) as (_ & Hfi & _).
  splits; auto.
Qed.

(** X2. The existence check is not covered by the retry loop: with
    [overwrite = False], any exception of the size query other than
    [ObjectDoesNotExistError] ends the job at once, also one the upload loop
    would have retried.  No upload is attempted and the worker does not
    sleep. *)
Theorem size_query_error_is_fatal (p : Provider) (fp on : string) (w : World)
    (e : exn) (rest : list (option exn)) :
  oracle w = Some e :: rest →
  isinstance e ObjectDoesNotExistError = false →
  fst (process_job p (fp, on, false) w) = inl e ∧
  events_since w (snd (process_job p (fp, on, false) w)) = [EvGetObjectSize on] ∧
  oracle (snd (process_job p (fp, on, false) w)) = rest ∧
  fs_files (snd (process_job p (fp, on, false) w)) = fs_files w ∧
  container (snd (process_job p (fp, on, false) w)) = container w.
Proof.
  intros Ho He. rewrite process_job_eq. unfold check_overwrite. simpl negb. cbv iota.
  unfold get_object_size, bind, emit, request. simpl. rewrite Ho. simpl. rewrite He.
  simpl. splits; try reflexivity. by apply events_since_app.
Qed.

(** X2 on a timeout, which the upload loop would retry four times. *)
Lemma size_query_error_is_fatal_witness :
  retryable (Exn TimeoutError "timed out") = true ∧
  fst (process_job Scenario.s3 ("/stage/u1", "run/a.txt", false)
         (Scenario.staged [Some (Exn TimeoutError "timed out"); None] [])) =
    inl (Exn TimeoutError "timed out") ∧
  events_since (Scenario.staged [Some (Exn TimeoutError "timed out"); None] [])
    (snd (process_job Scenario.s3 ("/stage/u1", "run/a.txt", false)
            (Scenario.staged [Some (Exn TimeoutError "timed out"); None] []))) =
    [EvGetObjectSize "run/a.txt"].
Proof.
  split; [reflexivity|].
  pose proof (size_query_error_is_fatal Scenario.s3 "/stage/u1" "run/a.txt"
                (Scenario.staged [Some (Exn TimeoutError "timed out"); None] [])
                (Exn TimeoutError "timed out") [None] eq_refl eq_refl)
    as (H1 & H2 & _).
  split; [exact H1|exact H2].
Defined.

Lemma total_sleep_app t1 t2 : total_sleep (t1 ++ t2) = total_sleep t1 + total_sleep t2.
Proof.
  unfold total_sleep. rewrite sleeps_app, foldr_app.
  induction (sleeps t1) as [|s l IH]; simpl; [lia|]. rewrite IH. lia.
Qed.

Lemma total_sleep_retry_pattern fp on : ∀ (n : nat) k,
  0 ≤ k →
  total_sleep (retry_pattern (EvUploadObject fp on) k n) =
    2 ^ (k + Z.of_nat n) - 2 ^ k.
Proof.
  induction n as [|n IH]; intros k Hk.
  - unfold total_sleep. simpl. rewrite Z.add_0_r, Z.sub_diag. reflexivity.
  - cbn [retry_pattern].
    change (EvUploadObject fp on :: EvSleep (2 ^ k) ::
            retry_pattern (EvUploadObject fp on) (k + 1) n)
      with ([EvUploadObject fp on; EvSleep (2 ^ k)] ++
            retry_pattern (EvUploadObject fp on) (k + 1) n).
    rewrite total_sleep_app, IH by lia.
    unfold total_sleep at 1. simpl sleeps. simpl foldr.
    replace (k + 1 + Z.of_nat n) with (k + Z.of_nat (S n)) by lia.
    replace (k + 1) with (Z.succ k) by lia. rewrite Z.pow_succ_r by lia.
    generalize (2 ^ k) (2 ^ (k + Z.of_nat (S n))). intros a b. lia.
Qed.

(** X3. If the first [k <= 4] upload attempts of a job fail with errors the
    loop retries and the store then accepts, the job is uploaded with exactly
    [k + 1] attempts, the worker has slept [2 ^ k - 1] seconds in all, the
    object holds the staged contents, the staged file is removed and the task
    acknowledged. *)
Theorem upload_succeeds_after_transient_failures
    (fp on data : string) (es : list exn) (rest : list (option exn)) (w : World) :
  (length es ≤ 4)%nat →
  Forall (λ e, retryable e = true) es →
  fs_files w !! fp = Some data →
  oracle w = map Some es ++ rest →
  (rest = [] ∨ ∃ rest', rest = None :: rest') →
  (0 < unfinished_tasks w)%nat →
  fst (upload_loop fp on 0 w) = inr tt ∧
  count_attempts (events_since w (snd (upload_loop fp on 0 w))) = S (length es) ∧
  total_sleep (events_since w (snd (upload_loop fp on 0 w))) =
    2 ^ Z.of_nat (length es) - 1 ∧
  container (snd (upload_loop fp on 0 w)) !! on = Some data ∧
  fs_files (snd (upload_loop fp on 0 w)) !! fp = None ∧
  S (unfinished_tasks (snd (upload_loop fp on 0 w))) = unfinished_tasks w.
Proof.
  intros Hlen Hall Hf Ho Hrest Hu.
  destruct (upload_loop_recovers fp on data es 0 w rest ltac:(lia) ltac:(lia)
              Hf Ho Hrest Hall) as (Hr & Ht & Hco & Hfs & _ & Hun).
  rewrite (events_since_app _ _ _ Ht), Hr, Hco, Hfs, Hun.
  destruct (unfinished_tasks w) as [|u]; [lia|].
  destruct (retry_pattern_counts fp on (length es) 0) as (Hc & _).
  rewrite count_attempts_app, total_sleep_app, Hc,
    (total_sleep_retry_pattern fp on (length es) 0 ltac:(lia)).
  splits; try reflexivity.
  - simpl. lia.
  - change (total_sleep [EvRemove fp; EvTaskDone]) with 0.
    rewrite Z.add_0_l. change (2 ^ 0) with 1. lia.
  - apply lookup_insert_eq.
  - apply lookup_delete_eq.
Qed.

(** X3 on three failures: four attempts and seven seconds of sleep. *)
Lemma upload_succeeds_after_transient_failures_witness :
  let w := Scenario.staged [Some (Exn TimeoutError "timed out");
                            Some (Exn ConnectionError "connection reset");
                            Some (Exn LibcloudError "status_code=503"); None]
                           [("/stage/u1", "run/a.txt", true)] in
  fst (upload_loop "/stage/u1" "run/a.txt" 0 w) = inr tt ∧
  count_attempts (events_since w (snd (upload_loop "/stage/u1" "run/a.txt" 0 w))) = 4%nat ∧
  total_sleep (events_since w (snd (upload_loop "/stage/u1" "run/a.txt" 0 w))) = 7.
Proof.
  intros w.
  pose proof (upload_succeeds_after_transient_failures
                "/stage/u1" "run/a.txt" "data"
                [Exn TimeoutError "timed out"; Exn ConnectionError "connection reset";
                 Exn LibcloudError "status_code=503"] [None] w
                ltac:(simpl; lia)
                ltac:(repeat constructor)
                eq_refl eq_refl ltac:(right; by exists []) ltac:(simpl; lia))
    as (H1 & H2 & H3 & _).
  split; [exact H1|]. split; [exact H2|exact H3].
Defined.

(** X4. Whatever the store does, one pass of the loop body sleeps at most
    15 seconds in all. *)
Theorem worker_pass_sleeps_at_most_15 (p : Provider) (w : World) :
  0 ≤ total_sleep (events_since w (snd (worker_iteration p w))) ≤ 15.
Proof.
  destruct (file_queue w) as [|[[fp on] ov] rest] eqn:Hq.
  - unfold worker_iteration, check_finished, bind. rewrite (queue_get_nil w Hq). simpl.
    assert (Ht : ∀ b : bool,
              events_since w
                (snd (if b then (@inr exn loop_ctl Break, snd (emit (EvPoll poll_timeout) w))
                      else (inr Continue, snd (emit (EvPoll poll_timeout) w)))) =
              [EvPoll poll_timeout])
      by (intros []; by apply events_since_app).
    rewrite Ht. unfold total_sleep. simpl. lia.
  - destruct (queue_get_cons _ _ _ Hq) as (w0 & Hg & Ht0 & _).
    destruct (worker_iteration_cons p _ _ _ Hq) as (w0' & Hg' & ->).
    rewrite Hg in Hg'. injection Hg' as <-.
    destruct (process_job_events p fp on ov w0) as (pre & body & Hev & -> & Hbody).
    assert (Htr : trace (snd (process_job p (fp, on, ov) w0)) =
                  trace w0 ++ (if ov then [] else [EvGetObjectSize on]) ++ body).
    { destruct (process_job_run p fp on ov w0) as (new & Hn & _).
      unfold events_since in Hev. rewrite Hn, drop_app_length in Hev.
      by rewrite Hn, Hev. }
    assert (Hev' : events_since w
                     (snd (match process_job p (fp, on, ov) w0 with
                           | (inr _, w1) => (inr Continue, w1)
                           | (inl e, w1) => (@inl exn loop_ctl e, w1)
                           end)) =
                   [EvPoll 0] ++ (if ov then [] else [EvGetObjectSize on]) ++ body).
    { apply events_since_app.
      destruct (process_job p (fp, on, ov) w0) as [[e|[]] w1]; simpl in *;
        rewrite Htr, Ht0, <- app_assoc; reflexivity. }
    rewrite Hev', !total_sleep_app.
    assert (Hpre : total_sleep [EvPoll 0] = 0 ∧
                   total_sleep (if ov then [] else [EvGetObjectSize on]) = 0)
      by (destruct ov; done).
    destruct Hpre as [-> ->].
    destruct Hbody as [->|(k & tail & Hk & -> & Htail)]; [unfold total_sleep; simpl; lia|].
    rewrite total_sleep_app, (total_sleep_retry_pattern fp on k 0 ltac:(lia)).
    assert (total_sleep tail = 0) as -> by (destruct Htail as [->| ->]; done).
    assert (Hpow : 1 ≤ 2 ^ (0 + Z.of_nat k) ≤ 16).
    { do 5 (destruct k as [|k]; [vm_compute; split; discriminate|]). lia. }
    change (2 ^ 0) with 1. lia.
Qed.

(** ** Accounting along a schedule *)

(** One pass of the loop body, seen from the queue's task counter and from
    the trace. *)
Lemma worker_iteration_accounting p w :
  (length (file_queue w) ≤ unfinished_tasks w)%nat →
  match fst (worker_iteration p w), file_queue w with
  | inr _, _ :: _ =>
      S (unfinished_tasks (snd (worker_iteration p w))) = unfinished_tasks w
  | _, _ =>
      unfinished_tasks (snd (worker_iteration p w)) = unfinished_tasks w
  end.
Proof.
  intros Hinv.
  destruct (file_queue w) as [|[[fp on] ov] rest] eqn:Hq.
  - unfold worker_iteration, check_finished, bind. rewrite (queue_get_nil w Hq). simpl.
    destruct (is_finished w); reflexivity.
  - destruct (queue_get_cons _ _ _ Hq) as (w0 & Hg & _ & _ & _ & _ & _ & _ & Hu0 & _).
    destruct (worker_iteration_cons p _ _ _ Hq) as (w0' & Hg' & ->).
    rewrite Hg in Hg'. injection Hg' as <-.
    destruct (process_job_run p fp on ov w0) as (new & _ & _ & _ & _ & _ & _ & Hres).
    simpl in Hinv.
    destruct (process_job p (fp, on, ov) w0) as [[e|[]] w1]; simpl in *.
    + destruct Hres as [(_ & _ & _ & Hu)|(Hu & _)]; [congruence|lia].
    + destruct Hres as (_ & data & _ & _ & _ & Hu). congruence.
Qed.

Lemma thread_step_accounting p i w :
  (length (file_queue w) ≤ unfinished_tasks w)%nat →
  unfinished_tasks w =
    (unfinished_tasks (fst (thread_step p i w)) +
     match snd (thread_step p i w) with
     | Some r => if is_uploaded r then 1 else 0
     | None => 0
     end)%nat ∧
  (length (file_queue (fst (thread_step p i w))) ≤
     unfinished_tasks (fst (thread_step p i w)))%nat.
Proof.
  intros Hinv.
  pose proof (worker_iteration_accounting p w Hinv) as Hacc.
  destruct (worker_iteration_frame p w) as (_ & _ & Hq & _).
  rewrite thread_step_eq.
  destruct (threads w !! i) as [[| | |e0]|]; try (simpl; lia).
  destruct (file_queue w) as [|[[fp on] ov] rest] eqn:Hq0;
    [simpl in *; rewrite Hq0; simpl; lia|].
  destruct (worker_iteration p w) as [[e|ctl] w1]; simpl in *; rewrite Hq; simpl; lia.
Qed.

Lemma run_schedule_accounting p : ∀ sched w,
  (length (file_queue w) ≤ unfinished_tasks w)%nat →
  unfinished_tasks w =
    (unfinished_tasks (fst (run_schedule p sched w)) +
     count_uploaded (snd (run_schedule p sched w)))%nat ∧
  (length (file_queue (fst (run_schedule p sched w))) ≤
     unfinished_tasks (fst (run_schedule p sched w)))%nat.
Proof.
  induction sched as [|i sched IH]; intros w Hinv; [simpl; lia|].
  rewrite run_schedule_cons. simpl fst. simpl snd.
  destruct (thread_step_accounting p i w Hinv) as [Hu Hinv1].
  destruct (IH _ Hinv1) as [Hu' Hinv2]. split; [|exact Hinv2].
  destruct (snd (thread_step p i w)) as [r|]; simpl in *; lia.
Qed.

Lemma count_uploaded_le reports :
  (count_uploaded reports ≤ length reports)%nat.
Proof.
  induction reports as [|r l IHl]; simpl; [lia|].
  destruct (is_uploaded r); lia.
Qed.

(** X5. Along any run of the workers a task is acknowledged exactly when
    its job has been uploaded: the queue's counter of unacknowledged tasks
    drops by the number of uploaded jobs.  Starting with nothing in flight, it
    ends at the number of jobs still queued plus one for every job that ended
    in a fatal error. *)
Theorem task_done_counts_uploads (p : Provider) (sched : list nat) (w : World) :
  (length (file_queue w) ≤ unfinished_tasks w)%nat →
  unfinished_tasks w =
    (unfinished_tasks (fst (run_schedule p sched w)) +
     count_uploaded (snd (run_schedule p sched w)))%nat ∧
  (length (file_queue w) = unfinished_tasks w →
   unfinished_tasks (fst (run_schedule p sched w)) =
     (length (file_queue (fst (run_schedule p sched w))) +
      (length (snd (run_schedule p sched w)) -
       count_uploaded (snd (run_schedule p sched w))))%nat).
Proof.
  intros Hinv.
  destruct (run_schedule_accounting p sched w Hinv) as [Hu _].
  split; [exact Hu|]. intros Heq.
  destruct (run_schedule_spec p sched w) as (Hq & _).
  assert (Hlen : length (file_queue w) =
                 (length (snd (run_schedule p sched w)) +
                  length (file_queue (fst (run_schedule p sched w))))%nat)
    by (rewrite Hq at 1; rewrite length_app, length_map; reflexivity).
  pose proof (count_uploaded_le (snd (run_schedule p sched w))) as Hle.
  lia.
Qed.

(** X5 on the two jobs of which the first is refused: one task stays
    unacknowledged for the crash, one for the job left in the queue. *)
Lemma task_done_counts_uploads_witness :
  unfinished_tasks (fst (run_schedule Scenario.s3 [0%nat; 0%nat] Scenario.two_jobs)) =
    (length (file_queue (fst (run_schedule Scenario.s3 [0%nat; 0%nat] Scenario.two_jobs)))
     + (length (snd (run_schedule Scenario.s3 [0%nat; 0%nat] Scenario.two_jobs)) -
        count_uploaded (snd (run_schedule Scenario.s3 [0%nat; 0%nat] Scenario.two_jobs))))%nat.
Proof.
  apply (task_done_counts_uploads Scenario.s3 [0%nat; 0%nat] Scenario.two_jobs);
    [simpl; lia|reflexivity].
Defined.

(** The loop when the store refuses nothing: one attempt, no sleep. *)
Lemma upload_loop_no_fault fp on rc w :
  oracle w = [] →
  ∃ tail, trace (snd (upload_loop fp on rc w)) =
            trace w ++ EvUploadObject fp on :: tail ∧
          count_attempts tail = 0%nat ∧
          oracle (snd (upload_loop fp on rc w)) = [].
Proof.
  intros Ho. rewrite upload_loop_eq.
  destruct (upload_object_cases fp on w)
    as [[Hf ->]|(data & Hf & [(e & rest & Ho' & _)|[_ ->]])]; [|congruence|].
  - simpl. exists []. done.
  - unfold os_remove, task_done, bind, emit. simpl. rewrite Hf, Ho. simpl.
    exists [EvRemove fp; EvTaskDone].
    destruct (unfinished_tasks w); simpl; (split; [|done]);
      rewrite <- !app_assoc; reflexivity.
Qed.

Lemma process_job_no_fault p fp on ov w :
  oracle w = [] →
  ∃ new, trace (snd (process_job p (fp, on, ov) w)) = trace w ++ new ∧
         (count_attempts new ≤ 1)%nat ∧
         (fst (process_job p (fp, on, ov) w) = inr tt → count_attempts new = 1%nat) ∧
         oracle (snd (process_job p (fp, on, ov) w)) = [].
Proof.
  intros Ho. rewrite process_job_eq.
  destruct (check_overwrite_frame p on ov w) as (Ht & _).
  assert (Hor : oracle (snd (check_overwrite p on ov w)) = []).
  { unfold check_overwrite. destruct ov; simpl; [exact Ho|].
    unfold get_object_size, bind, emit, request. simpl. rewrite Ho. simpl.
    destruct (container w !! on); simpl; done. }
  destruct (check_overwrite p on ov w) as [[e|[]] w1]; simpl in *.
  - exists (if ov then [] else [EvGetObjectSize on]).
    split; [exact Ht|]. destruct ov; simpl; splits; auto; discriminate.
  - destruct (upload_loop_no_fault fp on 0 w1 Hor) as (tail & Htr & Hc & Ho1).
    exists ((if ov then [] else [EvGetObjectSize on]) ++ EvUploadObject fp on :: tail).
    split; [rewrite Htr, Ht, <- app_assoc; reflexivity|].
    rewrite count_attempts_app. simpl. rewrite Hc.
    destruct ov; simpl; splits; auto.
Qed.

Lemma thread_step_no_fault p i w :
  oracle w = [] →
  ∃ new, trace (fst (thread_step p i w)) = trace w ++ new ∧
         oracle (fst (thread_step p i w)) = [] ∧
         match snd (thread_step p i w) with
         | Some r => (count_attempts new ≤ 1)%nat ∧
                     (is_uploaded r = true → count_attempts new = 1%nat)
         | None => count_attempts new = 0%nat
         end.
Proof.
  intros Ho. rewrite thread_step_eq.
  destruct (threads w !! i) as [[| | |e0]|];
    try (exists []; simpl; rewrite app_nil_r; done).
  destruct (file_queue w) as [|[[fp on] ov] rest] eqn:Hq.
  - simpl. exists [EvPoll poll_timeout]. done.
  - destruct (queue_get_cons _ _ _ Hq) as (w0 & Hg & Ht0 & _ & _ & _ & _ & Ho0 & _).
    destruct (worker_iteration_cons p _ _ _ Hq) as (w0' & Hg' & ->).
    rewrite Hg in Hg'. injection Hg' as <-.
    destruct (process_job_no_fault p fp on ov w0 ltac:(congruence))
      as (new & Htr & Hle & Heq & Ho1).
    exists (EvPoll 0 :: new).
    destruct (process_job p (fp, on, ov) w0) as [[e|[]] w1]; simpl in *;
      rewrite Htr, Ht0, <- app_assoc; splits; auto; discriminate.
Qed.

Lemma run_schedule_no_fault p : ∀ sched w,
  oracle w = [] →
  ∃ new, trace (fst (run_schedule p sched w)) = trace w ++ new ∧
         (count_uploaded (snd (run_schedule p sched w)) ≤ count_attempts new)%nat ∧
         (count_attempts new ≤ length (snd (run_schedule p sched w)))%nat ∧
         oracle (fst (run_schedule p sched w)) = [].
Proof.
  induction sched as [|i sched IH]; intros w Ho.
  - exists []. simpl. rewrite app_nil_r. splits; auto.
  - rewrite run_schedule_cons. simpl fst. simpl snd.
    destruct (thread_step_no_fault p i w Ho) as (new1 & Ht1 & Ho1 & Hrep).
    destruct (IH _ Ho1) as (new2 & Ht2 & Hlo & Hhi & Ho2).
    exists (new1 ++ new2). rewrite Ht2, Ht1, <- app_assoc, count_attempts_app.
    split; [reflexivity|].
    destruct (snd (thread_step p i w)) as [r|]; simpl.
    + destruct Hrep as [Hle Heq].
      destruct (is_uploaded r); [specialize (Heq eq_refl)|]; splits; auto; lia.
    + splits; auto; lia.
Qed.

(** X6. With a store that refuses nothing, every job a worker takes gets at
    most one upload attempt and every uploaded job exactly one: over a whole
    run the number of [upload_object] calls lies between the number of
    uploaded jobs and the number of jobs taken.  The job that gets none is one
    refused by the existence check. *)
Theorem one_upload_call_per_job (p : Provider) (sched : list nat) (w : World) :
  oracle w = [] →
  (count_uploaded (snd (run_schedule p sched w)) ≤
     count_attempts (events_since w (fst (run_schedule p sched w))))%nat ∧
  (count_attempts (events_since w (fst (run_schedule p sched w))) ≤
     length (snd (run_schedule p sched w)))%nat ∧
  oracle (fst (run_schedule p sched w)) = [].
Proof.
  intros Ho.
  destruct (run_schedule_no_fault p sched w Ho) as (new & Ht & Hlo & Hhi & Ho').
  rewrite (events_since_app _ _ _ Ht). auto.
Qed.

(** X6 on one staged job and a store that refuses nothing. *)
Lemma one_upload_call_per_job_witness :
  let w := Scenario.staged [] [("/stage/u1", "run1/a.txt", true)] in
  (count_uploaded (snd (run_schedule Scenario.s3 [0%nat; 0%nat] w)) ≤
     count_attempts (events_since w (fst (run_schedule Scenario.s3 [0%nat; 0%nat] w))))%nat ∧
  (count_attempts (events_since w (fst (run_schedule Scenario.s3 [0%nat; 0%nat] w))) ≤
     length (snd (run_schedule Scenario.s3 [0%nat; 0%nat] w)))%nat ∧
  oracle (fst (run_schedule Scenario.s3 [0%nat; 0%nat] w)) = [].
Proof.
  exact (one_upload_call_per_job Scenario.s3 [0%nat; 0%nat]
           (Scenario.staged [] [("/stage/u1", "run1/a.txt", true)]) eq_refl).
Defined.

(** ** Runs in which nothing fails *)

Lemma thread_step_all_clear p i w :
  all_clear w →
  all_clear (fst (thread_step p i w)) ∧
  (∀ j e, threads (fst (thread_step p i w)) !! j = Some (Crashed e) →
          threads w !! j = Some (Crashed e)) ∧
  match snd (thread_step p i w) with
  | Some (job, fate) =>
      fate = Uploaded ∧
      is_Some (fs_files w !! job_path job) ∧
      container (fst (thread_step p i w)) !! job_object job =
        fs_files w !! job_path job ∧
      fs_files (fst (thread_step p i w)) !! job_path job = None
  | None => True
  end.
Proof.
  intros (Ho & Hall & Hnp & Hno & Hlen).
  assert (Hins : ∀ t j e, (∀ e', t ≠ Crashed e') →
            <[i := t]> (threads w) !! j = Some (Crashed e) →
            threads w !! j = Some (Crashed e)).
  { intros t j e Ht Hj. destruct (decide (j = i)) as [-> |Hne].
    - apply list_lookup_insert_Some in Hj as [(_ & Heq & _)|[? _]]; [|done].
      by destruct (Ht e).
    - by rewrite list_lookup_insert_ne in Hj. }
  rewrite thread_step_eq.
  destruct (threads w !! i) as [[| | |e0]|] eqn:Hi;
    try (simpl; splits; auto; done).
  2:{ simpl. splits; auto; [by (splits; auto)|].
      intros j e. apply Hins. by destruct (is_finished w). }
  destruct (file_queue w) as [|[[fp on] ov] rest] eqn:Hq.
  - simpl. unfold all_clear; simpl; rewrite Hq; splits; auto.
    intros j e. by apply Hins.
  - destruct (queue_get_cons _ _ _ Hq)
      as (w0 & Hg & _ & Hq0 & Hf0 & _ & Hc0 & Ho0 & Hu0 & _ & Hth0).
    destruct (worker_iteration_cons p _ _ _ Hq) as (w0' & Hg' & ->).
    rewrite Hg in Hg'. injection Hg' as <-.
    apply Forall_cons in Hall as [[[data Hdata] Hov] Hall].
    simpl in Hnp, Hno, Hlen, Hdata, Hov.
    apply NoDup_cons in Hnp as [Hfp Hnp]. apply NoDup_cons in Hno as [Hon Hno].
    unfold job_path, job_object, job_overwrite in *. simpl in Hdata, Hov.
    destruct (process_job_all_clear p fp on ov w0 data ltac:(congruence)
                ltac:(congruence) ltac:(rewrite Hc0; exact Hov) ltac:(lia))
      as (Hr & Hco & Hfs & Hor & Hun).
    destruct (process_job_run p fp on ov w0) as (new & _ & _ & _ & Hq1 & _ & Hth1 & _).
    destruct (process_job p (fp, on, ov) w0) as [[e|[]] w1]; simpl in *;
      [discriminate|].
    splits.
    + unfold all_clear. rewrite Hq1, Hq0, Hor, Hco, Hfs, Hc0, Hf0.
      splits; auto; [|lia].
      apply Forall_forall. intros [[fp' on'] ov'] Hin.
      pose proof (proj1 (Forall_forall _ _) Hall _ Hin) as [Hs Hov'].
      simpl in *.
      assert (fp' ≠ fp).
      { intros ->. apply Hfp. apply list_elem_of_In, in_map_iff.
        exists (fp, on', ov'). split; [reflexivity|by apply list_elem_of_In]. }
      assert (on' ≠ on).
      { intros ->. apply Hon. apply list_elem_of_In, in_map_iff.
        exists (fp', on, ov'). split; [reflexivity|by apply list_elem_of_In]. }
      rewrite lookup_delete_ne, lookup_insert_ne by done. done.
    + intros j e Hj. congruence.
    + reflexivity.
    + rewrite Hdata. eauto.
    + rewrite Hco, Hdata. apply lookup_insert_eq.
    + rewrite Hfs. apply lookup_delete_eq.
Qed.

Lemma run_schedule_all_clear p : ∀ sched w,
  all_clear w →
  all_clear (fst (run_schedule p sched w)) ∧
  (∀ j e, threads (fst (run_schedule p sched w)) !! j = Some (Crashed e) →
          threads w !! j = Some (Crashed e)) ∧
  Forall (λ r, snd r = Uploaded) (snd (run_schedule p sched w)) ∧
  (∀ job, job ∈ map fst (snd (run_schedule p sched w)) →
     is_Some (fs_files w !! job_path job) ∧
     container (fst (run_schedule p sched w)) !! job_object job =
       fs_files w !! job_path job ∧
     fs_files (fst (run_schedule p sched w)) !! job_path job = None).
Proof.
  induction sched as [|i sched IH]; intros w Hclear.
  - simpl. splits; auto. intros job Hin. by apply elem_of_nil in Hin.
  - rewrite run_schedule_cons. simpl fst. simpl snd.
    destruct (thread_step_all_clear p i w Hclear) as (Hc1 & Hcr1 & Hrep).
    destruct (thread_step_spec p i w) as (Hq & _).
    destruct (thread_step_footprint p i w) as (_ & Hfoot & _).
    set (w1 := fst (thread_step p i w)) in *.
    destruct (IH w1 Hc1) as (Hc2 & Hcr2 & Hup2 & Hjobs2).
    destruct (run_schedule_spec p sched w1) as (Hq2 & _ & _ & Hgone & _).
    destruct (run_schedule_footprint p sched w1) as (_ & _ & _ & Hcont & _).
    set (w2 := fst (run_schedule p sched w1)) in *.
    set (reps := snd (run_schedule p sched w1)) in *.
    destruct Hclear as (_ & _ & Hnp & Hno & _).
    assert (Hsub : ∀ job, job ∈ map fst reps → job ∈ file_queue w1).
    { intros job Hin. rewrite Hq2. apply elem_of_app. by left. }
    destruct (snd (thread_step p i w)) as [[job fate]|] eqn:Hsnd; simpl in *.
    + destruct Hrep as (-> & Hs & Hco & Hfs).
      rewrite Hq in Hnp, Hno. simpl in Hnp, Hno.
      apply NoDup_cons in Hnp as [Hfp _]. apply NoDup_cons in Hno as [Hon _].
      split; [exact Hc2|]. split; [by auto|]. split.
      * constructor; [reflexivity|exact Hup2].
      * intros job' [-> |Hin]%elem_of_cons.
        -- splits; auto.
           rewrite Hcont; [exact Hco|].
           intros Hin. apply Hon. apply list_elem_of_In, in_map_iff.
           apply list_elem_of_In, in_map_iff in Hin as (j' & Hj' & Hin').
           exists j'. split; [exact Hj'|]. apply list_elem_of_In, Hsub, list_elem_of_In.
           exact Hin'.
        -- destruct (Hjobs2 job' Hin) as (Hs' & Hco' & Hfs').
           assert (Hne : job_path job' ≠ job_path job).
           { intros Heq. apply Hfp. rewrite <- Heq.
             apply list_elem_of_In, in_map_iff. exists job'.
             split; [reflexivity|]. apply list_elem_of_In, Hsub, Hin. }
           rewrite <- (Hfoot (job_path job')); [done|].
           intros j fate [= <- <-]. exact Hne.
    + split; [exact Hc2|]. split; [by auto|]. split; [exact Hup2|].
      intros job' Hin. destruct (Hjobs2 job' Hin) as (Hs' & Hco' & Hfs').
      rewrite <- (Hfoot (job_path job')); [done|]. intros j fate [=].
Qed.

Lemma all_uploaded_count reports :
  Forall (λ r, snd r = Uploaded) reports → count_uploaded reports = length reports.
Proof.
  induction 1 as [|r l Hr _ IH]; simpl; [reflexivity|].
  unfold is_uploaded. rewrite Hr, IH. reflexivity.
Qed.

(** X7. Suppose the store refuses nothing, every queued job has its staged
    file, no job that may not overwrite finds an object of its name, and the
    queued jobs have pairwise distinct staged files and object names.  Then
    under every schedule no worker crashes, every job taken is uploaded with
    exactly one [upload_object] call, its object holds what its staged file
    held, the staged file is gone, and the queue's counter of unacknowledged
    tasks has dropped by the number of jobs taken. *)
Theorem clear_run_uploads_each_job_once (p : Provider) (sched : list nat) (w : World) :
  all_clear w →
  Forall (λ r, snd r = Uploaded) (snd (run_schedule p sched w)) ∧
  (∀ i e, threads (fst (run_schedule p sched w)) !! i = Some (Crashed e) →
          threads w !! i = Some (Crashed e)) ∧
  (∀ job, job ∈ map fst (snd (run_schedule p sched w)) →
     is_Some (fs_files w !! job_path job) ∧
     container (fst (run_schedule p sched w)) !! job_object job =
       fs_files w !! job_path job ∧
     fs_files (fst (run_schedule p sched w)) !! job_path job = None) ∧
  count_attempts (events_since w (fst (run_schedule p sched w))) =
    length (snd (run_schedule p sched w)) ∧
  unfinished_tasks w =
    (unfinished_tasks (fst (run_schedule p sched w)) +
     length (snd (run_schedule p sched w)))%nat ∧
  all_clear (fst (run_schedule p sched w)).
Proof.
  intros Hclear.
  destruct (run_schedule_all_clear p sched w Hclear) as (Hc & Hcr & Hup & Hjobs).
  destruct Hclear as (Ho & _ & _ & _ & Hlen).
  destruct (run_schedule_no_fault p sched w Ho) as (new & Ht & Hlo & Hhi & _).
  destruct (run_schedule_accounting p sched w Hlen) as [Hu _].
  rewrite (all_uploaded_count _ Hup) in Hlo, Hu.
  rewrite (events_since_app _ _ _ Ht).
  splits; auto. lia.
Qed.

(** X7 on two jobs, the first of which may not overwrite, and one worker. *)
Lemma clear_run_uploads_each_job_once_witness :
  let w := mkWorld (<["/stage/u1" := "AAA"]> {["/stage/u2" := "BBB"]}) {["/stage"]} ∅ []
                   [Scenario.job_a; Scenario.job_b] 2 false [Running] [] in
  count_attempts
    (events_since w (fst (run_schedule Scenario.s3 [0%nat; 0%nat; 0%nat] w))) =
    length (snd (run_schedule Scenario.s3 [0%nat; 0%nat; 0%nat] w)) ∧
  unfinished_tasks w =
    (unfinished_tasks (fst (run_schedule Scenario.s3 [0%nat; 0%nat; 0%nat] w)) +
     length (snd (run_schedule Scenario.s3 [0%nat; 0%nat; 0%nat] w)))%nat.
Proof.
  intros w.
  assert (Hclear : all_clear w).
  { unfold all_clear, w. simpl. splits; [reflexivity| | | |lia].
    - repeat constructor; by vm_compute; eauto.
    - apply NoDup_cons. split; [|apply NoDup_singleton].
      by intros [=]%list_elem_of_singleton.
    - apply NoDup_cons. split; [|apply NoDup_singleton].
      by intros [=]%list_elem_of_singleton. }
  pose proof (clear_run_uploads_each_job_once Scenario.s3 [0%nat; 0%nat; 0%nat] w Hclear)
    as (_ & _ & _ & H1 & H2 & _).
  split; [exact H1|exact H2].
Defined.

(** ** From the first submission to shutdown *)





Section LoggerInUse.

Context {State LogLevel : Type}.
Variable str_format : string -> FormatArgs -> exn + string.
Variable dist : Dist.

Abbreviation Logger := (@ObjectStoreLogger State LogLevel).





End LoggerInUse.


(** ** Helpers for the logger *)


Lemma lookup_repeat {A} (x : A) : ∀ (n i : nat),
  (i < n)%nat → repeat x n !! i = Some x.
Proof.
  induction n as [|n IH]; intros i Hi; [lia|].
  destruct i as [|i]; simpl; [reflexivity|]. apply IH. lia.
Qed.

Lemma prefix_app (a b : string) : String.prefix a (a +:+ b) = true.
Proof.
  induction a as [|c a IH]; [by destruct b|].
  rewrite string_app_cons. simpl. by destruct (ascii_dec c c).
Qed.

(** A path joined to a directory that neither is empty nor ends in a
    separator lies under it. *)
Lemma join_under (d b : string) :
  d ≠ "" → PyStr.ends_with_char OsPath.sep d = false →
  PyStr.starts_with_char OsPath.sep b = false →
  OsPath.under d (OsPath.join d b) = true.
Proof.
  intros Hd He Hb. unfold OsPath.join, OsPath.under.
  rewrite Hb, He, (bool_decide_eq_false_2 _ Hd). simpl orb. cbv iota.
  rewrite <- string_app_assoc, prefix_app. apply orb_true_r.
Qed.

Lemma tempdir_cleanup_idempotent d w :
  tempdir_cleanup d (tempdir_cleanup d w) = tempdir_cleanup d w.
Proof.
  unfold tempdir_cleanup, set_fs; simpl. f_equal.
  - apply map_eq. intros x.
    destruct (filter _ (fs_files w) !! x) as [v|] eqn:Hv.
    + apply map_lookup_filter_Some. split; [exact Hv|].
      by apply map_lookup_filter_Some in Hv as [_ ?].
    + apply map_lookup_filter_None. by left.
  - apply set_eq. intros x. rewrite !elem_of_filter.
    split; [by intros [_ ?]|by intros [? ?]].
Qed.

Lemma set_is_finished_same w : set_is_finished (is_finished w) w = w.
Proof. by destruct w. Qed.

(** ** The logger on a clear world *)

Section LoggerFurtherProperties.

Context {State LogLevel : Type}.
Variable str_format : string -> FormatArgs -> exn + string.
Variable dist : Dist.

Abbreviation Logger := (@ObjectStoreLogger State LogLevel).

(** What a call of [log_file_artifact] that returns has done. *)
Lemma log_file_artifact_ok (self : Logger) state log_level artifact_name file_path
    overwrite uuid4 w w1 :
  _should_log_artifact self state log_level artifact_name = true →
  OsPath.join (_upload_staging_folder self) uuid4 ∉ fs_dirs w →
  log_file_artifact str_format dist self state log_level artifact_name file_path
                    overwrite uuid4 w = (inr tt, w1) →
  ∃ data object_name,
    fs_files w !! file_path = Some data ∧
    _format_object_name str_format dist self artifact_name = inr object_name ∧
    fs_files w1 =
      <[OsPath.join (_upload_staging_folder self) uuid4 := data]> (fs_files w) ∧
    file_queue w1 =
      file_queue w ++
      [(OsPath.join (_upload_staging_folder self) uuid4, object_name, overwrite)] ∧
    unfinished_tasks w1 = S (unfinished_tasks w) ∧
    container w1 = container w ∧ oracle w1 = oracle w ∧
    threads w1 = threads w ∧ trace w1 = trace w ∧ is_finished w1 = is_finished w.
Proof.
  intros Hlog Hfresh. unfold log_file_artifact. rewrite Hlog. cbn [negb].
  set (copied_path := OsPath.join (_upload_staging_folder self) uuid4) in *.
  unfold bind. cbv beta iota.
  set (d := OsPath.dirname copied_path).
  destruct (os_makedirs_cases d w) as [(e & Hm & He)|(Hd & Hm)]; rewrite Hm;
    [discriminate|].
  set (w0 := set_fs _ _ w).
  assert (Hnd : copied_path ∉ fs_dirs w0).
  { unfold w0; cbn [fs_dirs set_fs]. intros [Hin|Hin]%elem_of_union; [|done].
    apply elem_of_list_to_set in Hin.
    exact (not_in_own_lineage (S (String.length d)) copied_path Hin). }
  destruct (shutil_copy2_cases file_path copied_path w0)
    as [(e & Hc & He)|(data & Hsrc & Hc)]; rewrite Hc; [discriminate|].
  rewrite (bool_decide_eq_false_2 _ Hnd).
  change (fs_files w0) with (fs_files w) in *.
  destruct (_format_object_name str_format dist self artifact_name)
    as [e|object_name] eqn:Hfmt; simpl; [discriminate|].
  intros [= <-]. exists data, object_name. simpl. splits; auto.
Qed.

(** X8. Let nothing stand in the way of the queued jobs, and let
    [log_file_artifact] return for an artifact that passes the filter, whose
    copy path is neither a directory nor the staged file of a queued job,
    whose object name is not that of a queued job, and which may overwrite or
    finds no object of its name.  Then nothing stands in the way afterwards
    either, so such submissions compose; the staged copy holds the file's
    contents of that moment; the job joins the end of the queue under the
    object name that [get_uri_for_artifact] reports; and any run of the
    workers that takes the job puts exactly those contents under that name and
    removes the copy. *)
Theorem logged_artifact_is_uploaded_under_its_uri
    (self : Logger) (state : State) (log_level : LogLevel)
    (artifact_name file_path : string) (overwrite : bool) (uuid4 : string)
    (object_name : string) (w w1 : World) :
  let copied_path := OsPath.join (_upload_staging_folder self) uuid4 in
  all_clear w →
  _should_log_artifact self state log_level artifact_name = true →
  copied_path ∉ fs_dirs w →
  copied_path ∉ map job_path (file_queue w) →
  _format_object_name str_format dist self artifact_name = inr object_name →
  object_name ∉ map job_object (file_queue w) →
  overwrite = true ∨ container w !! object_name = None →
  log_file_artifact str_format dist self state log_level artifact_name file_path
                    overwrite uuid4 w = (inr tt, w1) →
  all_clear w1 ∧
  is_Some (fs_files w !! file_path) ∧
  fs_files w1 !! copied_path = fs_files w !! file_path ∧
  file_queue w1 = file_queue w ++ [(copied_path, object_name, overwrite)] ∧
  get_uri_for_artifact str_format dist self artifact_name =
    inr ((provider (_object_store_provider_hparams self) +:+ "://" +:+
          container_name_of (_object_store_provider_hparams self) +:+ "/") +:+
         object_name) ∧
  (∀ p sched,
     (copied_path, object_name, overwrite) ∈ map fst (snd (run_schedule p sched w1)) →
     container (fst (run_schedule p sched w1)) !! object_name = fs_files w !! file_path ∧
     fs_files (fst (run_schedule p sched w1)) !! copied_path = None).
Proof.
  intros copied_path (Ho & Hall & Hnp & Hno & Hlen) Hlog Hfresh Hpath Hfmt Hname Hov Hrun.
  destruct (log_file_artifact_ok self state log_level artifact_name file_path overwrite
              uuid4 w w1 Hlog Hfresh Hrun)
    as (data & on' & Hsrc & Hfmt' & Hfs & Hq & Hu & Hc & Ho1 & _).
  rewrite Hfmt in Hfmt'. injection Hfmt' as <-. fold copied_path in Hfs, Hq.
  assert (Hstaged : fs_files w1 !! copied_path = fs_files w !! file_path)
    by (rewrite Hfs, Hsrc; apply lookup_insert_eq).
  assert (Hclear : all_clear w1).
  { unfold all_clear. rewrite Ho1, Hq, Hu, Hc, Hfs, !map_app, length_app. simpl.
    splits; [congruence| | | |lia].
    - apply Forall_app. split.
      + apply Forall_forall. intros j Hin.
        pose proof (proj1 (Forall_forall _ _) Hall _ Hin) as [Hs Hov'].
        split; [|exact Hov'].
        rewrite lookup_insert_ne; [exact Hs|].
        intros Heq. apply Hpath. rewrite Heq.
        apply list_elem_of_In, in_map, list_elem_of_In, Hin.
      + constructor; [|constructor]. unfold job_path, job_object, job_overwrite. simpl.
        split; [rewrite lookup_insert_eq; eauto|exact Hov].
    - apply NoDup_app. split; [exact Hnp|]. split; [|apply NoDup_singleton].
      intros x Hx ->%list_elem_of_singleton. exact (Hpath Hx).
    - apply NoDup_app. split; [exact Hno|]. split; [|apply NoDup_singleton].
      intros x Hx ->%list_elem_of_singleton. exact (Hname Hx). }
  split; [exact Hclear|]. split; [rewrite Hsrc; eauto|].
  split; [exact Hstaged|]. split; [exact Hq|]. split.
  - unfold get_uri_for_artifact. rewrite Hfmt.
    unfold _format_object_name in Hfmt.
    destruct (_run_name self) as [rn|]; [|discriminate].
    destruct (str_format _ _) as [e|key]; [discriminate|].
    injection Hfmt as <-. by rewrite lstrip_idempotent.
  - intros p sched Hin.
    destruct (run_schedule_all_clear p sched w1 Hclear) as (_ & _ & _ & Hjobs).
    destruct (Hjobs _ Hin) as (_ & Hco & Hgone).
    unfold job_path, job_object in Hco, Hgone. simpl in Hco, Hgone.
    rewrite Hco, Hstaged. done.
Qed.

(** ** Shutdown on a clear world *)


(** ** [init] *)

Lemma init_sets_finished (self : Logger) name w :
  is_Some (_finished (snd (fst (init str_format dist self name w)))).
Proof.
  unfold init. destruct (_finished self) as [u|] eqn:Hfin; simpl; [by rewrite Hfin|].
  destruct (_format_object_name _ _ _ _) as [e|on]; simpl; [eauto|].
  destruct (_validate_credentials _ _ _) as [[e|[]] w2]; simpl; [eauto|].
  destruct (negb _); simpl; [eauto|].
  match goal with |- context [start_workers ?k ?s ?v] =>
    destruct (start_workers_spec k s v) as (_ & _ & _ & _ & _ & _ & _ & _ & Hf);
    destruct (start_workers k s v) as [self2 w3]
  end.
  simpl in *. rewrite Hf. eauto.
Qed.

(** X10. [init] runs once per logger: after a call of [init], whether it
    returned or raised (the credentials check failed, say), every further
    call raises the [RuntimeError] that the logger is already initialized and
    changes neither the logger nor the world; in particular it starts no
    worker. *)
Theorem init_runs_only_once (self : Logger) (name name' : string) (w w' : World) :
  init str_format dist (snd (fst (init str_format dist self name w))) name' w' =
    (inl (Exn RuntimeError "The ObjectStoreLogger is already initialized."),
     snd (fst (init str_format dist self name w)), w').
Proof.
  destruct (init_sets_finished self name w) as [u Hu].
  unfold init at 1. rewrite Hu. reflexivity.
Qed.

(** X11. A logger built by [__init__] and brought up by [init] has exactly
    [num_concurrent_uploads >= 1] workers, all of them new threads that are
    running, so the health check passes; the threads that were there before
    are as they were, the shutdown event is unset and the run name is the one
    [init] was given. *)
Theorem init_starts_requested_workers
    (hp : ObjectStoreProviderHparams)
    (should_log_artifact : option (State → LogLevel → string → bool))
    (fmt : string) (n : Z) (staging : option string) (fresh_tempdir : string)
    (self : Logger) (name : string) (w : World) (self' : Logger) (w' : World) :
  __init__ hp should_log_artifact fmt n staging fresh_tempdir = inr self →
  init str_format dist self name w = (inr tt, self', w') →
  1 ≤ n ∧
  _workers self' = seq (length (threads w)) (Z.to_nat n) ∧
  threads w' = threads w ++ repeat Running (Z.to_nat n) ∧
  (∀ i, i ∈ _workers self' → threads w !! i = None ∧ threads w' !! i = Some Running) ∧
  fst (_check_workers self' w') = inr tt ∧
  is_finished w' = false ∧
  _run_name self' = Some name.
Proof.
  unfold __init__. destruct (Z.ltb_spec n 1) as [|Hn]; [discriminate|].
  intros [= <-]. unfold init. simpl.
  destruct (_format_object_name _ _ _ _) as [e|on]; simpl; [discriminate|].
  unfold _validate_credentials.
  match goal with |- context [upload_object_via_stream ?o ?k ?v] =>
    destruct (upload_object_via_stream_frame o k v) as (_ & Hth & _ & _ & Hfi);
    destruct (upload_object_via_stream o k v) as [[e|[]] w2]
  end; simpl in *; [discriminate|].
  match goal with |- context [start_workers ?k ?s ?v] =>
    destruct (start_workers_spec k s v) as (Hw & Hth3 & _ & _ & _ & _ & Hfi3 & Hrn & _);
    destruct (start_workers k s v) as [self2 w3]
  end.
  simpl in *. intros [= <- <-].
  rewrite Hth in *.
  assert (Hall : ∀ i, i ∈ _workers self2 →
                      threads w !! i = None ∧ threads w3 !! i = Some Running).
  { intros i Hi. rewrite Hw in Hi. apply list_elem_of_In, in_seq in Hi. split.
    - apply lookup_ge_None. lia.
    - rewrite Hth3, lookup_app_r by lia. apply lookup_repeat. lia. }
  splits; auto; try congruence.
  unfold _check_workers. rewrite (proj2 (forallb_forall _ _)); [reflexivity|].
  intros i Hi%list_elem_of_In. unfold worker_is_alive.
  by rewrite (proj2 (Hall i Hi)).
Qed.

(** ** After [post_close] *)

(** X12. When the logger owns its staging directory (no
    [upload_staging_folder] was given), a [post_close] that returns leaves
    nothing under it: no file, no directory, and in particular no staged copy,
    uploaded or not.  What lies elsewhere is as the workers left it.  With a
    staging folder of the caller's, [post_close] removes nothing itself. *)
Theorem post_close_empties_owned_tempdir
    (self : Logger) (sched : list nat) (w : World) (self' : Logger) (w' : World) :
  post_close self sched w = Some (self', w') →
  let w2 := fst (run_schedule (initialize_object (_object_store_provider_hparams self))
                   sched
                   (match _finished self with
                    | Some _ => set_is_finished true w
                    | None => w
                    end)) in
  match _tempdir self with
  | Some d =>
      (∀ x, OsPath.under d x = true → fs_files w' !! x = None ∧ x ∉ fs_dirs w') ∧
      (∀ x, OsPath.under d x = false →
            fs_files w' !! x = fs_files w2 !! x ∧ (x ∈ fs_dirs w' ↔ x ∈ fs_dirs w)) ∧
      (_upload_staging_folder self = d → d ≠ "" →
       PyStr.ends_with_char OsPath.sep d = false →
       ∀ uuid4, PyStr.starts_with_char OsPath.sep uuid4 = false →
         fs_files w' !! OsPath.join (_upload_staging_folder self) uuid4 = None) ∧
      container w' = container w2 ∧ file_queue w' = file_queue w2
  | None => w' = w2
  end.
Proof.
  intros Hpc w2. unfold post_close in Hpc. fold w2 in Hpc.
  destruct (forallb _ _); [|discriminate]. injection Hpc as _ <-.
  destruct (_tempdir self) as [d|]; [|reflexivity].
  assert (Hin : ∀ x, OsPath.under d x = true →
                     fs_files (tempdir_cleanup d w2) !! x = None ∧
                     x ∉ fs_dirs (tempdir_cleanup d w2)).
  { intros x Hx. unfold tempdir_cleanup; simpl. split.
    - apply map_lookup_filter_None. right. intros v _. simpl. congruence.
    - intros [Hx' _]%elem_of_filter. congruence. }
  assert (Hd2 : fs_dirs w2 = fs_dirs w).
  { unfold w2. destruct (run_schedule_footprint
        (initialize_object (_object_store_provider_hparams self)) sched
        (match _finished self with Some _ => set_is_finished true w | None => w end))
      as (Hd & _).
    rewrite Hd. by destruct (_finished self). }
  splits; auto.
  - intros x Hx. unfold tempdir_cleanup; simpl. split.
    + destruct (fs_files w2 !! x) as [v|] eqn:Hv.
      * apply map_lookup_filter_Some. done.
      * apply map_lookup_filter_None. by left.
    + rewrite elem_of_filter, Hd2. split; [by intros [_ ?]|by intros ?].
  - intros Hst Hd He uuid4 Hu. apply Hin. rewrite Hst. by apply join_under.
Qed.

(** X13. [post_close] leaves a logger without workers.  From then on the
    health check cannot raise, on any world: a worker's crash that no
    [batch_end] or [epoch_end] noticed before [post_close] is never reported.
    A second [post_close] waits for nothing, whatever the other threads do,
    and called at once it changes nothing. *)
Theorem post_close_forgets_workers
    (self : Logger) (sched : list nat) (w : World) (self' : Logger) (w' : World) :
  post_close self sched w = Some (self', w') →
  _workers self' = [] ∧
  (∀ v, _check_workers self' v = (inr tt, v)) ∧
  (∀ v, batch_end self' v = (inr tt, v)) ∧
  (∀ v, epoch_end self' v = (inr tt, v)) ∧
  (∀ sched' v, is_Some (post_close self' sched' v)) ∧
  post_close self' [] w' = Some (self', w').
Proof.
  intros Hpc. unfold post_close in Hpc.
  set (p := initialize_object (_object_store_provider_hparams self)) in *.
  set (w1 := match _finished self with Some _ => set_is_finished true w | None => w end)
    in *.
  destruct (run_schedule_spec p sched w1) as (_ & Hfi & _).
  destruct (forallb _ _); [|discriminate]. injection Hpc as <- <-.
  splits; try reflexivity.
  - intros sched' v. unfold post_close. simpl. eauto.
  - unfold post_close. simpl. f_equal. f_equal.
    assert (Hsame : match _finished self with
                    | Some _ => set_is_finished true
                        (match _tempdir self with
                         | Some d => tempdir_cleanup d (fst (run_schedule p sched w1))
                         | None => fst (run_schedule p sched w1)
                         end)
                    | None => match _tempdir self with
                              | Some d => tempdir_cleanup d (fst (run_schedule p sched w1))
                              | None => fst (run_schedule p sched w1)
                              end
                    end =
                    match _tempdir self with
                    | Some d => tempdir_cleanup d (fst (run_schedule p sched w1))
                    | None => fst (run_schedule p sched w1)
                    end).
    { destruct (_finished self) as [u|]; [|reflexivity].
      set (w3 := match _tempdir self with Some d => _ | None => _ end).
      assert (Hf3 : is_finished w3 = true).
      { unfold w3. destruct (_tempdir self); simpl; rewrite Hfi; reflexivity. }
      rewrite <- Hf3. apply set_is_finished_same. }
    rewrite Hsame.
    destruct (_tempdir self) as [d|]; [|reflexivity].
    apply tempdir_cleanup_idempotent.
Qed.

End LoggerFurtherProperties.

(** X8 on the started logger and a world that holds the artifact. *)
Lemma logged_artifact_is_uploaded_under_its_uri_witness :
  let w1 := snd (log_file_artifact PlainFormat.format Scenario.dist0
                   Scenario.started_logger tt tt "a.txt" "/out/a.txt" false "u1"
                   Scenario.with_artifact) in
  all_clear w1 ∧
  fs_files w1 !! "/stage/u1" = Some "AAA" ∧
  get_uri_for_artifact PlainFormat.format Scenario.dist0 Scenario.started_logger "a.txt"
    = inr "s3://bkt/run1/a.txt".
Proof.
  intros w1.
  assert (Hclear : all_clear Scenario.with_artifact).
  { unfold all_clear. simpl. splits; auto; constructor. }
  pose proof (logged_artifact_is_uploaded_under_its_uri
                PlainFormat.format Scenario.dist0 Scenario.started_logger tt tt
                "a.txt" "/out/a.txt" false "u1" "run1/a.txt" Scenario.with_artifact w1
                Hclear eq_refl
                ltac:(simpl; apply not_elem_of_empty)
                ltac:(simpl; apply not_elem_of_nil)
                ltac:(vm_compute; reflexivity)
                ltac:(simpl; apply not_elem_of_nil)
                ltac:(right; reflexivity)
                ltac:(vm_compute; reflexivity))
    as (H1 & _ & H3 & _ & H5 & _).
  split; [exact H1|]. split; [exact H3|exact H5].
Defined.


(** X11 on a logger asked for two workers. *)
Lemma init_starts_requested_workers_witness :
  let self : @ObjectStoreLogger unit unit :=
    mkLogger Scenario.hparams _always_log "/{run_name}/{artifact_name}" None None
             "/stage" 2 None [] in
  let r := init PlainFormat.format Scenario.dist0 self "run1" Scenario.with_artifact in
  _workers (snd (fst r)) = [0%nat; 1%nat] ∧
  threads (snd r) = [Running; Running] ∧
  fst (_check_workers (snd (fst r)) (snd r)) = inr tt.
Proof.
  intros self r.
  pose proof (init_starts_requested_workers
                PlainFormat.format Scenario.dist0 Scenario.hparams None
                "/{run_name}/{artifact_name}" 2 (Some "/stage") "/tmp/x"
                self "run1" Scenario.with_artifact (snd (fst r)) (snd r)
                eq_refl ltac:(vm_compute; reflexivity))
    as (_ & H2 & H3 & _ & H5 & _).
  split; [exact H2|]. split; [exact H3|exact H5].
Defined.

(** X12 on a logger that owns "/tmp/x" and a job its crashed worker never
    took: the staged copy goes with the directory. *)
Lemma post_close_empties_owned_tempdir_witness :
  let self : @ObjectStoreLogger unit unit :=
    mkLogger Scenario.hparams _always_log "/{run_name}/{artifact_name}" (Some "run1")
             (Some "/tmp/x") "/tmp/x" 1 (Some tt) [0%nat] in
  let w := mkWorld {["/tmp/x/u1" := "AAA"]} {["/tmp/x"]} ∅ []
                   [("/tmp/x/u1", "run1/a.txt", true)] 1 false
                   [Crashed (Exn TimeoutError "timed out")] [] in
  let w' := tempdir_cleanup "/tmp/x" (set_is_finished true w) in
  fs_files w' !! "/tmp/x/u1" = None ∧ file_queue w' = [("/tmp/x/u1", "run1/a.txt", true)].
Proof.
  intros self w w'.
  pose proof (post_close_empties_owned_tempdir self [] w (set_workers [] self) w'
                eq_refl) as H.
  simpl in H. destruct H as (_ & _ & H3 & _ & H5).
  split; [|exact H5].
  exact (H3 eq_refl ltac:(discriminate) eq_refl "u1" eq_refl).
Defined.

(** X13 on the worker that crashed on its first job: after [post_close] the
    health check passes although thread 0 has crashed. *)
Lemma post_close_forgets_workers_witness :
  let w' := fst (run_schedule Scenario.s3 [0%nat] (set_is_finished true Scenario.two_jobs)) in
  threads w' !! 0%nat = Some (Crashed Scenario.a_exists) ∧
  _check_workers (set_workers [] Scenario.started_logger) w' = (inr tt, w').
Proof.
  intros w'.
  pose proof (post_close_forgets_workers
                Scenario.started_logger [0%nat] Scenario.two_jobs
                (set_workers [] Scenario.started_logger) w'
                ltac:(vm_compute; reflexivity))
    as (_ & H2 & _).
  split; [vm_compute; reflexivity|exact (H2 w')].
Defined.
